(** * Peer session orchestrator of the [useWebRTC] hook

    A shallow embedding of [src/hooks/useWebRTC.ts]: the connection
    registry ([connectionsRef]), the participant store, the control
    message router ([dataConn.on("data")]), the connection lifecycle
    ([establishPeerConnection], [handlePeerDisconnection]), the topology
    controller ([handlePeerList], [setTopology]), the screen-share
    overlay ([startScreenShare], [stopScreenShare]) and the join retry
    loop ([connectToCreator]); further the peer-list broadcast
    ([broadcastPeerList], [reconnectAll]), the display name
    ([setUsername]), leaving ([handleBeforeUnload]), the track toggles
    and the grid and clock of the recording ([layoutStreams],
    [formattedTime] of [RecordingControls]).

    Conventions of the embedding.
    - A JS object used as a dictionary is a [gmap string _]; an absent
      key reads as [None] (JS [undefined]).
    - A transport channel object (PeerJS [DataConnection] or
      [MediaConnection]) is represented by its identity, a number the
      transport hands out when the channel is created; two references
      are the same object iff the numbers are equal.
    - Calls into the transport ([connect], [call], [send], [close]) and
      timers are recorded, in program order, in the [log] of the world.
    - A React state variable has a latest value, kept in the world, and
      the value a callback captured when it was created, kept in the
      [Render] snapshot the callback is given. Functional updaters
      ([setParticipants (prev => ...)]) act on the latest value.
    - [await]-ed delays inside a loop are suspension points only; a
      function is run to completion. *)

From stdpp Require Import gmap strings list fin_maps pretty.

Open Scope string_scope.

(** ** JavaScript string and truthiness helpers *)

(** [s.includes(sub)]: [sub] occurs in [s] as a contiguous substring. *)
Fixpoint includes (s sub : string) : bool :=
  String.prefix sub s ||
  match s with
  | EmptyString => false
  | String _ s' => includes s' sub
  end.

(** [s.endsWith(sub)], used to state the suffix convention. *)
Fixpoint endsWith (s sub : string) : bool :=
  String.eqb s sub ||
  match s with
  | EmptyString => false
  | String _ s' => endsWith s' sub
  end.

(** Truthiness of a possibly absent string: [undefined] and [""] are falsy. *)
Definition truthy (o : option string) : bool :=
  match o with
  | Some s => negb (String.eqb s "")
  | None => false
  end.

(** Truthiness of a possibly absent boolean. *)
Definition truthyb (o : option bool) : bool :=
  match o with
  | Some b => b
  | None => false
  end.

(** [a || b] on a possibly absent string [a] with a string fallback. *)
Definition orElse (a : option string) (b : string) : string :=
  match a with
  | Some s => if String.eqb s "" then b else s
  | None => b
  end.

(** [x === y] where [x] is a string and [y] may be [undefined]. *)
Definition eqs (x : string) (y : option string) : bool :=
  match y with
  | Some s => String.eqb x s
  | None => false
  end.

(** The characters of [Date.now()] printed in a template string: decimal
    digits. *)
Definition isDigit (c : Ascii.ascii) : bool :=
  (48 <=? Ascii.nat_of_ascii c)%nat && (Ascii.nat_of_ascii c <=? 57)%nat.

Fixpoint allDigits (s : string) : bool :=
  match s with
  | EmptyString => true
  | String c s' => isDigit c && allDigits s'
  end.

(** ** Data model *)

Definition Chan := nat.
Definition Stream := nat.

Inductive TransitionState := connecting | connected | disconnecting | reconnecting.

#[global] Instance TransitionState_eq_dec : EqDecision TransitionState.
Proof. solve_decision. Defined.

Module Participant.
Record t := mk {
  id : string;
  username : string;
  stream : Stream;
  isCreator : bool;
  isScreenSharing : option bool;
  streamType : option string;
  transitionState : option TransitionState
}.

Definition with_username (u : string) (p : t) : t :=
  mk (id p) u (stream p) (isCreator p) (isScreenSharing p) (streamType p)
     (transitionState p).
Definition with_stream (s : Stream) (p : t) : t :=
  mk (id p) (username p) s (isCreator p) (isScreenSharing p) (streamType p)
     (transitionState p).
Definition with_isScreenSharing (b : bool) (p : t) : t :=
  mk (id p) (username p) (stream p) (isCreator p) (Some b) (streamType p)
     (transitionState p).
Definition with_transitionState (s : TransitionState) (p : t) : t :=
  mk (id p) (username p) (stream p) (isCreator p) (isScreenSharing p)
     (streamType p) (Some s).
End Participant.

(** The control-channel payload, as the router reads it: every field but
    [type] may be absent. *)
Module DataMessage.
Record t := mk {
  type : string;
  peerId : option string;
  username : option string;
  peers : option (list string);
  isSharing : option bool;
  sharingPeerId : option string;
  streamType : option string;
  urgent : option bool;
  forceRefresh : option bool;
  timestamp : option nat
}.

(** A message with only its [type] and [timestamp] set. *)
Definition bare (ty : string) (now : nat) : t :=
  mk ty None None None None None None None None (Some now).
End DataMessage.

(** One entry of [connectionsRef.current]. *)
Record Conn := mkConn {
  mediaConnection : option Chan;
  dataConnection : option Chan
}.

Inductive Topology := mesh | star.

(** ** Captured values, timers, transport log and the world *)

(** What a callback sees through its closure: the props and the React
    state as they were in the render that created the callback; and
    what it reads from the browser when it runs: the clock, the state of
    a stream, the outcome of [getUserMedia]. *)
Module Render.
Record t := mk {
  roomId : string;
  isCreator : bool;
  localUsername : string;
  localStream : option Stream;
  screenStream : option Stream;
  isScreenSharing : bool;
  participants : list Participant.t;
  networkTopology : Topology;
  transitionsEnabled : bool;
  (** [Date.now()] *)
  now : nat;
  (** [s && s.active && s.getTracks().length > 0] *)
  streamValid : Stream -> bool;
  (** whether [onDataReceived] was supplied *)
  onDataReceived : bool;
  (** [s.active] and every track of [s] has [readyState === "live"] *)
  streamLive : Stream -> bool;
  (** what [getUserMedia({ video: true, audio: true })] resolves to,
      [None] when it is rejected *)
  userMedia : option Stream
}.
End Render.

(** Bodies of the [setTimeout] and [setInterval] callbacks of the hook,
    with the local variables each one closes over. *)
Inductive Action :=
  (* establishPeerConnection, 15000 ms *)
  | ConnectionTimeout (peerId : string) (call : Chan)
  (* handleDataConnection, on open, 500 ms *)
  | ShareScreenWithNewParticipant (peer : string) (dataConn : Chan)
  (* screen-share-started, 200 ms *)
  | EstablishLater (sharingPeerId : string)
  (* screen-share-started, 300 ms, stream of the participant invalid *)
  | RequestScreenStream (sharingPeerId : string)
  (* screen-share-started, 300 ms *)
  | RefreshScreenConnection (sharingPeerId : string)
  (* request-full-reconnect, 100 ms *)
  | FullReconnect (peer : string) (existingData : option Chan)
  (* camera-stream-restored, every 2000 ms *)
  | RetryStreamUpdate (restoredPeerId : option string) (retryCount : nat)
  (* request-stream-update, 50 or 100 ms *)
  | SendCamera (peerToCall : string) (existingConnection : option Conn)
  (* reconnect-after-screen-share, 200 ms *)
  | ReconnectCall (reconnectingPeerId : string)
  (* handlePeerDisconnection, 800 ms *)
  | RemoveParticipant (peerId : string)
  (* setParticipantTransition, 1000 ms *)
  | AutoConnected (peerId : string)
  (* stopScreenShare, 300 ms *)
  | EstablishAllCameraConnections (currentPeer : string).

#[global] Instance Conn_eq_dec : EqDecision Conn.
Proof. solve_decision. Defined.
#[global] Instance Action_eq_dec : EqDecision Action.
Proof. solve_decision. Defined.

(** Calls into the transport adapter and into the application callback. *)
Inductive Effect :=
  (* [peer.connect(to)] returned the data channel [c] *)
  | Connect (c : Chan) (to : string)
  (* [peer.call(to, s)] returned the media channel [c] *)
  | Call (c : Chan) (to : string) (s : Stream)
  (* [c.send(m)] *)
  | Send (c : Chan) (m : DataMessage.t)
  (* [c.close()] *)
  | Close (c : Chan)
  (* [onDataReceived(m)] *)
  | Forward (m : DataMessage.t).

Record World := mkWorld {
  (** [peerRef.current], by the id the peer registered under *)
  peerRef : option string;
  (** the [screenConnections] property put on the peer object *)
  screenConnections : option (gmap string Chan);
  connectionsRef : gmap string Conn;
  lastSeenRef : gmap string nat;
  (** latest React state *)
  participants : list Participant.t;
  error : option string;
  screenStream : option Stream;
  isScreenSharing : bool;
  networkTopology : Topology;
  (** transport: next channel identity, data channels with [open] true *)
  nextChan : Chan;
  openData : gset Chan;
  (** pending timers, with their delay in ms *)
  timers : list (N * Action);
  log : list Effect
}.

Definition set_screenConnections (x : option (gmap string Chan)) (w : World) : World :=
  mkWorld (peerRef w) x (connectionsRef w) (lastSeenRef w) (participants w)
    (error w) (screenStream w) (isScreenSharing w) (networkTopology w)
    (nextChan w) (openData w) (timers w) (log w).
Definition set_connectionsRef (x : gmap string Conn) (w : World) : World :=
  mkWorld (peerRef w) (screenConnections w) x (lastSeenRef w) (participants w)
    (error w) (screenStream w) (isScreenSharing w) (networkTopology w)
    (nextChan w) (openData w) (timers w) (log w).
Definition set_lastSeenRef (x : gmap string nat) (w : World) : World :=
  mkWorld (peerRef w) (screenConnections w) (connectionsRef w) x (participants w)
    (error w) (screenStream w) (isScreenSharing w) (networkTopology w)
    (nextChan w) (openData w) (timers w) (log w).
(** [setParticipants(f)] with a functional updater. *)
Definition setParticipants (f : list Participant.t -> list Participant.t)
    (w : World) : World :=
  mkWorld (peerRef w) (screenConnections w) (connectionsRef w) (lastSeenRef w)
    (f (participants w)) (error w) (screenStream w) (isScreenSharing w)
    (networkTopology w) (nextChan w) (openData w) (timers w) (log w).
Definition setError (x : string) (w : World) : World :=
  mkWorld (peerRef w) (screenConnections w) (connectionsRef w) (lastSeenRef w)
    (participants w) (Some x) (screenStream w) (isScreenSharing w)
    (networkTopology w) (nextChan w) (openData w) (timers w) (log w).
Definition setScreenStream (x : option Stream) (w : World) : World :=
  mkWorld (peerRef w) (screenConnections w) (connectionsRef w) (lastSeenRef w)
    (participants w) (error w) x (isScreenSharing w) (networkTopology w)
    (nextChan w) (openData w) (timers w) (log w).
Definition setIsScreenSharing (x : bool) (w : World) : World :=
  mkWorld (peerRef w) (screenConnections w) (connectionsRef w) (lastSeenRef w)
    (participants w) (error w) (screenStream w) x (networkTopology w)
    (nextChan w) (openData w) (timers w) (log w).
Definition setNetworkTopology (x : Topology) (w : World) : World :=
  mkWorld (peerRef w) (screenConnections w) (connectionsRef w) (lastSeenRef w)
    (participants w) (error w) (screenStream w) (isScreenSharing w) x
    (nextChan w) (openData w) (timers w) (log w).
Definition set_nextChan (x : Chan) (w : World) : World :=
  mkWorld (peerRef w) (screenConnections w) (connectionsRef w) (lastSeenRef w)
    (participants w) (error w) (screenStream w) (isScreenSharing w)
    (networkTopology w) x (openData w) (timers w) (log w).
Definition set_openData (x : gset Chan) (w : World) : World :=
  mkWorld (peerRef w) (screenConnections w) (connectionsRef w) (lastSeenRef w)
    (participants w) (error w) (screenStream w) (isScreenSharing w)
    (networkTopology w) (nextChan w) x (timers w) (log w).
Definition set_timers (x : list (N * Action)) (w : World) : World :=
  mkWorld (peerRef w) (screenConnections w) (connectionsRef w) (lastSeenRef w)
    (participants w) (error w) (screenStream w) (isScreenSharing w)
    (networkTopology w) (nextChan w) (openData w) x (log w).
Definition emit (e : Effect) (w : World) : World :=
  mkWorld (peerRef w) (screenConnections w) (connectionsRef w) (lastSeenRef w)
    (participants w) (error w) (screenStream w) (isScreenSharing w)
    (networkTopology w) (nextChan w) (openData w) (timers w) ((log w ++ [e])%list).

(** *** Transport primitives *)

Definition send (c : Chan) (m : DataMessage.t) (w : World) : World :=
  emit (Send c m) w.

(** [c.close()], the call into the transport: the channel stops being
    open. For a call that is open the transport raises the [close] event
    before [close()] returns, and the handler the hook attached to the
    call ([onCallClose], or [handlePeerDisconnection] for an incoming
    call and for the call to the creator) runs then; that handler is a
    step of its own here. *)
Definition close (c : Chan) (w : World) : World :=
  emit (Close c) (set_openData (openData w ∖ {[c]}) w).

(** [x?.close()] *)
Definition closeOpt (c : option Chan) (w : World) : World :=
  match c with
  | Some x => close x w
  | None => w
  end.

(** [peer.call(to, s)]: a new media channel. *)
Definition call (to : string) (s : Stream) (w : World) : Chan * World :=
  (nextChan w, emit (Call (nextChan w) to s) (set_nextChan (S (nextChan w)) w)).

(** [peer.connect(to)]: a new data channel, not open yet. *)
Definition connect (to : string) (w : World) : Chan * World :=
  (nextChan w, emit (Connect (nextChan w) to) (set_nextChan (S (nextChan w)) w)).

Definition setTimeout (ms : N) (a : Action) (w : World) : World :=
  set_timers ((timers w ++ [(ms, a)])%list) w.

(** [setInterval]: the callback re-arms itself when it fires, see [fire]. *)
Definition setInterval (ms : N) (a : Action) (w : World) : World :=
  setTimeout ms a w.

Definition clearTimeout (ms : N) (a : Action) (w : World) : World :=
  set_timers (filter (fun t => t ≠ (ms, a)) (timers w)) w.

(** [c?.open && c.send(m)]: a message goes out on an open data channel
    only. *)
Definition sendIfOpen (c : option Chan) (m : DataMessage.t) (w : World) : World :=
  match c with
  | Some d => if bool_decide (d ∈ openData w) then send d m w else w
  | None => w
  end.

(** [c?.open] on a possibly absent data channel. *)
Definition isOpen (w : World) (c : option Chan) : bool :=
  match c with
  | Some d => bool_decide (d ∈ openData w)
  | None => false
  end.

(** *** Registry access *)

(** [connectionsRef.current[peerId]?.mediaConnection] *)
Definition mediaOf (w : World) (peerId : string) : option Chan :=
  connectionsRef w !! peerId ≫= mediaConnection.

(** [connectionsRef.current[peerId]?.dataConnection] *)
Definition dataOf (w : World) (peerId : string) : option Chan :=
  connectionsRef w !! peerId ≫= dataConnection.

(** [connectionsRef.current[peerId] = { ...connectionsRef.current[peerId],
    mediaConnection: m }] *)
Definition saveMedia (peerId : string) (m : option Chan) (w : World) : World :=
  set_connectionsRef
    (<[peerId := mkConn m (dataOf w peerId)]> (connectionsRef w)) w.

(** [connectionsRef.current[peerId] = { ...connectionsRef.current[peerId],
    dataConnection: d }] *)
Definition saveData (peerId : string) (d : Chan) (w : World) : World :=
  set_connectionsRef
    (<[peerId := mkConn (mediaOf w peerId) (Some d)]> (connectionsRef w)) w.

(** [delete connectionsRef.current[peerId]] *)
Definition deleteConn (peerId : string) (w : World) : World :=
  set_connectionsRef (delete peerId (connectionsRef w)) w.

(** ** Sending to every connected peer *)

(** [sendDataToAll]: one [send] per registry entry whose data channel is
    open; nothing at all before the peer is registered. *)
Definition sendDataToAll (data : DataMessage.t) (w : World) : World :=
  match peerRef w with
  | None => w
  | Some _ =>
      foldl (fun w e => sendIfOpen (dataConnection e.2) data w)
            w (map_to_list (connectionsRef w))
  end.

(** ** Participant transitions and disconnection *)

Definition setParticipantTransition (peerId : string) (state : TransitionState)
    (w : World) : World :=
  let w1 :=
    setParticipants
      (map (fun p => if String.eqb (Participant.id p) peerId
                     then Participant.with_transitionState state p else p)) w in
  match state with
  | connecting | reconnecting => setTimeout 1000%N (AutoConnected peerId) w1
  | _ => w1
  end.

(** [prev.filter((p) => p.id !== peerId)] *)
Definition withoutParticipant (peerId : string)
    (prev : list Participant.t) : list Participant.t :=
  filter (fun p => Participant.id p ≠ peerId) prev.

Definition handlePeerDisconnection (r : Render.t) (peerId : string)
    (w : World) : World :=
  let w1 :=
    if Render.transitionsEnabled r
    then setTimeout 800%N (RemoveParticipant peerId)
           (setParticipantTransition peerId disconnecting w)
    else setParticipants (withoutParticipant peerId) w in
  match connectionsRef w1 !! peerId with
  | Some _ => deleteConn peerId w1
  | None => w1
  end.

(** ** Establishing a connection with a peer *)

(** The [stream] handler of a call placed by [establishPeerConnection]. *)
Definition handleRemoteStream (r : Render.t) (peerId : string) (call0 : Chan)
    (remoteStream : Stream) (w : World) : World :=
  setParticipants
    (fun prev =>
       if existsb (fun p => String.eqb (Participant.id p) peerId) prev
       then prev
       else (prev ++
             [Participant.mk peerId (Render.localUsername r) remoteStream
                (includes peerId "-creator") None None None])%list)
    (clearTimeout 15000%N (ConnectionTimeout peerId call0) w).

(** The [close] handler of a call placed by [establishPeerConnection]. *)
Definition onCallClose (r : Render.t) (peerId : string) (call0 : Chan)
    (w : World) : World :=
  handlePeerDisconnection r peerId
    (clearTimeout 15000%N (ConnectionTimeout peerId call0) w).

(** [establishPeerConnection]. The data channel it may open gets the
    handlers of [handleDataConnection] ([onDataOpen], [onData]) and enters
    the registry when it opens; the call gets [handleRemoteStream] and
    [onCallClose]. *)
Definition establishPeerConnection (r : Render.t) (peerId : string)
    (w : World) : World :=
  match peerRef w, Render.localStream r with
  | Some self, Some localStream =>
      if String.eqb peerId self then w
      else if bool_decide (is_Some (mediaOf w peerId)) then w
      else
        (* data connection, unless the registry has one *)
        let w1 :=
          if bool_decide (is_Some (dataOf w peerId)) then w
          else (connect peerId w).2 in
        (* media connection *)
        if bool_decide (is_Some (mediaOf w1 peerId)) then w1
        else
          let (c, w2) := call peerId localStream w1 in
          setTimeout 15000%N (ConnectionTimeout peerId c)
            (saveMedia peerId (Some c) w2)
  | _, _ => w
  end.

(** Body of the 15 s connection timeout of [establishPeerConnection]. *)
Definition connectionTimeout (r : Render.t) (peerId : string) (call0 : Chan)
    (w : World) : World :=
  if bool_decide (mediaOf w peerId = Some call0) then
    let w1 := close call0 w in
    match peerRef w1, Render.localStream r with
    | Some _, Some localStream =>
        let (retryCall, w2) := call peerId localStream w1 in
        saveMedia peerId (Some retryCall) w2
    | _, _ => w1
    end
  else w.

(** [createCallWithCamera] *)
Definition createCallWithCamera (r : Render.t) (peerId : string)
    (stream : Stream) (existingConnection : option Conn) (w : World) : World :=
  match peerRef w with
  | None => w
  | Some _ =>
      let (c, w1) := call peerId stream w in
      let w2 := saveMedia peerId (Some c) w1 in
      sendIfOpen (existingConnection ≫= dataConnection)
             (DataMessage.bare "camera-stream-sent" (Render.now r)) w2
  end.

(** Body of the timer of [request-stream-update]. The captured camera
    stream is sent when it is active and all its tracks are live.
    Otherwise [getUserMedia] is asked for a new stream: if it gives one,
    that one is handed to [setLocalStream] and sent; if it fails, the
    captured stream is sent all the same. The first component is the
    argument of [setLocalStream], if it was called. *)
Definition sendCamera (r : Render.t) (peerToCall : string)
    (existingConnection : option Conn) (w : World) : option Stream * World :=
  match Render.localStream r with
  | Some localStream =>
      if Render.streamLive r localStream then
        (None, createCallWithCamera r peerToCall localStream existingConnection w)
      else
        match Render.userMedia r with
        | Some freshStream =>
            (Some freshStream,
             createCallWithCamera r peerToCall freshStream existingConnection w)
        | None =>
            (None,
             createCallWithCamera r peerToCall localStream existingConnection w)
        end
  | None => (None, w)
  end.

(** ** Topology controller *)

(** Teardown of one registry key as [handlePeerList] does it in star mode. *)
Definition disconnectNonCreator (peerId : string) (w : World) : World :=
  let w1 := closeOpt (mediaOf w peerId) w in
  let w2 := closeOpt (dataOf w1 peerId) w1 in
  setParticipants (withoutParticipant peerId) (deleteConn peerId w2).

(** [handlePeerList]. The list of missing peers it computes first and
    the 2 s timer at its end only write to the console and are left out. *)
Definition handlePeerList (r : Render.t) (peerIds : list string)
    (w : World) : World :=
  match peerRef w, Render.localStream r with
  | Some self, Some _ =>
      let starJoiner :=
        match Render.networkTopology r with
        | star => negb (Render.isCreator r)
        | mesh => false
        end in
      let w1 :=
        foldl (fun w peerId =>
                 if String.eqb peerId self then w
                 else if starJoiner && negb (includes peerId "-creator") then w
                 else if includes peerId "-creator"
                         && isOpen w (dataOf w peerId)
                         && bool_decide (is_Some (mediaOf w peerId)) then w
                 else establishPeerConnection r peerId w)
              w peerIds in
      if starJoiner then
        foldl (fun w peerId => disconnectNonCreator peerId w) w1
              (filter (fun id => includes id "-creator" = false)
                      (map_to_list (connectionsRef w1)).*1)
      else w1
  | _, _ => w
  end.

(** One step of the [forEach] of [setTopology] in star mode, on an entry
    of the [Object.entries] snapshot. *)
Definition setTopology_step (w : World) (e : string * Conn) : World :=
  if includes e.1 "-creator" then w
  else
    let w1 := closeOpt (mediaConnection e.2) w in
    let w2 := closeOpt (dataConnection e.2) w1 in
    setParticipants (filter (fun p => Participant.id p = e.1))
      (deleteConn e.1 w2).

Definition setTopology (r : Render.t) (topology : Topology) (w : World) : World :=
  let w0 := setNetworkTopology topology w in
  match topology, Render.isCreator r with
  | star, false =>
      foldl setTopology_step w0 (map_to_list (connectionsRef w0))
  | mesh, false =>
      match peerRef w0 with
      | Some _ =>
          let dataConn := dataOf w0 (Render.roomId r +:+ "-creator") in
          sendIfOpen dataConn
                 (DataMessage.bare "request-peer-list" (Render.now r)) w0
      | None => w0
      end
  | _, true => w0
  end.

(** ** Signaling message router: the [data] handler of a control channel *)

(** [obj[k]] with [k] possibly [undefined]: the key is the string
    ["undefined"]. *)
Definition keyOf (k : option string) : string := default "undefined" k.

(** The stream a receiver puts in place to force a loading state
    ([new MediaStream()]). *)
Definition emptyStream : Stream := 0.

(** [[peerRef.current?.id, ...participants.map((p) => p.id)].filter(Boolean)] *)
Definition currentPeers (r : Render.t) (w : World) : list string :=
  filter (fun s => s ≠ "")
    (option_list (peerRef w) ++ map Participant.id (Render.participants r))%list.

Section Router.
Variable r : Render.t.
(** the channel the message arrived on, and [dataConn.peer] *)
Variable dataConn : Chan.
Variable peer : string.
Variable data : DataMessage.t.

Let ty := DataMessage.type data.

(** Update for a peer that shares ([sharing = true]) or stopped. *)
Definition markSharing (sharing : bool) (p : Participant.t) : Participant.t :=
  if eqs (Participant.id p) (DataMessage.peerId data) then
    Participant.mk (Participant.id p)
      (orElse (DataMessage.username data) (Participant.username p))
      (Participant.stream p) (Participant.isCreator p)
      (Some sharing) (Some (if sharing then "screen" else "camera"))
      (Participant.transitionState p)
  else p.

Definition on_screen_sharing_status (w : World) : World :=
  if String.eqb ty "screen-sharing-status" then
    setParticipants
      (fun prev =>
         if negb (truthyb (DataMessage.isSharing data))
         then map (markSharing false) prev
         else map (markSharing true) prev) w
  else w.

Definition on_screen_sharing_stream (w : World) : World :=
  if String.eqb ty "screen-sharing-stream" then
    setParticipants (map (markSharing true)) w
  else w.

Definition on_stream_metadata (w : World) : World :=
  if String.eqb ty "stream-metadata"
     && truthy (DataMessage.streamType data)
     && truthy (DataMessage.peerId data) then
    setParticipants
      (map (fun p =>
              if eqs (Participant.id p) (DataMessage.peerId data) then
                Participant.mk (Participant.id p) (Participant.username p)
                  (Participant.stream p) (Participant.isCreator p)
                  (Some (eqs "screen" (DataMessage.streamType data)))
                  (DataMessage.streamType data)
                  (Participant.transitionState p)
              else p)) w
  else w.

Definition on_peer_list (w : World) : World :=
  match DataMessage.peers data with
  | Some peers =>
      if String.eqb ty "peer-list" then handlePeerList r peers w else w
  | None => w
  end.

Definition on_new_peer (w : World) : World :=
  if String.eqb ty "new-peer"
     && truthy (DataMessage.peerId data)
     && negb (bool_decide (DataMessage.peerId data = peerRef w)) then
    match Render.networkTopology r, Render.isCreator r with
    | star, false => w
    | _, _ => establishPeerConnection r (keyOf (DataMessage.peerId data)) w
    end
  else w.

Definition on_request_peer_list (w : World) : World :=
  if String.eqb ty "request-peer-list" && Render.isCreator r then
    send dataConn
      (DataMessage.mk "peer-list" None None (Some (currentPeers r w)) None
         None None None None (Some (Render.now r))) w
  else w.

Definition on_peer_disconnect (w : World) : World :=
  if String.eqb ty "peer-disconnect" && truthy (DataMessage.peerId data) then
    handlePeerDisconnection r (keyOf (DataMessage.peerId data)) w
  else w.

Definition requestScreenStream (isUrgent : option bool) : DataMessage.t :=
  DataMessage.mk "request-screen-stream" None None None None None None
    isUrgent None (Some (Render.now r)).

Definition on_screen_share_retry_needed (w : World) : World :=
  if String.eqb ty "screen-share-retry-needed"
     && bool_decide (is_Some (peerRef w))
     && truthy (DataMessage.sharingPeerId data) then
    let sharingPeerId := keyOf (DataMessage.sharingPeerId data) in
    let connection := connectionsRef w !! sharingPeerId in
    let w1 :=
      match connection ≫= mediaConnection with
      | Some m => saveMedia sharingPeerId None (close m w)
      | None => w
      end in
    if isOpen w1 (connection ≫= dataConnection)
    then sendIfOpen (connection ≫= dataConnection)
           (requestScreenStream (Some true)) w1
    else establishPeerConnection r sharingPeerId w1
  else w.

(** The [screen-share-started] block; the boolean tells whether the
    block ended the whole handler with its [return]. *)
Definition on_screen_share_started (w : World) : World * bool :=
  if String.eqb ty "screen-share-started"
     && bool_decide (is_Some (peerRef w))
     && truthy (DataMessage.sharingPeerId data) then
    let sharingPeerId := keyOf (DataMessage.sharingPeerId data) in
    let isIt := fun p => String.eqb (Participant.id p) sharingPeerId in
    let w1 :=
      if existsb isIt (participants w) then
        setParticipants
          (map (fun p =>
                  if isIt p then
                    Participant.with_username
                      (orElse (DataMessage.username data) (Participant.username p))
                      (Participant.with_isScreenSharing true p)
                  else p)) w
      else setTimeout 200%N (EstablishLater sharingPeerId) w in
    match find isIt (Render.participants r) with
    | Some existingParticipant =>
        if negb (Render.streamValid r (Participant.stream existingParticipant))
        then (setTimeout 300%N (RequestScreenStream sharingPeerId) w1, true)
        else (setTimeout 300%N (RefreshScreenConnection sharingPeerId) w1, false)
    | None => (setTimeout 300%N (RefreshScreenConnection sharingPeerId) w1, false)
    end
  else (w, false).

Definition on_request_screen_stream (w : World) : World :=
  match Render.screenStream r, peerRef w with
  | Some screenStream, Some _ =>
      if String.eqb ty "request-screen-stream" && Render.isScreenSharing r then
        let existingConnection := connectionsRef w !! peer in
        let w1 := closeOpt (existingConnection ≫= mediaConnection) w in
        let (c, w2) := call peer screenStream w1 in
        let w3 := saveMedia peer (Some c) w2 in
        sendIfOpen (existingConnection ≫= dataConnection)
               (DataMessage.bare "screen-share-confirmed" (Render.now r)) w3
      else w
  | _, _ => w
  end.

Definition on_request_full_reconnect (w : World) : World :=
  match Render.localStream r, peerRef w with
  | Some _, Some _ =>
      if String.eqb ty "request-full-reconnect" then
        let existingConnection := connectionsRef w !! peer in
        setTimeout 100%N
          (FullReconnect peer (existingConnection ≫= dataConnection))
          (closeOpt (existingConnection ≫= mediaConnection) w)
      else w
  | _, _ => w
  end.

Definition requestStreamUpdate : DataMessage.t :=
  DataMessage.mk "request-stream-update" None None None None None None
    (Some true) (Some true) (Some (Render.now r)).

Definition on_camera_stream_restored (w : World) : World :=
  if String.eqb ty "camera-stream-restored" && bool_decide (is_Some (peerRef w))
  then
    let restoredPeerId := DataMessage.peerId data in
    let isIt := fun p => eqs (Participant.id p) restoredPeerId in
    let w1 :=
      setParticipants
        (map (fun p => if isIt p then Participant.with_isScreenSharing false p
                       else p)) w in
    let connection := connectionsRef w1 !! keyOf restoredPeerId in
    if isOpen w1 (connection ≫= dataConnection) then
      let w2 :=
        match connection ≫= mediaConnection with
        | Some m =>
            set_connectionsRef
              (<[keyOf restoredPeerId :=
                   mkConn None (connection ≫= dataConnection)]>
                 (connectionsRef w1))
              (close m w1)
        | None => w1
        end in
      let w3 :=
        setParticipants
          (map (fun p =>
                  if isIt p then
                    Participant.with_isScreenSharing false
                      (Participant.with_stream emptyStream p)
                  else p)) w2 in
      setInterval 2000%N (RetryStreamUpdate restoredPeerId 0)
        (sendIfOpen (connection ≫= dataConnection) requestStreamUpdate w3)
    else establishPeerConnection r (keyOf restoredPeerId) w1
  else w.

Definition on_request_stream_update (w : World) : World :=
  match Render.localStream r, peerRef w with
  | Some _, Some _ =>
      if String.eqb ty "request-stream-update" then
        let existingConnection := connectionsRef w !! peer in
        setTimeout
          (if bool_decide (DataMessage.urgent data = Some true)
           then 50%N else 100%N)
          (SendCamera peer existingConnection)
          (closeOpt (existingConnection ≫= mediaConnection) w)
      else w
  | _, _ => w
  end.

Definition on_reconnect_after_screen_share (w : World) : World :=
  match Render.localStream r, peerRef w with
  | Some _, Some self =>
      if String.eqb ty "reconnect-after-screen-share"
         && truthy (DataMessage.peerId data)
         && negb (eqs self (DataMessage.peerId data))
      then setTimeout 200%N (ReconnectCall (keyOf (DataMessage.peerId data))) w
      else w
  | _, _ => w
  end.

(** [prev.map((p) => (p.id === peerId ? { ...p, username } : p))] *)
Definition renameParticipant (peerId username : string)
    (prev : list Participant.t) : list Participant.t :=
  map (fun p => if String.eqb (Participant.id p) peerId
                then Participant.with_username username p else p) prev.

Definition on_username (w : World) : World :=
  match DataMessage.username data, DataMessage.peerId data with
  | Some username, Some peerId =>
      if String.eqb ty "username"
         && negb (String.eqb username "")
         && negb (String.eqb peerId "") then
        let w1 := setParticipants (renameParticipant peerId username) w in
        if Render.isCreator r
           && bool_decide (is_Some (peerRef w1))
           && negb (bool_decide (peerRef w1 = Some peerId)) then
          foldl (fun w e =>
                   if negb (String.eqb e.1 peerId)
                   then sendIfOpen (dataConnection e.2)
                          (DataMessage.mk "username" (Some peerId)
                             (Some username) None None None None None None
                             (Some (Render.now r))) w
                   else w)
                w1 (map_to_list (connectionsRef w1))
        else w1
      else w
  | _, _ => w
  end.

(** Types the router keeps to itself. *)
Definition internalTypes : list string :=
  ["peer-list"; "new-peer"; "request-peer-list"; "peer-disconnect";
   "screen-sharing-status"; "request-stream-update"; "screen-share-started";
   "request-screen-stream"; "camera-stream-restored"; "recording-status"].

Definition on_forward (w : World) : World :=
  if Render.onDataReceived r && negb (bool_decide (ty ∈ internalTypes))
  then emit (Forward data) w
  else w.

Definition on_request_username (w : World) : World :=
  match peerRef w with
  | Some self =>
      if String.eqb ty "request-username" then
        send dataConn
          (DataMessage.mk "username" (Some self) (Some (Render.localUsername r))
             None None None None None None (Some (Render.now r))) w
      else w
  | None => w
  end.

(** The whole handler: every block in source order. A message runs
    through all of them; [recording-status] only logs. *)
Definition onData (w : World) : World :=
  let w1 := on_screen_sharing_status w in
  let w2 := on_screen_sharing_stream w1 in
  let w3 := on_stream_metadata w2 in
  let w4 := on_peer_list w3 in
  let w5 := on_new_peer w4 in
  let w6 := on_request_peer_list w5 in
  let w7 := on_peer_disconnect w6 in
  let w8 := on_screen_share_retry_needed w7 in
  let (w9, returned) := on_screen_share_started w8 in
  if returned then w9
  else
    let w10 := on_request_screen_stream w9 in
    let w11 := on_request_full_reconnect w10 in
    let w12 := on_camera_stream_restored w11 in
    let w13 := on_request_stream_update w12 in
    let w14 := on_reconnect_after_screen_share w13 in
    let w15 := on_username w14 in
    let w16 := on_forward w15 in
    on_request_username w16.
End Router.

(** ** Channel events *)

(** The [open] handler [handleDataConnection] attaches to a data channel.
    The transport has marked the channel open when it fires. *)
Definition onDataOpen (r : Render.t) (dataConn : Chan) (peer : string)
    (w : World) : World :=
  let w0 := set_openData (openData w ∪ {[dataConn]}) w in
  let w1 := saveData peer dataConn w0 in
  let w2 :=
    send dataConn
      (DataMessage.mk "username" (peerRef w1) (Some (Render.localUsername r))
         None None None None None None (Some (Render.now r))) w1 in
  let w3 :=
    send dataConn
      (DataMessage.mk "request-username" (peerRef w2) None None None None None
         None None (Some (Render.now r))) w2 in
  let w4 :=
    if Render.isCreator r then
      foldl (fun w e =>
               if negb (String.eqb e.1 peer)
               then sendIfOpen (dataConnection e.2)
                      (DataMessage.mk "new-peer" (Some peer) None None None None
                         None None None (Some (Render.now r))) w
               else w)
            (send dataConn
               (DataMessage.mk "peer-list" None None (Some (currentPeers r w3))
                  None None None None None (Some (Render.now r))) w3)
            (map_to_list (connectionsRef w3))
    else w3 in
  match Render.isScreenSharing r, peerRef w4 with
  | true, Some self =>
      let w5 :=
        send dataConn
          (DataMessage.mk "screen-sharing-status" (Some self)
             (Some (Render.localUsername r)) None (Some true) None
             (Some "screen") None None None) w4 in
      match Render.screenStream r with
      | Some _ => setTimeout 500%N (ShareScreenWithNewParticipant peer dataConn) w5
      | None => w5
      end
  | _, _ => w4
  end.

(** Body of the 500 ms timer of [onDataOpen]: the sharer calls the new
    participant with the screen stream. *)
Definition shareScreenWithNewParticipant (r : Render.t) (peer : string)
    (dataConn : Chan) (w : World) : World :=
  match Render.screenStream r, peerRef w with
  | Some screenStream, Some self =>
      let (c, w1) := call peer screenStream w in
      let w2 := saveMedia peer (Some c) w1 in
      let w3 :=
        send dataConn
          (DataMessage.mk "stream-metadata" (Some self)
             (Some (Render.localUsername r)) None None None (Some "screen")
             None None (Some (Render.now r))) w2 in
      send dataConn
        (DataMessage.mk "screen-share-started" None
           (Some (Render.localUsername r)) None None (Some self) None None None
           (Some (Render.now r))) w3
  | _, _ => w
  end.

(** [peer.on("call")]: an incoming media channel [c] from [from]; it is
    answered with the local stream and gets [onCallStream] and, on close,
    [handlePeerDisconnection]. *)
Definition onCall (r : Render.t) (c : Chan) (from : string) (w : World) : World :=
  let initialState :=
    if existsb (fun p => String.eqb (Participant.id p) from)
         (Render.participants r)
    then reconnecting else connecting in
  saveMedia from (Some c) (setParticipantTransition from initialState w).

(** The [stream] handler of an incoming call; [metadataUsername] is
    [call.metadata.username]. *)
Definition onCallStream (r : Render.t) (from : string)
    (metadataUsername : option string) (remoteStream : Stream)
    (w : World) : World :=
  let peerUsername := orElse metadataUsername "Guest" in
  let isCreatorPeer := includes from "-creator" in
  let isScreenSharingPeer :=
    existsb (fun p => String.eqb (Participant.id p) from
                      && truthyb (Participant.isScreenSharing p))
      (Render.participants r) in
  let streamType := if isScreenSharingPeer then "screen" else "camera" in
  let w1 := set_lastSeenRef (<[from := Render.now r]> (lastSeenRef w)) w in
  if existsb (fun p => String.eqb (Participant.id p) from) (participants w1) then
    setParticipants
      (map (fun p =>
              if String.eqb (Participant.id p) from then
                Participant.mk (Participant.id p)
                  (orElse (Some (Participant.username p)) peerUsername)
                  remoteStream (Participant.isCreator p)
                  (Some isScreenSharingPeer) (Some streamType)
                  (Participant.transitionState p)
              else p)) w1
  else
    let w2 :=
      match Render.networkTopology r with
      | mesh =>
          if negb (Render.isCreator r) && negb isCreatorPeer
             && bool_decide (is_Some (peerRef w1))
          then establishPeerConnection r from w1
          else w1
      | star => w1
      end in
    setParticipants
      (fun prev =>
         (prev ++ [Participant.mk from peerUsername remoteStream isCreatorPeer
                     (Some isScreenSharingPeer) (Some streamType)
                     (Some connecting)])%list) w2.

(** The [stream] handler of the call placed on [reconnect-after-screen-share]. *)
Definition onReconnectStream (r : Render.t) (reconnectingPeerId : string)
    (remoteStream : Stream) (w : World) : World :=
  setParticipants
    (fun prev =>
       if existsb (fun p => String.eqb (Participant.id p) reconnectingPeerId) prev
       then
         (* [updated[existingIndex] = ...]: the first match only *)
         (fix upd (l : list Participant.t) : list Participant.t :=
            match l with
            | [] => []
            | p :: l' =>
                if String.eqb (Participant.id p) reconnectingPeerId then
                  Participant.mk (Participant.id p) (Render.localUsername r)
                    remoteStream (Participant.isCreator p) (Some false)
                    (Some "camera") (Participant.transitionState p) :: l'
                else p :: upd l'
            end) prev
       else
         (prev ++ [Participant.mk reconnectingPeerId (Render.localUsername r)
                     remoteStream (includes reconnectingPeerId "-creator")
                     (Some false) (Some "camera") None])%list) w.

(** ** Screen-share overlay *)

(** One turn of the sharing loop of [startScreenShare]: a call carrying
    the screen stream, kept in the local [screenConnections] object, and
    a notice on the peer's control channel when that one is open. *)
Definition shareWith (r : Render.t) (self : string) (stream : Stream)
    (acc : gmap string Chan * World) (participant : Participant.t)
    : gmap string Chan * World :=
  let peerId := Participant.id participant in
  if String.eqb peerId self then acc
  else
    let (screenCall, w1) := call peerId stream acc.2 in
    let existingConn := connectionsRef w1 !! peerId in
    (<[peerId := screenCall]> acc.1,
     sendIfOpen (existingConn ≫= dataConnection)
            (DataMessage.mk "screen-sharing-stream" (Some self) None None None
               None (Some "screen") None None (Some (Render.now r))) w1).

(** [startScreenShare]; [capture] is what [getDisplayMedia] resolved to,
    [None] when it was rejected. Content hints on the tracks and the
    [ended] listener that calls [stopScreenShare] are outside the world. *)
Definition startScreenShare (r : Render.t) (capture : option Stream)
    (w : World) : World :=
  match peerRef w with
  | None => w
  | Some self =>
      let existingParticipants := Render.participants r in
      match capture with
      | None => setError "Failed to start screen sharing. Please try again." w
      | Some stream =>
          let w1 :=
            sendDataToAll
              (DataMessage.mk "screen-sharing-status" (Some self)
                 (Some (Render.localUsername r)) None (Some true) None
                 (Some "screen") None None (Some (Render.now r))) w in
          let w2 :=
            sendDataToAll
              (DataMessage.mk "screen-share-started" None
                 (Some (Render.localUsername r)) None None (Some self)
                 (Some "screen") None None (Some (Render.now r))) w1 in
          let w3 := setIsScreenSharing true (setScreenStream (Some stream) w2) in
          let (screenConns, w4) :=
            foldl (shareWith r self stream) (∅, w3) existingParticipants in
          let w5 := set_screenConnections (Some screenConns) w4 in
          if Render.transitionsEnabled r then
            foldl (fun w p => setParticipantTransition (Participant.id p)
                                reconnecting w)
                  w5 existingParticipants
          else w5
      end
  end.

Definition reconnectAfterScreenShare (r : Render.t) (currentPeer : string)
    : DataMessage.t :=
  DataMessage.mk "reconnect-after-screen-share" (Some currentPeer) None None
    None None None None None (Some (Render.now r)).

Definition cameraStreamRestored (r : Render.t) (currentPeer : string)
    : DataMessage.t :=
  DataMessage.mk "camera-stream-restored" (Some currentPeer) None None None
    None None None None (Some (Render.now r)).

(** The ids the repair loop visits: the participants of the captured
    list, then the registry keys that are neither among them nor the own
    id. *)
Definition participantIds (r : Render.t) (currentPeer : string) (w : World)
    : list string :=
  let fromParticipants := map Participant.id (Render.participants r) in
  (fromParticipants ++
   filter (fun peerId => (peerId ∉ fromParticipants) ∧ (peerId ≠ currentPeer))
          (map_to_list (connectionsRef w)).*1)%list.

(** One turn of the repair loop. *)
Definition repairPeer (r : Render.t) (currentPeer : string) (w : World)
    (peerId : string) : World :=
  if String.eqb peerId currentPeer then w
  else
    match mediaOf w peerId with
    | None => establishPeerConnection r peerId w
    | Some _ =>
        sendIfOpen (dataOf w peerId) (reconnectAfterScreenShare r currentPeer) w
    end.

(** The repair loop [establishAllCameraConnections] that [stopScreenShare]
    schedules. *)
Definition establishAllCameraConnections (r : Render.t) (currentPeer : string)
    (w : World) : World :=
  match Render.localStream r with
  | None => w
  | Some _ =>
      sendDataToAll (cameraStreamRestored r currentPeer)
        (foldl (repairPeer r currentPeer) w (participantIds r currentPeer w))
  end.

(** [stopScreenShare]; stopping the tracks of the screen stream is
    outside the world. *)
Definition stopScreenShare (r : Render.t) (w : World) : World :=
  match peerRef w, Render.screenStream r with
  | Some currentPeer, Some _ =>
      let w1 :=
        sendDataToAll
          (DataMessage.mk "screen-sharing-status" (Some currentPeer) None None
             (Some false) None None None None (Some (Render.now r))) w in
      let w2 := setIsScreenSharing false (setScreenStream None w1) in
      let w3 :=
        match screenConnections w2 with
        | Some screenConns =>
            set_screenConnections (Some ∅)
              (foldl (fun w e => close e.2 w) w2 (map_to_list screenConns))
        | None => w2
        end in
      let w4 := setTimeout 300%N (EstablishAllCameraConnections currentPeer) w3 in
      if Render.transitionsEnabled r then
        foldl (fun w p =>
                 if String.eqb (Participant.id p) currentPeer then w
                 else setParticipantTransition (Participant.id p) reconnecting w)
              w4 (Render.participants r)
      else w4
  | _, _ => w
  end.

(** ** Timers *)

(** What a timer callback does when it fires; [r] is the render that
    created the callback. *)
Definition fire (r : Render.t) (a : Action) (w : World) : World :=
  match a with
  | ConnectionTimeout peerId c => connectionTimeout r peerId c w
  | ShareScreenWithNewParticipant peer dataConn =>
      shareScreenWithNewParticipant r peer dataConn w
  | EstablishLater sharingPeerId => establishPeerConnection r sharingPeerId w
  | RequestScreenStream sharingPeerId =>
      sendIfOpen (dataOf w sharingPeerId)
             (requestScreenStream r (Some true)) w
  | RefreshScreenConnection sharingPeerId =>
      let connection := connectionsRef w !! sharingPeerId in
      let w1 :=
        match connection ≫= mediaConnection with
        | Some m => saveMedia sharingPeerId None (close m w)
        | None => w
        end in
      if isOpen w1 (connection ≫= dataConnection)
      then sendIfOpen (connection ≫= dataConnection)
             (requestScreenStream r None) w1
      else establishPeerConnection r sharingPeerId w1
  | FullReconnect peer existingData =>
      match Render.localStream r, peerRef w with
      | Some localStream, Some _ =>
          let (c, w1) := call peer localStream w in
          set_connectionsRef
            (<[peer := mkConn (Some c) existingData]> (connectionsRef w1)) w1
      | _, _ => w
      end
  | RetryStreamUpdate restoredPeerId retryCount =>
      let hasValidStream :=
        existsb (fun p => eqs (Participant.id p) restoredPeerId
                          && Render.streamValid r (Participant.stream p))
          (Render.participants r) in
      if negb hasValidStream && bool_decide (retryCount < 3)%nat then
        let currentConnection := dataOf w (keyOf restoredPeerId) in
        setInterval 2000%N (RetryStreamUpdate restoredPeerId (S retryCount))
          (sendIfOpen currentConnection (requestStreamUpdate r) w)
      else w
  | SendCamera peerToCall existingConnection =>
      (sendCamera r peerToCall existingConnection w).2
  | ReconnectCall reconnectingPeerId =>
      match Render.localStream r, peerRef w with
      | Some localStream, Some _ =>
          let w1 :=
            match mediaOf w reconnectingPeerId with
            | Some m => saveMedia reconnectingPeerId None (close m w)
            | None => w
            end in
          let (c, w2) := call reconnectingPeerId localStream w1 in
          saveMedia reconnectingPeerId (Some c) w2
      | _, _ => w
      end
  | RemoveParticipant peerId => setParticipants (withoutParticipant peerId) w
  | AutoConnected peerId =>
      setParticipants
        (map (fun p =>
                if String.eqb (Participant.id p) peerId
                   && bool_decide (Participant.transitionState p = Some connecting
                                   ∨ Participant.transitionState p = Some reconnecting)
                then Participant.with_transitionState connected p
                else p)) w
  | EstablishAllCameraConnections currentPeer =>
      establishAllCameraConnections r currentPeer w
  end.

(** The event loop takes a pending timer off the list and runs its body. *)
Definition runTimer (r : Render.t) (t : N * Action) (w : World) : World :=
  fire r t.2 (clearTimeout t.1 t.2 w).

(** ** Joining: the retry loop of [connectToCreator] *)

(** The local variables of one [connectToCreator] invocation. *)
Record Join := mkJoin {
  retryCount : nat;
  (** [retryInterval !== null]: the 3 s interval is armed *)
  retryInterval : bool;
  (** data channels opened towards the creator, oldest first *)
  attempts : list Chan
}.

Definition maxRetries : nat := 5.

Definition creatorIdOf (r : Render.t) : string := Render.roomId r +:+ "-creator".

(** [attemptCreatorConnection]: a new data channel to the creator. *)
Definition attemptCreatorConnection (r : Render.t) (jw : Join * World)
    : Join * World :=
  let (dataConn, w1) := connect (creatorIdOf r) jw.2 in
  (mkJoin (retryCount jw.1) (retryInterval jw.1) (attempts jw.1 ++ [dataConn])%list,
   w1).

(** [connectToCreator]: a first attempt at once, then the interval. *)
Definition connectToCreator (r : Render.t) (w : World) : Join * World :=
  let (j, w1) := attemptCreatorConnection r (mkJoin 0 false [], w) in
  (mkJoin (retryCount j) true (attempts j), w1).

(** The [open] handler of an attempt's data channel. *)
Definition onCreatorOpen (r : Render.t) (stream : Stream) (dataConn : Chan)
    (jw : Join * World) : Join * World :=
  let j := mkJoin (retryCount jw.1) false (attempts jw.1) in
  let w0 := set_openData (openData jw.2 ∪ {[dataConn]}) jw.2 in
  let (c, w1) := call (creatorIdOf r) stream w0 in
  (j, set_connectionsRef
        (<[creatorIdOf r := mkConn (Some c) (Some dataConn)]> (connectionsRef w1))
        w1).

(** The [stream] handler of the call [onCreatorOpen] places. *)
Definition onCreatorStream (r : Render.t) (remoteStream : Stream) (w : World)
    : World :=
  setParticipants
    (fun prev =>
       if existsb (fun p => String.eqb (Participant.id p) (creatorIdOf r)) prev
       then prev
       else (prev ++
             [Participant.mk (creatorIdOf r) (Render.localUsername r)
                remoteStream true None None None])%list) w.

(** The progress message of the error handler,
    [`Room host not found. Retrying connection (${retryCount}/${maxRetries})...`]. *)
Definition retryMessage (n : nat) : string :=
  "Room host not found. Retrying connection ("
  +:+ pretty n +:+ "/" +:+ pretty maxRetries +:+ ")...".

(** The message of the error handler once the retries are used up. *)
Definition terminalMessage : string :=
  "Could not connect to room host. Either the room doesn't exist or the host is offline.".

(** The [error] handler of an attempt's data channel. *)
Definition onCreatorError (r : Render.t) (jw : Join * World) : Join * World :=
  let (j, w) := jw in
  if bool_decide (retryCount j < maxRetries)%nat then
    (mkJoin (S (retryCount j)) (retryInterval j) (attempts j),
     setError (retryMessage (S (retryCount j))) w)
  else
    (mkJoin (retryCount j) false (attempts j), setError terminalMessage w).

(** One firing of the 3 s interval; nothing once it has been cleared. *)
Definition onRetryTick (r : Render.t) (jw : Join * World) : Join * World :=
  let (j, w) := jw in
  if retryInterval j then
    if bool_decide (retryCount j < maxRetries)%nat then
      if negb (isOpen w (dataOf w (creatorIdOf r)))
      then attemptCreatorConnection r jw
      else (mkJoin (retryCount j) false (attempts j), w)
    else (mkJoin (retryCount j) false (attempts j), w)
  else jw.

(** What can happen while the creator never answers: the interval fires,
    or an attempt's channel reports an error. *)
Inductive JoinEvent := Tick | ConnError.

Definition joinStep (r : Render.t) (jw : Join * World) (e : JoinEvent)
    : Join * World :=
  match e with
  | Tick => onRetryTick r jw
  | ConnError => onCreatorError r jw
  end.

Definition joinRun (r : Render.t) (w : World) (es : list JoinEvent)
    : Join * World :=
  foldl (joinStep r) (connectToCreator r w) es.

(** ** Peer list broadcast, forced reconnection and the display name *)

(** [broadcastPeerList]: the creator sends its own id and the ids of the
    captured participant list on every open control channel. *)
Definition broadcastPeerList (r : Render.t) (w : World) : World :=
  match peerRef w with
  | Some self =>
      if Render.isCreator r then
        let allPeers := self :: map Participant.id (Render.participants r) in
        foldl (fun w e =>
                 sendIfOpen (dataConnection e.2)
                   (DataMessage.mk "peer-list" None None (Some allPeers) None
                      None None None None (Some (Render.now r))) w)
              w (map_to_list (connectionsRef w))
      else w
  | None => w
  end.

(** [reconnectAll]; the first component is the join loop it started, if
    any. *)
Definition reconnectAll (r : Render.t) (w : World) : option Join * World :=
  match peerRef w, Render.localStream r with
  | Some _, Some _ =>
      if Render.isCreator r then (None, broadcastPeerList r w)
      else if negb (isOpen w (dataOf w (creatorIdOf r))) then
        let (j, w1) := connectToCreator r w in (Some j, w1)
      else
        (None,
         match dataOf w (creatorIdOf r) with
         | Some d =>
             send d (DataMessage.bare "request-peer-list" (Render.now r)) w
         | None => w
         end)
  | _, _ => (None, w)
  end.

(** The message [setUsername] broadcasts; [peerId] is
    [peerRef.current?.id]. *)
Definition usernameMsg (r : Render.t) (peerId : option string)
    (username : string) : DataMessage.t :=
  DataMessage.mk "username" peerId (Some username) None None None None None
    None (Some (Render.now r)).

(** [setUsername]; the first component is the new value of the
    [localUsername] state. *)
Definition setUsername (r : Render.t) (newUsername : string) (w : World)
    : string * World :=
  (newUsername, sendDataToAll (usernameMsg r (peerRef w) newUsername) w).

(** ** Leaving the room *)

(** The notice a leaving peer sends; [peerId] is the id of the peer
    object the effect created. *)
Definition peerDisconnectMsg (r : Render.t) (peerId : string) : DataMessage.t :=
  DataMessage.mk "peer-disconnect" (Some peerId) None None None None None None
    None (Some (Render.now r)).

(** [handleBeforeUnload], and the cleanup of the effect that created the
    peer, which runs the same two loops: a notice on every open control
    channel, then [close] on both channels of every registry entry, as
    a snapshot of the registry lists them. [peer.destroy()] is not a call
    on a channel and is not recorded. *)
Definition handleBeforeUnload (r : Render.t) (peerId : string) (w : World)
    : World :=
  let w1 :=
    foldl (fun w e => sendIfOpen (dataConnection e.2) (peerDisconnectMsg r peerId) w)
          w (map_to_list (connectionsRef w)) in
  foldl (fun w e => closeOpt (dataConnection e.2) (closeOpt (mediaConnection e.2) w))
        w1 (map_to_list (connectionsRef w1)).

(** ** Local tracks *)

Module Track.
Inductive Kind := audio | video.
Record t := mk { kind : Kind; enabled : bool }.
End Track.

#[global] Instance TrackKind_eq_dec : EqDecision Track.Kind.
Proof. solve_decision. Defined.

(** [stream.getAudioTracks()] and [stream.getVideoTracks()]: the tracks of
    one kind, in order. *)
Definition getTracksOf (k : Track.Kind) (stream : list Track.t) : list Track.t :=
  filter (fun t => Track.kind t = k) stream.

(** [tracks.forEach((track) => { track.enabled = !track.enabled })] on the
    tracks of kind [k] of a stream: the track objects are flipped in
    place. *)
Definition flipTracks (k : Track.Kind) (stream : list Track.t) : list Track.t :=
  map (fun t => if decide (Track.kind t = k)
                then Track.mk (Track.kind t) (negb (Track.enabled t)) else t)
      stream.

(** [toggleAudio] and [toggleVideo], on the tracks of [localStream]. *)
Definition toggleAudio (localStream : option (list Track.t))
    : option (list Track.t) :=
  flipTracks Track.audio <$> localStream.

Definition toggleVideo (localStream : option (list Track.t))
    : option (list Track.t) :=
  flipTracks Track.video <$> localStream.

(** ** Recording layout *)

(** The grid [layoutStreams] picks for [n] streams, as [(rows, cols)];
    [Math.ceil(n / 4)] is [(n + 3) / 4] on naturals. *)
Definition gridOf (n : nat) : nat * nat :=
  if (n <=? 1)%nat then (1, 1)%nat
  else if (n <=? 4)%nat then (2, 2)%nat
  else if (n <=? 9)%nat then (3, 3)%nat
  else (4, (n + 3) / 4)%nat.

(** The cell, as [(row, col)], the stream at position [index] of [n] is
    drawn in; [None] when the loop skips the position. *)
Definition cellOf (n index : nat) : option (nat * nat) :=
  let (rows, cols) := gridOf n in
  if (rows * cols <=? index)%nat then None
  else Some ((index / cols)%nat, (index mod cols)%nat).

(** [s.padStart(2, "0")] *)
Definition padStart2 (s : string) : string :=
  match String.length s with
  | 0%nat => "00"
  | 1%nat => "0" +:+ s
  | _ => s
  end.

(** The elapsed time shown while recording, [formattedTime] of
    [RecordingControls] and the timestamp [layoutStreams] draws. *)
Definition formattedTime (recordingTime : nat) : string :=
  padStart2 (pretty (recordingTime / 60)%nat) +:+ ":"
  +:+ padStart2 (pretty (recordingTime mod 60)%nat).

(** * Vocabulary of the properties *)

(** [addLog es w]: [w] after the transport calls [es], nothing else touched. *)
Definition addLog (es : list Effect) (w : World) : World :=
  mkWorld (peerRef w) (screenConnections w) (connectionsRef w) (lastSeenRef w)
    (participants w) (error w) (screenStream w) (isScreenSharing w)
    (networkTopology w) (nextChan w) (openData w) (timers w) (log w ++ es)%list.

(** The calls [sendIfOpen c m] makes in [w]. *)
Definition sendTo (w : World) (c : option Chan) (m : DataMessage.t) : list Effect :=
  match c with
  | Some d => if bool_decide (d ∈ openData w) then [Send d m] else []
  | None => []
  end.

(** The sends of [sendDataToAll data] in [w]. *)
Definition broadcastOf (w : World) (data : DataMessage.t) : list Effect :=
  match peerRef w with
  | None => []
  | Some _ =>
      map_to_list (connectionsRef w) ≫=
        (fun e => sendTo w (dataConnection e.2) data)
  end.

(** Every field but [username] agrees. *)
Definition sameButUsername (p q : Participant.t) : Prop :=
  Participant.id q = Participant.id p ∧
  Participant.stream q = Participant.stream p ∧
  Participant.isCreator q = Participant.isCreator p ∧
  Participant.isScreenSharing q = Participant.isScreenSharing p ∧
  Participant.streamType q = Participant.streamType p ∧
  Participant.transitionState q = Participant.transitionState p.

(** [streamType = "screen"] iff [isScreenSharing = true]. *)
Definition consistent (p : Participant.t) : Prop :=
  Participant.streamType p = Some "screen" ↔
  Participant.isScreenSharing p = Some true.

(** The calls one turn of the star loop of [setTopology] makes. *)
Definition closesOf (e : string * Conn) : list Effect :=
  if includes e.1 "-creator" then []
  else (option_list (Close <$> mediaConnection e.2)
        ++ option_list (Close <$> dataConnection e.2))%list.

(** The data channel [establishPeerConnection] asks for: none when the
    registry already has one for the peer. *)
Definition controlChannelFor (w : World) (P : string) : list Effect :=
  match dataOf w P with
  | Some _ => []
  | None => [Connect (nextChan w) P]
  end.

(** [keepsChannels w w']: from [w] to [w'] the registry, the set of open
    data channels and the registered peer are unchanged, the transport
    log only grew, by calls other than [close], and no channel identity
    was taken back. *)
Definition keepsChannels (w w' : World) : Prop :=
  connectionsRef w' = connectionsRef w ∧
  openData w' = openData w ∧
  peerRef w' = peerRef w ∧
  (∃ es, log w' = (log w ++ es)%list ∧ ∀ c, Close c ∉ es) ∧
  (nextChan w ≤ nextChan w')%nat.

(** Every channel kept in the local [screenConnections] object was
    handed out at or after [lo] by a [call] carrying the screen stream to
    the peer it is kept under. *)
Definition screenCallsFrom (stream : Stream) (lo : Chan)
    (acc : gmap string Chan * World) : Prop :=
  ∀ P c, acc.1 !! P = Some c ->
         (lo ≤ c)%nat ∧ (c < nextChan acc.2)%nat ∧ Call c P stream ∈ log acc.2.

(** [repairs w w']: from [w] to [w'] the open data channels and the
    registered peer are unchanged, the data channel of every registry
    entry is the same, the transport log only grew, by calls other than
    [close], and no channel identity was taken back. *)
Definition repairs (w w' : World) : Prop :=
  openData w' = openData w ∧
  peerRef w' = peerRef w ∧
  (∃ es, log w' = (log w ++ es)%list ∧ ∀ c, Close c ∉ es) ∧
  (∀ Q, dataOf w' Q = dataOf w Q) ∧
  (nextChan w ≤ nextChan w')%nat.

(** What the loop does for a peer that is not the own id: a call on a
    new channel when the registry has no media channel for it, a
    [reconnect-after-screen-share] message when it has one and the
    control channel is open. *)
Definition repaired (r : Render.t) (self : string) (ls : Stream)
    (w w' : World) (P : string) : Prop :=
  match mediaOf w P with
  | None => ∃ c, (nextChan w ≤ c)%nat ∧ Call c P ls ∈ log w'
  | Some _ =>
      ∀ d, dataOf w P = Some d -> d ∈ openData w ->
           Send d (reconnectAfterScreenShare r self) ∈ log w'
  end.

(** The control channel to the creator is not open. *)
Definition creatorSilent (r : Render.t) (w : World) : Prop :=
  isOpen w (dataOf w (creatorIdOf r)) = false.

(** What the caller and the retry loop see of a join in progress: the
    retry counter, whether the interval is armed, the number of attempts
    made and the error slot. *)
Definition joinView (jw : Join * World) : nat * bool * nat * option string :=
  (retryCount jw.1, retryInterval jw.1, length (attempts jw.1), error jw.2).

(** The loop on views, while the creator stays silent. *)
Definition viewStep (v : nat * bool * nat * option string) (e : JoinEvent)
    : nat * bool * nat * option string :=
  let '(count, armed, made, err) := v in
  match e with
  | Tick =>
      if armed then
        if bool_decide (count < maxRetries)%nat then (count, armed, S made, err)
        else (count, false, made, err)
      else v
  | ConnError =>
      if bool_decide (count < maxRetries)%nat
      then (S count, armed, made, Some (retryMessage (S count)))
      else (count, false, made, Some terminalMessage)
  end.

(** The [peer-list] message of [broadcastPeerList]: the own id, then the
    ids of the captured participant list. *)
Definition peerListMsg (r : Render.t) (self : string) : DataMessage.t :=
  DataMessage.mk "peer-list" None None
    (Some (self :: map Participant.id (Render.participants r))) None None None
    None None (Some (Render.now r)).

(** The messages [onDataOpen] sends. *)
Definition requestUsernameMsg (r : Render.t) (peerId : option string)
    : DataMessage.t :=
  DataMessage.mk "request-username" peerId None None None None None None None
    (Some (Render.now r)).

Definition newPeerMsg (r : Render.t) (peer : string) : DataMessage.t :=
  DataMessage.mk "new-peer" (Some peer) None None None None None None None
    (Some (Render.now r)).

Definition currentPeersMsg (r : Render.t) (w : World) : DataMessage.t :=
  DataMessage.mk "peer-list" None None (Some (currentPeers r w)) None None None
    None None (Some (Render.now r)).

(** The [close] calls on both channels of a registry entry. *)
Definition closesOfEntry (e : string * Conn) : list Effect :=
  (option_list (Close <$> mediaConnection e.2)
   ++ option_list (Close <$> dataConnection e.2))%list.

(** [noNewcomer w w']: the ids of the participant list of [w'], in order,
    are among those of [w], in order: records may have been removed or
    rewritten, none was added and none changed its id. *)
Definition noNewcomer (w w' : World) : Prop :=
  sublist (map Participant.id (participants w'))
          (map Participant.id (participants w)).

(** One turn of the loop of [handlePeerList] when the topology does not
    restrict it (mesh mode, or the creator). *)
Definition listStep (r : Render.t) (self : string) (w : World)
    (peerId : string) : World :=
  if String.eqb peerId self then w
  else if includes peerId "-creator"
          && isOpen w (dataOf w peerId)
          && bool_decide (is_Some (mediaOf w peerId)) then w
  else establishPeerConnection r peerId w.

(** [n] ticks of the retry interval that the [camera-stream-restored]
    block arms for [restoredPeerId], the callback's counter being [k] at
    the first of them; a tick happens only while the interval is
    pending. *)
Fixpoint retryTicks (r : Render.t) (restoredPeerId : option string)
    (k n : nat) (w : World) : World :=
  match n with
  | O => w
  | S n' =>
      if bool_decide ((2000%N, RetryStreamUpdate restoredPeerId k) ∈ timers w)
      then retryTicks r restoredPeerId (S k) n'
             (runTimer r (2000%N, RetryStreamUpdate restoredPeerId k) w)
      else w
  end.

(** The loading state a receiver puts the record of [P] in when [P]
    announces that its camera is back. *)
Definition awaitCamera (P : string) (p : Participant.t) : Participant.t :=
  if String.eqb (Participant.id p) P
  then Participant.with_isScreenSharing false
         (Participant.with_stream emptyStream p)
  else p.

(** * Example worlds *)

(** The render of a joiner of the room [room], in mesh mode, with
    transitions on and the participants [ps] captured. *)
Definition joinerRender (ps : list Participant.t) : Render.t :=
  Render.mk "room" false "me" (Some 1) None false ps mesh true 7
    (fun _ => true) true (fun _ => true) None.

(** The records of the creator and of the joiner [room-17], as
    [onCallStream] makes them. *)
Definition creatorP : Participant.t :=
  Participant.mk "room-creator" "host" 6 true (Some false) (Some "camera") None.

Definition guestP : Participant.t :=
  Participant.mk "room-17" "Guest" 5 false (Some false) (Some "camera") None.

(** The joiner [room-42], connected to the creator (media channel 3,
    data channel 4) and to [room-17] (media channel 1, data channel 2),
    both data channels open. *)
Definition joinerWorld : World :=
  mkWorld (Some "room-42") None
    (<["room-17" := mkConn (Some 1) (Some 2)]>
       (<["room-creator" := mkConn (Some 3) (Some 4)]> ∅))
    ∅ [creatorP; guestP] None None false mesh 10 {[2; 4]} [] [].

(** A [username] message that names [room-17] Alice. *)
Definition aliceMsg : DataMessage.t :=
  DataMessage.mk "username" (Some "room-17") (Some "Alice") None None None None
    None None (Some 1).

(** A [screen-share-started] notice naming [room-17], and a
    [screen-sharing-status] message naming the creator. *)
Definition startedMsg : DataMessage.t :=
  DataMessage.mk "screen-share-started" None None None None (Some "room-17")
    None None None (Some 1).

Definition statusMsg : DataMessage.t :=
  DataMessage.mk "screen-sharing-status" (Some "room-creator") None None
    (Some true) None (Some "screen") None None (Some 2).

(** The world after [room-17] announced its share with
    [screen-share-started]: its record has [isScreenSharing = true] and
    still [streamType = "camera"]. *)
Definition afterStarted : World :=
  onData (joinerRender [creatorP; guestP]) 2 "room-17" startedMsg joinerWorld.

(** A joiner [a-creator-1700000000000] of the room [a-creator], whose
    creator is [a-creator-creator]. *)
Definition creatorLikeRoom : string := "a-creator".
Definition creatorLikeJoiner : string := creatorLikeRoom +:+ "-1700000000000".

Definition creatorLikeRender : Render.t :=
  Render.mk creatorLikeRoom true "host" (Some 1) None false [] mesh true 7
    (fun _ => true) true (fun _ => true) None.

(** The creator of that room, no participant yet. *)
Definition creatorLikeWorld : World :=
  mkWorld (Some (creatorLikeRoom +:+ "-creator")) None ∅ ∅ [] None None false
    mesh 10 ∅ [] [].

(** The joiner [room-42] right after its peer registered: no connection
    yet. *)
Definition freshJoinerWorld : World :=
  mkWorld (Some "room-42") None ∅ ∅ [] None None false mesh 10 ∅ [] [].

(** [room-17] announces that it leaves. *)
Definition disconnectMsg : DataMessage.t :=
  DataMessage.mk "peer-disconnect" (Some "room-17") None None None None None
    None None (Some 3).

(** The render of a joiner that is already in star mode. *)
Definition starRender (ps : list Participant.t) : Render.t :=
  Render.mk "room" false "me" (Some 1) None false ps star true 7
    (fun _ => true) true (fun _ => true) None.

(** A sharing joiner whose control channel to [room-17] has closed while
    the media channel is still in the registry. *)
Definition sharingRender : Render.t :=
  Render.mk "room" false "me" (Some 1) (Some 8) true [creatorP; guestP] mesh
    true 7 (fun _ => true) true (fun _ => true) None.

(** The world of that joiner: screen channels 20 and 21, data channel 2
    not open. *)
Definition sharingWorld : World :=
  mkWorld (Some "room-42")
    (Some (<["room-17" := 20]> (<["room-creator" := 21]> ∅)))
    (<["room-17" := mkConn (Some 1) (Some 2)]>
       (<["room-creator" := mkConn (Some 3) (Some 4)]> ∅))
    ∅ [creatorP; guestP] None (Some 8) true mesh 30 {[4]} [] [].

(** The joiner after it switched to star mode with [setTopology]: the
    link to the creator (media channel 3, data channel 4) is kept, the
    participant list holds the record of [room-17] alone. *)
Definition afterStarSwitch : World :=
  setTopology (joinerRender [creatorP; guestP]) star joinerWorld.

(** The render of a joiner whose camera stream has ended; [getUserMedia]
    gives the stream 9. *)
Definition staleCameraRender : Render.t :=
  Render.mk "room" false "me" (Some 1) None false [] mesh true 7
    (fun _ => true) true (fun _ => false) (Some 9).

(** Every attempt fails with an error before the next tick. *)
Definition failingJoin : list JoinEvent :=
  [ConnError; Tick; ConnError; Tick; ConnError; Tick; ConnError; Tick;
   ConnError; Tick].

(** Requests a peer can receive on a control channel. *)
Definition recordingMsg : DataMessage.t := DataMessage.bare "recording-status" 5.

Definition usernameRequest : DataMessage.t :=
  DataMessage.bare "request-username" 5.

Definition streamUpdateRequest : DataMessage.t :=
  DataMessage.mk "request-stream-update" None None None None None None
    (Some true) (Some true) (Some 5).

Definition fullReconnectRequest : DataMessage.t :=
  DataMessage.bare "request-full-reconnect" 5.

Definition screenStreamRequest : DataMessage.t :=
  DataMessage.mk "request-screen-stream" None None None None None None
    (Some true) None (Some 5).

(** * Properties *)

(** ** Worlds that differ by transport calls only *)

Lemma addLog_nil w : addLog [] w = w.
Proof. destruct w; unfold addLog; simpl. by rewrite app_nil_r. Qed.

Lemma addLog_addLog es1 es2 w : addLog es2 (addLog es1 w) = addLog (es1 ++ es2) w.
Proof. unfold addLog; simpl. by rewrite app_assoc. Qed.

Lemma emit_addLog e w : emit e w = addLog [e] w.
Proof. reflexivity. Qed.

Lemma sendTo_addLog es w c m : sendTo (addLog es w) c m = sendTo w c m.
Proof. reflexivity. Qed.

Lemma sendIfOpen_addLog c m w : sendIfOpen c m w = addLog (sendTo w c m) w.
Proof.
  unfold sendIfOpen, sendTo. destruct c as [d|]; [|by rewrite addLog_nil].
  case_bool_decide; [reflexivity | by rewrite addLog_nil].
Qed.

(** A loop of conditional sends over a snapshot appends the sends of each
    turn, judged in the world the loop started in. *)
Lemma foldl_sendIfOpen {A} (cOf : A -> option Chan) (mOf : A -> DataMessage.t)
    (l : list A) (w : World) :
  foldl (fun w x => sendIfOpen (cOf x) (mOf x) w) w l
  = addLog (l ≫= (fun x => sendTo w (cOf x) (mOf x))) w.
Proof.
  revert w. induction l as [|x l IH]; intros w; simpl.
  - by rewrite addLog_nil.
  - rewrite IH, sendIfOpen_addLog, addLog_addLog. reflexivity.
Qed.

Lemma sendDataToAll_addLog data w :
  sendDataToAll data w = addLog (broadcastOf w data) w.
Proof.
  unfold sendDataToAll, broadcastOf. destruct (peerRef w).
  - apply (foldl_sendIfOpen (fun e => dataConnection e.2) (fun _ => data)).
  - by rewrite addLog_nil.
Qed.

Lemma elem_of_sendTo e w c m :
  e ∈ sendTo w c m ↔ ∃ d, c = Some d ∧ d ∈ openData w ∧ e = Send d m.
Proof.
  unfold sendTo. destruct c as [d|].
  - case_bool_decide.
    + rewrite list_elem_of_singleton. naive_solver.
    + rewrite elem_of_nil. naive_solver.
  - rewrite elem_of_nil. naive_solver.
Qed.

Lemma elem_of_broadcastOf e w data :
  e ∈ broadcastOf w data ↔
  is_Some (peerRef w) ∧
  ∃ peerId conn d,
    connectionsRef w !! peerId = Some conn ∧ dataConnection conn = Some d ∧
    d ∈ openData w ∧ e = Send d data.
Proof.
  unfold broadcastOf. destruct (peerRef w) as [self|].
  - rewrite list_elem_of_bind. split.
    + intros ([peerId conn] & Hin & Hel). apply elem_of_sendTo in Hin.
      destruct Hin as (d & ? & ? & ?). apply elem_of_map_to_list in Hel.
      split; [by eexists|]. by exists peerId, conn, d.
    + intros (_ & peerId & conn & d & Hl & ? & ? & ?).
      exists (peerId, conn). split; [|by apply elem_of_map_to_list].
      apply elem_of_sendTo. by exists d.
  - rewrite elem_of_nil. split; [done | intros [[? [=]] _]].
Qed.

(** C10. [sendDataToAll data] changes nothing but the transport log, to
    which it appends [send] calls: a call is in the appended part exactly
    when the peer is registered and the call is [data] sent on the data
    channel of a registry entry that is open. An entry with no data
    channel, or a closed one, gets nothing; the registry, the pending
    timers and the error slot are as before. *)
Theorem sendDataToAll_open_only (data : DataMessage.t) (w : World) :
  ∃ sent : list Effect,
    sendDataToAll data w = addLog sent w ∧
    connectionsRef (sendDataToAll data w) = connectionsRef w ∧
    timers (sendDataToAll data w) = timers w ∧
    error (sendDataToAll data w) = error w ∧
    ∀ e, e ∈ sent ↔
         is_Some (peerRef w) ∧
         ∃ peerId conn d,
           connectionsRef w !! peerId = Some conn ∧
           dataConnection conn = Some d ∧ d ∈ openData w ∧ e = Send d data.
Proof.
  exists (broadcastOf w data). rewrite sendDataToAll_addLog.
  do 4 (split; [reflexivity|]). intros e. apply elem_of_broadcastOf.
Qed.

(** ** Routing: a block acts on messages of its own type only *)

Lemma andb_eqb_false (s t : string) (b : bool) :
  s ≠ t -> String.eqb s t && b = false.
Proof. intros H. by apply String.eqb_neq in H as ->. Qed.

Section RouterSkip.
Variables (r : Render.t) (dataConn : Chan) (peer : string).
Variables (data : DataMessage.t) (w : World).

Local Ltac skip H :=
  let E := fresh in
  pose proof H as E; apply String.eqb_neq in E;
  repeat case_match; simplify_eq/=; try done.

Lemma skip_screen_sharing_status :
  DataMessage.type data ≠ "screen-sharing-status" ->
  on_screen_sharing_status data w = w.
Proof. intros H. unfold on_screen_sharing_status; cbv zeta. skip H. Qed.

Lemma skip_screen_sharing_stream :
  DataMessage.type data ≠ "screen-sharing-stream" ->
  on_screen_sharing_stream data w = w.
Proof. intros H. unfold on_screen_sharing_stream; cbv zeta. skip H. Qed.

Lemma skip_stream_metadata :
  DataMessage.type data ≠ "stream-metadata" -> on_stream_metadata data w = w.
Proof.
  intros H. unfold on_stream_metadata; cbv zeta.
  by rewrite <- andb_assoc, andb_eqb_false.
Qed.

Lemma skip_peer_list :
  DataMessage.type data ≠ "peer-list" -> on_peer_list r data w = w.
Proof. intros H. unfold on_peer_list; cbv zeta. skip H. Qed.

Lemma skip_new_peer :
  DataMessage.type data ≠ "new-peer" -> on_new_peer r data w = w.
Proof.
  intros H. unfold on_new_peer; cbv zeta. by rewrite <- andb_assoc, andb_eqb_false.
Qed.

Lemma skip_request_peer_list :
  DataMessage.type data ≠ "request-peer-list" ->
  on_request_peer_list r dataConn data w = w.
Proof. intros H. unfold on_request_peer_list; cbv zeta. by rewrite andb_eqb_false. Qed.

Lemma skip_peer_disconnect :
  DataMessage.type data ≠ "peer-disconnect" -> on_peer_disconnect r data w = w.
Proof. intros H. unfold on_peer_disconnect; cbv zeta. by rewrite andb_eqb_false. Qed.

Lemma skip_screen_share_retry_needed :
  DataMessage.type data ≠ "screen-share-retry-needed" ->
  on_screen_share_retry_needed r data w = w.
Proof.
  intros H. unfold on_screen_share_retry_needed; cbv zeta.
  by rewrite <- andb_assoc, andb_eqb_false.
Qed.

Lemma skip_screen_share_started :
  DataMessage.type data ≠ "screen-share-started" ->
  on_screen_share_started r data w = (w, false).
Proof.
  intros H. unfold on_screen_share_started; cbv zeta.
  by rewrite <- andb_assoc, andb_eqb_false.
Qed.

Lemma skip_request_screen_stream :
  DataMessage.type data ≠ "request-screen-stream" ->
  on_request_screen_stream r peer data w = w.
Proof.
  intros H. unfold on_request_screen_stream; cbv zeta.
  rewrite andb_eqb_false by done. by repeat case_match.
Qed.

Lemma skip_request_full_reconnect :
  DataMessage.type data ≠ "request-full-reconnect" ->
  on_request_full_reconnect r peer data w = w.
Proof.
  intros H%String.eqb_neq. unfold on_request_full_reconnect; cbv zeta.
  rewrite H. by repeat case_match.
Qed.

Lemma skip_camera_stream_restored :
  DataMessage.type data ≠ "camera-stream-restored" ->
  on_camera_stream_restored r data w = w.
Proof. intros H. unfold on_camera_stream_restored; cbv zeta. by rewrite andb_eqb_false. Qed.

Lemma skip_request_stream_update :
  DataMessage.type data ≠ "request-stream-update" ->
  on_request_stream_update r peer data w = w.
Proof.
  intros H%String.eqb_neq. unfold on_request_stream_update; cbv zeta.
  rewrite H. by repeat case_match.
Qed.

Lemma skip_reconnect_after_screen_share :
  DataMessage.type data ≠ "reconnect-after-screen-share" ->
  on_reconnect_after_screen_share r data w = w.
Proof.
  intros H. unfold on_reconnect_after_screen_share; cbv zeta.
  destruct (Render.localStream r), (peerRef w); try done.
  by rewrite <- andb_assoc, andb_eqb_false.
Qed.

Lemma skip_username :
  DataMessage.type data ≠ "username" -> on_username r data w = w.
Proof.
  intros H. unfold on_username; cbv zeta.
  destruct (DataMessage.username data), (DataMessage.peerId data); try done.
  by rewrite <- andb_assoc, andb_eqb_false.
Qed.

Lemma skip_request_username :
  DataMessage.type data ≠ "request-username" ->
  on_request_username r dataConn data w = w.
Proof.
  intros H%String.eqb_neq. unfold on_request_username; cbv zeta.
  rewrite H. by repeat case_match.
Qed.

Lemma participants_on_forward :
  participants (on_forward r data w) = participants w.
Proof. unfold on_forward; cbv zeta. by case_match. Qed.

Lemma connectionsRef_on_forward :
  connectionsRef (on_forward r data w) = connectionsRef w.
Proof. unfold on_forward; cbv zeta. by case_match. Qed.

End RouterSkip.

(** [route H]: with [H : DataMessage.type data = "..."], reduce [onData]
    to the blocks that can act on that type. *)
Ltac route H :=
  unfold onData; cbv zeta;
  rewrite ?skip_screen_sharing_status, ?skip_screen_sharing_stream,
    ?skip_stream_metadata, ?skip_peer_list, ?skip_new_peer,
    ?skip_request_peer_list, ?skip_peer_disconnect,
    ?skip_screen_share_retry_needed, ?skip_screen_share_started
    by (rewrite H; discriminate);
  cbv beta iota;
  rewrite ?skip_request_screen_stream, ?skip_request_full_reconnect,
    ?skip_camera_stream_restored, ?skip_request_stream_update,
    ?skip_reconnect_after_screen_share, ?skip_username
    by (rewrite H; discriminate);
  rewrite ?skip_request_username by (rewrite H; discriminate).

(** ** C8: a [username] message *)

Lemma onData_username r dataConn peer data w :
  DataMessage.type data = "username" ->
  participants (onData r dataConn peer data w)
  = participants (on_username r data w).
Proof. intros H. route H. apply participants_on_forward. Qed.

Lemma participants_foldl_sendIfOpen {A} (P : A -> bool) (cOf : A -> option Chan)
    (m : DataMessage.t) (l : list A) (w : World) :
  participants
    (foldl (fun w x => if P x then sendIfOpen (cOf x) m w else w) w l)
  = participants w.
Proof.
  revert w. induction l as [|x l IH]; intros w; simpl; [done|].
  rewrite IH. destruct (P x); [|done]. by rewrite sendIfOpen_addLog.
Qed.

Lemma participants_on_username r data w (X u : string) :
  DataMessage.type data = "username" ->
  DataMessage.username data = Some u -> DataMessage.peerId data = Some X ->
  u ≠ "" -> X ≠ "" ->
  participants (on_username r data w) = renameParticipant X u (participants w).
Proof.
  intros Hty Hu HX Hu0%String.eqb_neq HX0%String.eqb_neq.
  unfold on_username; cbv zeta. rewrite Hu, HX, Hty, Hu0, HX0. simpl.
  case_match; [|done].
  apply (participants_foldl_sendIfOpen (fun e => negb (String.eqb e.1 X))
           (fun e => dataConnection e.2)).
Qed.

(** C8. Applying a [username] message that carries the (non-empty) name
    [u] for the (non-empty) peer id [X] keeps the participant list in
    place, one record for one: a record whose id is [X] gets the display
    name [u] exactly, with every other field as before, and a record with
    another id is not touched. *)
Theorem username_message_updates_name_only
    (r : Render.t) (dataConn : Chan) (peer : string) (data : DataMessage.t)
    (w : World) (X u : string) :
  DataMessage.type data = "username" ->
  DataMessage.username data = Some u ->
  DataMessage.peerId data = Some X ->
  u ≠ "" -> X ≠ "" ->
  Forall2 (fun p q =>
             if decide (Participant.id p = X)
             then Participant.username q = u ∧ sameButUsername p q
             else q = p)
          (participants w)
          (participants (onData r dataConn peer data w)).
Proof.
  intros Hty Hu HX Hu0 HX0.
  rewrite onData_username, (participants_on_username _ _ _ X u) by done.
  unfold renameParticipant. induction (participants w) as [|p l IH]; simpl.
  - constructor.
  - constructor; [|exact IH].
    destruct (String.eqb_spec (Participant.id p) X); case_decide; done.
Qed.

Lemma username_message_updates_name_only_witness :
  Forall2 (fun p q =>
             if decide (Participant.id p = "room-17")
             then Participant.username q = "Alice" ∧ sameButUsername p q
             else q = p)
          (participants joinerWorld)
          (participants
             (onData (joinerRender [creatorP; guestP]) 2 "room-17" aliceMsg
                joinerWorld)).
Proof.
  apply (username_message_updates_name_only _ _ _ aliceMsg joinerWorld
           "room-17" "Alice");
    [reflexivity | reflexivity | reflexivity | discriminate | discriminate].
Defined.

(** ** C4: the screen flags of a participant record *)

Lemma markSharing_other data b p :
  ¬ (DataMessage.peerId data = Some (Participant.id p)) ->
  markSharing data b p = p.
Proof.
  intros H. unfold markSharing, eqs.
  destruct (DataMessage.peerId data) as [X|]; [|done].
  destruct (String.eqb_spec (Participant.id p) X); [|done]. naive_solver.
Qed.

Lemma markSharing_named data b p :
  DataMessage.peerId data = Some (Participant.id p) ->
  Participant.id (markSharing data b p) = Participant.id p ∧
  consistent (markSharing data b p).
Proof.
  intros H. unfold markSharing, eqs, consistent. rewrite H, String.eqb_refl.
  by destruct b.
Qed.

Lemma map_markSharing data b X l :
  DataMessage.peerId data = Some X ->
  Forall2 (fun p q =>
             if decide (Participant.id p = X)
             then Participant.id q = X ∧ consistent q
             else q = p)
          l (map (markSharing data b) l).
Proof.
  intros HX. induction l as [|p l IH]; simpl; constructor; [|exact IH].
  case_decide as E.
  - subst X. destruct (markSharing_named data b p HX) as [-> ?]. done.
  - apply markSharing_other. rewrite HX. naive_solver.
Qed.

Lemma participants_on_screen_sharing_status data w :
  DataMessage.type data = "screen-sharing-status" ->
  participants (on_screen_sharing_status data w)
  = map (markSharing data (truthyb (DataMessage.isSharing data))) (participants w).
Proof.
  intros H. unfold on_screen_sharing_status; cbv zeta. rewrite H. simpl.
  by destruct (truthyb (DataMessage.isSharing data)).
Qed.

Lemma participants_on_screen_sharing_stream data w :
  DataMessage.type data = "screen-sharing-stream" ->
  participants (on_screen_sharing_stream data w)
  = map (markSharing data true) (participants w).
Proof.
  intros H. unfold on_screen_sharing_stream; cbv zeta. by rewrite H.
Qed.

Lemma participants_on_stream_metadata data w X :
  DataMessage.type data = "stream-metadata" ->
  DataMessage.peerId data = Some X -> X ≠ "" ->
  truthy (DataMessage.streamType data) = true ->
  Forall2 (fun p q =>
             if decide (Participant.id p = X)
             then Participant.id q = X ∧ consistent q
             else q = p)
          (participants w) (participants (on_stream_metadata data w)).
Proof.
  intros Hty HX HX0%String.eqb_neq Hst.
  unfold on_stream_metadata; cbv zeta. rewrite Hty, Hst, HX. simpl.
  rewrite HX0. simpl.
  induction (participants w) as [|p l IH]; simpl; constructor; [|exact IH].
  destruct (String.eqb_spec (Participant.id p) X); case_decide; try done.
  split; [done|]. unfold consistent, eqs.
  cbn [Participant.streamType Participant.isScreenSharing].
  destruct (DataMessage.streamType data) as [s|]; [|done].
  destruct (String.eqb_spec "screen" s) as [<-|Hne]; [done|].
  split; intros ?; simplify_eq.
Qed.

(** C4 (amended). After a [screen-sharing-status] or a
    [screen-sharing-stream] message, or a [stream-metadata] message that
    carries a stream type and a non-empty peer id, the participant list
    is in place, one record for one: a record whose id is the [peerId]
    of the message has [streamType = "screen"] iff
    [isScreenSharing = true]; a record with another id is left as it
    was. *)
Theorem screen_flags_consistent_for_named_peer
    (r : Render.t) (dataConn : Chan) (peer : string) (data : DataMessage.t)
    (w : World) (X : string) :
  DataMessage.peerId data = Some X ->
  DataMessage.type data = "screen-sharing-status"
  ∨ DataMessage.type data = "screen-sharing-stream"
  ∨ (DataMessage.type data = "stream-metadata"
     ∧ truthy (DataMessage.streamType data) = true ∧ X ≠ "") ->
  Forall2 (fun p q =>
             if decide (Participant.id p = X)
             then Participant.id q = X ∧ consistent q
             else q = p)
          (participants w)
          (participants (onData r dataConn peer data w)).
Proof.
  intros HX [Hty | [Hty | (Hty & Hst & HX0)]]; route Hty;
    rewrite participants_on_forward.
  - rewrite participants_on_screen_sharing_status by done.
    by apply map_markSharing.
  - rewrite participants_on_screen_sharing_stream by done.
    by apply map_markSharing.
  - by apply participants_on_stream_metadata.
Qed.

Lemma screen_flags_consistent_for_named_peer_witness :
  Forall2 (fun p q =>
             if decide (Participant.id p = "room-creator")
             then Participant.id q = "room-creator" ∧ consistent q
             else q = p)
          (participants afterStarted)
          (participants
             (onData (joinerRender [creatorP; guestP]) 4 "room-creator"
                statusMsg afterStarted)).
Proof.
  apply (screen_flags_consistent_for_named_peer _ _ _ statusMsg afterStarted
           "room-creator"); [reflexivity | left; reflexivity].
Defined.

(** C4 as stated fails: after a [screen-sharing-status] message naming
    the creator, the record of [room-17] still has
    [isScreenSharing = true] with [streamType = "camera"]. *)
Lemma screen_flags_consistent_counterexample :
  DataMessage.type statusMsg = "screen-sharing-status" ∧
  ¬ (∀ p, p ∈ participants
               (onData (joinerRender [creatorP; guestP]) 4 "room-creator"
                  statusMsg afterStarted) ->
          consistent p).
Proof.
  split; [reflexivity|]. intros H.
  specialize (H (Participant.mk "room-17" "Guest" 5 false (Some true)
                   (Some "camera") None)).
  assert (Hin : Participant.mk "room-17" "Guest" 5 false (Some true)
                  (Some "camera") None
                ∈ participants
                    (onData (joinerRender [creatorP; guestP]) 4 "room-creator"
                       statusMsg afterStarted)).
  { vm_compute. apply list_elem_of_further, list_elem_of_here. }
  destruct (H Hin) as [_ Hback]. by specialize (Hback eq_refl).
Qed.

(** ** C9: the [isCreator] flag of a new participant record *)

Lemma endsWith_spec (s sub : string) :
  endsWith s sub = true ↔ ∃ a, s = a +:+ sub.
Proof.
  induction s as [|c s IH]; cbn [endsWith].
  - rewrite orb_false_r, String.eqb_eq. split.
    + intros <-. by exists "".
    + intros [a Ha]. destruct a; [done | discriminate].
  - rewrite orb_true_iff, String.eqb_eq, IH. split.
    + intros [<- | [a ->]]; [by exists "" | by exists (String c a)].
    + intros [a Ha]. destruct a as [|d a]; simpl in Ha.
      * by left.
      * right. exists a. by injection Ha.
Qed.

Lemma prefix_spec (sub s : string) :
  String.prefix sub s = true ↔ ∃ b, s = sub +:+ b.
Proof.
  revert s. induction sub as [|c sub IH]; intros s; simpl.
  - destruct s; split; intros; eauto.
  - destruct s as [|d s]; simpl.
    + split; [done | by intros [b [=]]].
    + destruct (Ascii.ascii_dec c d) as [->|Hne].
      * rewrite IH. split; intros [b Hb]; exists b; [by rewrite Hb | by injection Hb].
      * split; [done | intros [b [=]]; done].
Qed.

(** [includes s sub] holds exactly when [sub] occurs in [s]. *)
Lemma includes_spec (s sub : string) :
  includes s sub = true ↔ ∃ a b, s = a +:+ sub +:+ b.
Proof.
  induction s as [|c s IH]; cbn [includes].
  - rewrite orb_false_r, prefix_spec. split.
    + intros [b Hb]. by exists "", b.
    + intros (a & b & Hab). destruct a as [|? ?]; [by exists b | done].
  - rewrite orb_true_iff, prefix_spec, IH. split.
    + intros [[b Hb] | (a & b & Hab)].
      * by exists "", b.
      * exists (String c a), b. simpl. by rewrite Hab.
    + intros (a & b & Hab). destruct a as [|d a]; simpl in Hab.
      * left. by exists b.
      * right. exists a, b. by injection Hab.
Qed.

Lemma prefix_app_false (sub x t : string) :
  String.prefix sub x = false ->
  (∀ y rest, y ≠ "" -> rest ≠ "" -> sub = y +:+ rest -> String.prefix rest t = false) ->
  x ≠ "" ->
  String.prefix sub (x +:+ t) = false.
Proof.
  revert x. induction sub as [|c sub IH]; intros x Hx Hrest Hne.
  - by destruct x.
  - destruct x as [|d x]; [done|]. simpl in *.
    destruct (Ascii.ascii_dec c d) as [->|?]; [|done].
    destruct x as [|e x].
    + simpl. destruct sub as [|c' sub']; [done|].
      apply (Hrest (String d "") (String c' sub')); done.
    + apply IH; [done| |done].
      intros y rest Hy Hr ->. apply (Hrest (String d y) rest); done.
Qed.

Lemma includes_app_false (sub x t : string) :
  includes x sub = false ->
  (∀ y rest, y ≠ "" -> rest ≠ "" -> sub = y +:+ rest -> String.prefix rest t = false) ->
  includes t sub = false ->
  includes (x +:+ t) sub = false.
Proof.
  intros Hx Hrest Ht. induction x as [|c x IH]; [done|].
  cbn [includes] in Hx. apply orb_false_iff in Hx as [Hp Hx].
  change (String c x +:+ t) with (String c (x +:+ t)). cbn [includes].
  rewrite (IH Hx), orb_false_r.
  by apply (prefix_app_false sub (String c x) t).
Qed.

Lemma includes_digits_false ds :
  allDigits ds = true -> includes ds "-creator" = false.
Proof.
  induction ds as [|c ds IH]; [done|]. cbn [allDigits includes].
  intros [Hc Hd]%andb_true_iff. rewrite (IH Hd), orb_false_r.
  destruct (String.prefix _ _) eqn:E; [|done].
  apply prefix_spec in E as [b [= -> _]]. done.
Qed.

Lemma joiner_suffix_no_overlap ds y rest :
  y ≠ "" -> rest ≠ "" -> "-creator" = y +:+ rest ->
  String.prefix rest ("-" +:+ ds) = false.
Proof.
  intros Hy Hr H.
  destruct y as [|c0 y]; [done|]. clear Hy.
  change (String c0 y +:+ rest) with (String c0 (y +:+ rest)) in H.
  injection H as _ H.
  do 7 (destruct y as [|c1 y];
        [change ("" +:+ rest) with rest in H; by subst rest
        |change (String c1 y +:+ rest) with (String c1 (y +:+ rest)) in H;
         injection H as _ H; clear c1]).
  destruct y; [|discriminate].
  change ("" +:+ rest) with rest in H. by subst rest.
Qed.

(** In a room whose id does not contain [-creator], the substring test
    tells the creator's id from a joiner's. *)
Lemma includes_joiner_id roomId ds :
  includes roomId "-creator" = false -> allDigits ds = true ->
  includes (roomId +:+ "-" +:+ ds) "-creator" = false.
Proof.
  intros Hroom Hd. apply includes_app_false; [done| |].
  - intros y rest. apply joiner_suffix_no_overlap.
  - change ("-" +:+ ds) with (String (Ascii.ascii_of_nat 45) ds).
    cbn [includes]. rewrite (includes_digits_false ds Hd), orb_false_r.
    destruct (String.prefix _ _) eqn:E; [|done].
    apply prefix_spec in E as [b [= ->]]. done.
Qed.

Lemma includes_creator_id roomId :
  includes (roomId +:+ "-creator") "-creator" = true.
Proof. apply includes_spec. by exists roomId, "". Qed.

(** A record appended by the [stream] handler of an outgoing call has its
    flag from the substring test. *)
Lemma handleRemoteStream_new r peerId call0 remoteStream w :
  existsb (fun p => String.eqb (Participant.id p) peerId) (participants w) = false ->
  participants (handleRemoteStream r peerId call0 remoteStream w)
  = (participants w ++
     [Participant.mk peerId (Render.localUsername r) remoteStream
        (includes peerId "-creator") None None None])%list.
Proof. intros H. unfold handleRemoteStream. simpl. by rewrite H. Qed.

(** C9, the code at a failing input. In the room [a-creator] the joiner
    id does not end in [-creator] and is not the creator's id, yet the
    record made for it, by the handler of an incoming call and by the
    handler of an outgoing one alike, has [isCreator = true]. *)
Theorem isCreator_true_for_joiner_of_creator_like_room :
  endsWith creatorLikeJoiner "-creator" = false ∧
  creatorLikeJoiner ≠ creatorLikeRoom +:+ "-creator" ∧
  participants
    (onCallStream creatorLikeRender creatorLikeJoiner (Some "Bob") 9
       creatorLikeWorld)
  = [Participant.mk creatorLikeJoiner "Bob" 9 true (Some false) (Some "camera")
       (Some connecting)] ∧
  participants
    (handleRemoteStream creatorLikeRender creatorLikeJoiner 11 9
       creatorLikeWorld)
  = [Participant.mk creatorLikeJoiner "host" 9 true None None None].
Proof. repeat split; try reflexivity. discriminate. Qed.

(** ** C7: a [peer-disconnect] message *)

Lemma on_forward_internal r data w :
  DataMessage.type data ∈ internalTypes -> on_forward r data w = w.
Proof.
  intros H. unfold on_forward; cbv zeta. rewrite bool_decide_eq_true_2 by done.
  by rewrite andb_false_r.
Qed.

Lemma onData_peer_disconnect r dataConn peer data w (X : string) :
  DataMessage.type data = "peer-disconnect" ->
  DataMessage.peerId data = Some X -> X ≠ "" ->
  onData r dataConn peer data w = handlePeerDisconnection r X w.
Proof.
  intros Hty HX HX0%String.eqb_neq. route Hty.
  rewrite on_forward_internal by (rewrite Hty; set_solver).
  unfold on_peer_disconnect; cbv zeta. rewrite Hty, HX. simpl.
  by rewrite HX0.
Qed.

(** What [handlePeerDisconnection] does to the registry and the
    transport: the entry goes, no transport call is made. *)
Lemma handlePeerDisconnection_registry r peerId w :
  connectionsRef (handlePeerDisconnection r peerId w)
  = delete peerId (connectionsRef w) ∧
  log (handlePeerDisconnection r peerId w) = log w ∧
  openData (handlePeerDisconnection r peerId w) = openData w.
Proof.
  unfold handlePeerDisconnection.
  destruct (Render.transitionsEnabled r); simpl;
    (destruct (connectionsRef w !! peerId) eqn:E; simpl;
     [done | by rewrite delete_id]).
Qed.

(** What it does to the participant list. *)
Lemma handlePeerDisconnection_participants r peerId w :
  if Render.transitionsEnabled r then
    timers (handlePeerDisconnection r peerId w)
    = (timers w ++ [(800%N, RemoveParticipant peerId)])%list ∧
    ∀ w', participants (fire r (RemoveParticipant peerId) w')
          = withoutParticipant peerId (participants w')
  else
    participants (handlePeerDisconnection r peerId w)
    = withoutParticipant peerId (participants w).
Proof.
  unfold handlePeerDisconnection.
  destruct (Render.transitionsEnabled r); simpl;
    destruct (connectionsRef w !! peerId); simpl; done.
Qed.

(** C7, what the code does. A [peer-disconnect] message naming the
    non-empty id [P] deletes the registry entry of [P] and removes the
    participant (at once, or through the 800 ms timer when transitions
    are on), but it makes no transport call: a channel the entry held is
    not closed, and a data channel that was open stays open. *)
Theorem peer_disconnect_deletes_entry_without_closing
    (r : Render.t) (dataConn : Chan) (peer : string) (data : DataMessage.t)
    (w : World) (P : string) :
  DataMessage.type data = "peer-disconnect" ->
  DataMessage.peerId data = Some P -> P ≠ "" ->
  let w' := onData r dataConn peer data w in
  connectionsRef w' !! P = None ∧
  log w' = log w ∧
  openData w' = openData w ∧
  (∀ p, p ∈ (if Render.transitionsEnabled r
             then participants (fire r (RemoveParticipant P) w')
             else participants w') ->
        Participant.id p ≠ P).
Proof.
  intros Hty HP HP0 w'. subst w'.
  rewrite (onData_peer_disconnect _ _ _ _ _ P) by done.
  destruct (handlePeerDisconnection_registry r P w) as (Hreg & Hlog & Hopen).
  rewrite Hreg, Hlog, Hopen. split; [apply lookup_delete_eq|].
  split; [done|]. split; [done|].
  pose proof (handlePeerDisconnection_participants r P w) as Hp.
  destruct (Render.transitionsEnabled r).
  - destruct Hp as [_ Hp]. rewrite Hp. unfold withoutParticipant.
    intros p [? _]%list_elem_of_filter. done.
  - rewrite Hp. unfold withoutParticipant.
    intros p [? _]%list_elem_of_filter. done.
Qed.

(** In [joinerWorld] the entry of [room-17] holds the media channel 1 and
    the open data channel 2; after the message the entry is gone, the
    log is empty and channel 2 is still open. *)
Lemma peer_disconnect_deletes_entry_without_closing_witness :
  connectionsRef joinerWorld !! "room-17" = Some (mkConn (Some 1) (Some 2)) ∧
  2 ∈ openData joinerWorld ∧
  let w' := onData (joinerRender [creatorP; guestP]) 4 "room-creator"
              disconnectMsg joinerWorld in
  connectionsRef w' !! "room-17" = None ∧
  log w' = log joinerWorld ∧
  openData w' = openData joinerWorld ∧
  (∀ p, p ∈ (if Render.transitionsEnabled (joinerRender [creatorP; guestP])
             then participants
                    (fire (joinerRender [creatorP; guestP])
                       (RemoveParticipant "room-17") w')
             else participants w') ->
        Participant.id p ≠ "room-17").
Proof.
  split; [reflexivity|]. split; [by vm_compute|].
  apply (peer_disconnect_deletes_entry_without_closing
           (joinerRender [creatorP; guestP]) 4 "room-creator" disconnectMsg
           joinerWorld "room-17");
    [reflexivity | reflexivity | discriminate].
Defined.

(** ** C2: switching to the star topology on a joiner *)

Lemma setTopology_step_registry w e :
  connectionsRef (setTopology_step w e)
  = (if includes e.1 "-creator" then connectionsRef w
     else delete e.1 (connectionsRef w)) ∧
  log (setTopology_step w e) = (log w ++ closesOf e)%list.
Proof.
  unfold setTopology_step, closesOf. destruct (includes e.1 "-creator").
  - by rewrite app_nil_r.
  - destruct e as [k [[m|] [d|]]]; simpl; by rewrite <- ?app_assoc, ?app_nil_r.
Qed.

Lemma foldl_setTopology_step_registry l w k :
  connectionsRef (foldl setTopology_step w l) !! k
  = if bool_decide (k ∈ l.*1) && negb (includes k "-creator")
    then None else connectionsRef w !! k.
Proof.
  revert w. induction l as [|e l IH]; intros w; [done|].
  cbn [foldl]. rewrite IH, fmap_cons.
  destruct (setTopology_step_registry w e) as [-> _].
  destruct (decide (k = e.1)) as [->|Hne].
  - rewrite (bool_decide_eq_true_2 (e.1 ∈ e.1 :: l.*1)) by set_solver.
    destruct (includes e.1 "-creator"); simpl.
    + by rewrite !andb_false_r.
    + rewrite lookup_delete_eq. by destruct (bool_decide _).
  - assert (bool_decide (k ∈ e.1 :: l.*1) = bool_decide (k ∈ l.*1)) as ->.
    { apply bool_decide_ext. set_solver. }
    destruct (_ && _); [done|].
    destruct (includes e.1 "-creator"); [done | by rewrite lookup_delete_ne].
Qed.

Lemma foldl_setTopology_step_log l w :
  log (foldl setTopology_step w l) = (log w ++ (l ≫= closesOf))%list.
Proof.
  revert w. induction l as [|e l IH]; intros w; simpl.
  - by rewrite app_nil_r.
  - rewrite IH. destruct (setTopology_step_registry w e) as [_ ->].
    by rewrite <- app_assoc.
Qed.

(** The registry side of the switch is as specified: on a joiner,
    [setTopology star] leaves exactly the entries whose key contains
    [-creator], and calls [close] on both channels of every other entry. *)
Lemma setTopology_star_registry r w :
  Render.isCreator r = false ->
  (∀ k, connectionsRef (setTopology r star w) !! k
        = if includes k "-creator" then connectionsRef w !! k else None) ∧
  (∀ k conn c,
     connectionsRef w !! k = Some conn -> includes k "-creator" = false ->
     mediaConnection conn = Some c ∨ dataConnection conn = Some c ->
     Close c ∈ log (setTopology r star w)).
Proof.
  intros Hr. unfold setTopology. rewrite Hr. simpl. split.
  - intros k. rewrite foldl_setTopology_step_registry. simpl.
    destruct (includes k "-creator"); simpl; [by rewrite andb_false_r|].
    rewrite andb_true_r. case_bool_decide as Hk; [done|].
    destruct (connectionsRef w !! k) as [conn|] eqn:E; [|done].
    destruct Hk. apply list_elem_of_fmap. exists (k, conn).
    split; [done | by apply elem_of_map_to_list].
  - intros k conn c Hk Hinc Hc. rewrite foldl_setTopology_step_log.
    apply elem_of_app. right. apply list_elem_of_bind. exists (k, conn).
    split; [|by apply elem_of_map_to_list].
    unfold closesOf. simpl. rewrite Hinc. apply elem_of_app.
    destruct Hc as [-> | ->]; [left | right]; simpl; apply list_elem_of_here.
Qed.

(** [establishPeerConnection r P] touches the registry entry of [P] only. *)
Lemma establishPeerConnection_other r P w Q :
  Q ≠ P ->
  connectionsRef (establishPeerConnection r P w) !! Q = connectionsRef w !! Q.
Proof.
  intros Hne. unfold establishPeerConnection.
  destruct (peerRef w) as [self|]; [|done].
  destruct (Render.localStream r) as [ls|]; [|done].
  destruct (String.eqb P self); [done|].
  destruct (bool_decide (is_Some (mediaOf w P))); [done|].
  destruct (bool_decide (is_Some (dataOf w P)));
    (destruct (bool_decide _); [done|]);
    unfold call, saveMedia; simpl; by rewrite lookup_insert_ne.
Qed.

Lemma participants_establishPeerConnection r P w :
  participants (establishPeerConnection r P w) = participants w.
Proof.
  unfold establishPeerConnection.
  destruct (peerRef w); [|done]. destruct (Render.localStream r); [|done].
  destruct (String.eqb P s); [done|].
  destruct (bool_decide (is_Some (mediaOf w P))); [done|].
  destruct (bool_decide (is_Some (dataOf w P)));
    by destruct (bool_decide _).
Qed.

Lemma disconnectNonCreator_effect k w :
  connectionsRef (disconnectNonCreator k w) = delete k (connectionsRef w) ∧
  participants (disconnectNonCreator k w) = withoutParticipant k (participants w).
Proof.
  unfold disconnectNonCreator. simpl.
  by destruct (mediaOf w k), (dataOf _ k).
Qed.

Lemma foldl_disconnectNonCreator l w :
  let w' := foldl (fun w k => disconnectNonCreator k w) w l in
  (∀ k, connectionsRef w' !! k
        = if bool_decide (k ∈ l) then None else connectionsRef w !! k) ∧
  (∀ p, p ∈ participants w' ↔ p ∈ participants w ∧ Participant.id p ∉ l).
Proof.
  cbv zeta. revert w. induction l as [|x l IH]; intros w; cbn [foldl].
  - split; [done|]. intros p. split; [|by intros [? _]].
    intros ?. split; [done|]. apply not_elem_of_nil.
  - destruct (IH (disconnectNonCreator x w)) as [Hr Hp].
    destruct (disconnectNonCreator_effect x w) as [Hr1 Hp1].
    split.
    + intros k. rewrite Hr, Hr1.
      destruct (decide (k = x)) as [->|Hne].
      * rewrite (bool_decide_eq_true_2 (x ∈ x :: l)) by set_solver.
        rewrite lookup_delete_eq. by destruct (bool_decide _).
      * rewrite lookup_delete_ne by done.
        apply (f_equal (fun b : bool => if b then None else connectionsRef w !! k)).
        apply bool_decide_ext. set_solver.
    + intros p. rewrite Hp, Hp1. unfold withoutParticipant.
      rewrite list_elem_of_filter. set_solver.
Qed.

(** The star teardown of [handlePeerList] on a joiner does both sides:
    afterwards the registry has no key without [-creator], and no
    participant is left for a non-creator id that had a registry entry. *)
Lemma handlePeerList_star_teardown r peers w self ls :
  peerRef w = Some self -> Render.localStream r = Some ls ->
  Render.networkTopology r = star -> Render.isCreator r = false ->
  let w' := handlePeerList r peers w in
  (∀ k, includes k "-creator" = false -> connectionsRef w' !! k = None) ∧
  (∀ p, p ∈ participants w' ->
        includes (Participant.id p) "-creator" = false ->
        connectionsRef w !! Participant.id p = None).
Proof.
  intros Hp Hs Ht Hc. cbv zeta. unfold handlePeerList.
  rewrite Hp, Hs, Ht, Hc. cbn [negb].
  set (w1 := foldl _ w peers).
  assert ((∀ k, includes k "-creator" = false ->
                connectionsRef w1 !! k = connectionsRef w !! k) ∧
          participants w1 = participants w) as [Hreg Hpart].
  { subst w1. clear Hp. revert w.
    induction peers as [|x l IH]; intros w; [by split|].
    cbn [foldl].
    set (wx := if String.eqb x self then w else _).
    destruct (IH wx) as [IHr IHp].
    assert ((∀ k, includes k "-creator" = false ->
                  connectionsRef wx !! k = connectionsRef w !! k) ∧
            participants wx = participants w) as [Hx1 Hx2].
    { subst wx. destruct (String.eqb x self); [by split|].
      destruct (includes x "-creator") eqn:Hi; [|by split]. cbn [negb andb].
      destruct (isOpen w (dataOf w x) && bool_decide (is_Some (mediaOf w x)));
        [split; [intros; reflexivity | reflexivity]|]. split.
      - intros k Hk. apply establishPeerConnection_other. by intros ->; congruence.
      - apply participants_establishPeerConnection. }
    split.
    - intros k Hk. by rewrite IHr, Hx1.
    - by rewrite IHp. }
  destruct (foldl_disconnectNonCreator
              (filter (fun id => includes id "-creator" = false)
                      (map_to_list (connectionsRef w1)).*1) w1) as [Hr Hq].
  split.
  - intros k Hk. rewrite Hr. case_bool_decide as Hin; [done|].
    destruct (connectionsRef w1 !! k) as [conn|] eqn:E; [|done].
    destruct Hin. apply list_elem_of_filter. split; [done|].
    apply list_elem_of_fmap. exists (k, conn).
    split; [done | by apply elem_of_map_to_list].
  - intros p [Hin Hnot]%Hq Hk. rewrite <- Hreg by done.
    destruct (connectionsRef w1 !! Participant.id p) as [conn|] eqn:E; [|done].
    destruct Hnot. apply list_elem_of_filter. split; [done|].
    apply list_elem_of_fmap. exists (Participant.id p, conn).
    split; [done | by apply elem_of_map_to_list].
Qed.

(** C2, the code at a failing input. A joiner holds a connection to the
    creator and one to the joiner [room-17], with a participant for
    each. [setTopology star] closes both channels of [room-17] and
    deletes its entry, but the participant list it leaves is [room-17]
    alone: the non-creator participant stays and the creator's record is
    dropped. The star teardown of [handlePeerList] on the same world
    removes the participant of [room-17] and keeps the creator's. *)
Theorem setTopology_star_keeps_non_creator_participant :
  let w' := setTopology (joinerRender [creatorP; guestP]) star joinerWorld in
  map_to_list (connectionsRef w')
  = [("room-creator", mkConn (Some 3) (Some 4))] ∧
  log w' = [Close 1; Close 2] ∧
  participants w' = [guestP] ∧
  participants
    (handlePeerList (starRender [creatorP; guestP])
       ["room-creator"; "room-42"; "room-17"] joinerWorld)
  = [creatorP].
Proof. vm_compute. repeat split; reflexivity. Qed.

(** ** C5: [establishPeerConnection] twice in a row *)

Lemma mediaOf_saveMedia peerId m w :
  mediaOf (saveMedia peerId m w) peerId = m.
Proof. unfold mediaOf, saveMedia. simpl. by rewrite lookup_insert_eq. Qed.

Lemma mediaOf_setTimeout ms a w peerId :
  mediaOf (setTimeout ms a w) peerId = mediaOf w peerId.
Proof. reflexivity. Qed.

(** Once [establishPeerConnection] got past its guards, the registry has
    a media channel for the peer. *)
Lemma establishPeerConnection_media r peerId w self localStream :
  peerRef w = Some self -> Render.localStream r = Some localStream ->
  peerId ≠ self ->
  is_Some (mediaOf (establishPeerConnection r peerId w) peerId).
Proof.
  intros Hp Hs Hne%String.eqb_neq. unfold establishPeerConnection.
  rewrite Hp, Hs, Hne.
  destruct (decide (is_Some (mediaOf w peerId))) as [Hm|Hm].
  { by rewrite bool_decide_eq_true_2. }
  rewrite (bool_decide_eq_false_2 _ Hm).
  assert (∀ w1, mediaOf (connect peerId w1).2 peerId = mediaOf w1 peerId)
    as Hconn by done.
  destruct (bool_decide (is_Some (dataOf w peerId))).
  - rewrite (bool_decide_eq_false_2 _ Hm). unfold call. cbv beta iota zeta.
    rewrite mediaOf_setTimeout, mediaOf_saveMedia. by eexists.
  - rewrite bool_decide_eq_false_2 by (by rewrite Hconn).
    unfold call. cbv beta iota zeta.
    rewrite mediaOf_setTimeout, mediaOf_saveMedia. by eexists.
Qed.

Lemma establishPeerConnection_unregistered r peerId w :
  peerRef w = None -> establishPeerConnection r peerId w = w.
Proof. intros H. unfold establishPeerConnection. by rewrite H. Qed.

Lemma establishPeerConnection_no_stream r peerId w :
  Render.localStream r = None -> establishPeerConnection r peerId w = w.
Proof.
  intros H. unfold establishPeerConnection. rewrite H. by destruct (peerRef w).
Qed.

Lemma establishPeerConnection_self r self w :
  peerRef w = Some self -> establishPeerConnection r self w = w.
Proof.
  intros H. unfold establishPeerConnection. rewrite H, String.eqb_refl.
  by destruct (Render.localStream r).
Qed.

(** The second of two calls in a row does nothing, whatever the world. *)
Lemma establishPeerConnection_idempotent r peerId w :
  establishPeerConnection r peerId (establishPeerConnection r peerId w)
  = establishPeerConnection r peerId w.
Proof.
  destruct (peerRef w) as [self|] eqn:Hp;
    [|by rewrite !(establishPeerConnection_unregistered r peerId w Hp)].
  destruct (Render.localStream r) as [localStream|] eqn:Hs;
    [|by rewrite !(establishPeerConnection_no_stream r peerId w Hs)].
  destruct (String.eqb_spec peerId self) as [->|Hne].
  { by rewrite !(establishPeerConnection_self r self w Hp). }
  pose proof (establishPeerConnection_media r peerId w self localStream
                Hp Hs Hne) as Hm.
  assert (peerRef (establishPeerConnection r peerId w) = Some self) as Hp'.
  { unfold establishPeerConnection. rewrite Hp, Hs.
    by repeat (case_match; simpl; try done). }
  unfold establishPeerConnection at 1. rewrite Hp', Hs.
  apply String.eqb_neq in Hne. rewrite Hne.
  by rewrite bool_decide_eq_true_2.
Qed.

(** C5. With the peer registered, a local stream at hand, [P] not the
    own id and no media channel to [P] in the registry, two calls of
    [establishPeerConnection r P] in a row leave the world the first
    call left: the second is a no-op. Over both calls the transport was
    asked for one media channel to [P], for one data channel to [P]
    unless the registry already had one, and for nothing else; the
    registry holds that media channel and the data channel it had. *)
Theorem establishPeerConnection_twice_one_channel_each
    (r : Render.t) (P : string) (w : World) (self : string) (localStream : Stream) :
  peerRef w = Some self -> Render.localStream r = Some localStream ->
  P ≠ self -> mediaOf w P = None ->
  let w1 := establishPeerConnection r P w in
  let w2 := establishPeerConnection r P w1 in
  let c := (nextChan w + length (controlChannelFor w P))%nat in
  w2 = w1 ∧
  log w2 = (log w ++ controlChannelFor w P ++ [Call c P localStream])%list ∧
  connectionsRef w2 !! P = Some (mkConn (Some c) (dataOf w P)).
Proof.
  intros Hp Hs Hne Hm w1 w2 c. subst w1 w2 c.
  rewrite establishPeerConnection_idempotent. split; [done|].
  apply String.eqb_neq in Hne.
  assert (∀ e n w0, dataOf (emit e (set_nextChan n w0)) P = dataOf w0 P)
    as Hframe by done.
  unfold establishPeerConnection, controlChannelFor. rewrite Hp, Hs, Hne, Hm.
  rewrite (bool_decide_eq_false_2 (is_Some None)) by (by intros [? [=]]).
  destruct (dataOf w P) as [d|] eqn:Hd.
  - rewrite (bool_decide_eq_true_2 (is_Some (Some d))) by eauto.
    rewrite Hm, (bool_decide_eq_false_2 (is_Some None)) by (by intros [? [=]]).
    unfold call, saveMedia. cbv beta iota zeta.
    cbn [fst snd log connectionsRef setTimeout set_timers set_connectionsRef
         emit set_nextChan length app].
    by rewrite Hframe, Hd, lookup_insert_eq, Nat.add_0_r.
  - rewrite (bool_decide_eq_false_2 (is_Some None)) by (by intros [? [=]]).
    assert (mediaOf (connect P w).2 P = None) as -> by done.
    rewrite (bool_decide_eq_false_2 (is_Some None)) by (by intros [? [=]]).
    unfold call, connect, saveMedia. cbv beta iota zeta.
    cbn [fst snd log connectionsRef setTimeout set_timers set_connectionsRef
         emit set_nextChan nextChan length app].
    by rewrite !Hframe, Hd, lookup_insert_eq, Nat.add_1_r, <- app_assoc.
Qed.

Lemma establishPeerConnection_twice_one_channel_each_witness :
  let r := joinerRender [creatorP; guestP] in
  let w1 := establishPeerConnection r "room-99" joinerWorld in
  let w2 := establishPeerConnection r "room-99" w1 in
  let c := (nextChan joinerWorld
            + length (controlChannelFor joinerWorld "room-99"))%nat in
  w2 = w1 ∧
  log w2 = (log joinerWorld ++ controlChannelFor joinerWorld "room-99"
            ++ [Call c "room-99" 1])%list ∧
  connectionsRef w2 !! "room-99"
  = Some (mkConn (Some c) (dataOf joinerWorld "room-99")).
Proof.
  apply (establishPeerConnection_twice_one_channel_each
           (joinerRender [creatorP; guestP]) "room-99" joinerWorld "room-42" 1);
    [reflexivity | reflexivity | discriminate | reflexivity].
Defined.

(** ** Steps that leave the channels alone *)

Lemma keepsChannels_refl w : keepsChannels w w.
Proof.
  repeat split; try done. exists []. rewrite app_nil_r. split; [done|].
  intros c. apply not_elem_of_nil.
Qed.

Lemma keepsChannels_trans w1 w2 w3 :
  keepsChannels w1 w2 -> keepsChannels w2 w3 -> keepsChannels w1 w3.
Proof.
  intros (Hr1 & Ho1 & Hp1 & (es1 & Hl1 & Hc1) & Hn1)
         (Hr2 & Ho2 & Hp2 & (es2 & Hl2 & Hc2) & Hn2).
  repeat split; try congruence; [|lia].
  exists (es1 ++ es2)%list. split.
  - by rewrite Hl2, Hl1, app_assoc.
  - intros c [?|?]%elem_of_app; [by apply (Hc1 c) | by apply (Hc2 c)].
Qed.

Lemma keepsChannels_close_log w w' c :
  keepsChannels w w' -> Close c ∈ log w' -> Close c ∈ log w.
Proof.
  intros (_ & _ & _ & (es & Hl & Hc) & _). rewrite Hl.
  intros [?|?]%elem_of_app; [done | by destruct (Hc c)].
Qed.

Lemma keepsChannels_log_mono w w' e :
  keepsChannels w w' -> e ∈ log w -> e ∈ log w'.
Proof.
  intros (_ & _ & _ & (es & Hl & _) & _) He. rewrite Hl.
  apply elem_of_app. by left.
Qed.

Lemma keepsChannels_addLog es w :
  (∀ c, Close c ∉ es) -> keepsChannels w (addLog es w).
Proof. intros H. repeat split; try done. by exists es. Qed.

(** A step that only touches React state or timers. *)
Lemma keepsChannels_quiet w w' :
  connectionsRef w' = connectionsRef w -> openData w' = openData w ->
  peerRef w' = peerRef w -> log w' = log w -> nextChan w' = nextChan w ->
  keepsChannels w w'.
Proof.
  intros Hr Ho Hp Hl Hn. repeat split; try done; [|lia].
  exists []. rewrite app_nil_r. split; [done|]. intros c. apply not_elem_of_nil.
Qed.

Lemma keepsChannels_sendIfOpen c m w : keepsChannels w (sendIfOpen c m w).
Proof.
  rewrite sendIfOpen_addLog. apply keepsChannels_addLog.
  intros d (? & _ & _ & [=])%elem_of_sendTo.
Qed.

Lemma keepsChannels_sendDataToAll data w : keepsChannels w (sendDataToAll data w).
Proof.
  rewrite sendDataToAll_addLog. apply keepsChannels_addLog.
  intros d (_ & ? & ? & ? & _ & _ & _ & [=])%elem_of_broadcastOf.
Qed.

Lemma keepsChannels_call to s w : keepsChannels w (call to s w).2.
Proof.
  unfold call. simpl. repeat split; try done; [|simpl; lia].
  exists [Call (nextChan w) to s]. split; [done|].
  intros c [=]%list_elem_of_singleton.
Qed.

Lemma keepsChannels_connect to w : keepsChannels w (connect to w).2.
Proof.
  unfold connect. simpl. repeat split; try done; [|simpl; lia].
  exists [Connect (nextChan w) to]. split; [done|].
  intros c [=]%list_elem_of_singleton.
Qed.

Lemma keepsChannels_setParticipantTransition peerId state w :
  keepsChannels w (setParticipantTransition peerId state w).
Proof. apply keepsChannels_quiet; by destruct state. Qed.

Lemma keepsChannels_foldl {A} (f : World -> A -> World) (l : list A) w :
  (∀ w x, keepsChannels w (f w x)) -> keepsChannels w (foldl f w l).
Proof.
  intros Hf. revert w. induction l as [|x l IH]; intros w; simpl.
  - apply keepsChannels_refl.
  - eapply keepsChannels_trans; [apply Hf | apply IH].
Qed.

(** ** C1: starting a screen share *)

Section ShareLoop.
Variables (r : Render.t) (self : string) (stream : Stream).

Lemma shareWith_keeps acc p :
  keepsChannels acc.2 (shareWith r self stream acc p).2.
Proof.
  unfold shareWith. destruct (String.eqb _ self); [apply keepsChannels_refl|].
  simpl. eapply keepsChannels_trans;
    [apply keepsChannels_call | apply keepsChannels_sendIfOpen].
Qed.

Lemma shareWith_calls lo acc p :
  (lo ≤ nextChan acc.2)%nat -> screenCallsFrom stream lo acc ->
  screenCallsFrom stream lo (shareWith r self stream acc p).
Proof.
  intros Hlo Hacc. unfold shareWith.
  destruct (String.eqb _ self); [done|].
  intros P c. simpl. rewrite sendIfOpen_addLog. simpl.
  destruct (decide (P = Participant.id p)) as [->|Hne].
  - rewrite lookup_insert_eq. intros [= <-]. split; [done|]. split; [lia|].
    apply elem_of_app. left. apply elem_of_app. right. apply list_elem_of_here.
  - rewrite lookup_insert_ne by done. intros (? & ? & ?)%Hacc.
    split; [done|]. split; [lia|]. apply elem_of_app. left.
    apply elem_of_app. by left.
Qed.

Lemma shareWith_covers acc p :
  (∀ P, is_Some (acc.1 !! P) -> is_Some ((shareWith r self stream acc p).1 !! P)) ∧
  (Participant.id p ≠ self ->
   is_Some ((shareWith r self stream acc p).1 !! Participant.id p)).
Proof.
  unfold shareWith.
  destruct (String.eqb_spec (Participant.id p) self) as [E|E]; simpl.
  - done.
  - split.
    + intros P HP. destruct (decide (P = Participant.id p)) as [->|Hne].
      * rewrite lookup_insert_eq. by eexists.
      * by rewrite lookup_insert_ne.
    + intros _. rewrite lookup_insert_eq. by eexists.
Qed.

Lemma foldl_shareWith lo l acc :
  (lo ≤ nextChan acc.2)%nat -> screenCallsFrom stream lo acc ->
  let res := foldl (shareWith r self stream) acc l in
  keepsChannels acc.2 res.2 ∧ screenCallsFrom stream lo res ∧
  (∀ P, is_Some (acc.1 !! P) -> is_Some (res.1 !! P)) ∧
  (∀ p, p ∈ l -> Participant.id p ≠ self -> is_Some (res.1 !! Participant.id p)).
Proof.
  revert acc. induction l as [|p l IH]; intros acc Hlo Hacc; simpl.
  - split; [apply keepsChannels_refl|]. split; [done|]. split; [done|].
    intros p []%elem_of_nil.
  - pose proof (shareWith_keeps acc p) as Hk.
    pose proof (shareWith_calls lo acc p Hlo Hacc) as Hc.
    destruct (shareWith_covers acc p) as [Hmono Hnew].
    assert (lo ≤ nextChan (shareWith r self stream acc p).2)%nat as Hlo'.
    { destruct Hk as (_ & _ & _ & _ & ?). lia. }
    destruct (IH _ Hlo' Hc) as (Hk' & Hc' & Hmono' & Hcov').
    split; [by eapply keepsChannels_trans|]. split; [done|].
    split; [by intros P HP; apply Hmono', Hmono|].
    intros q [->|Hq]%elem_of_cons Hne.
    + by apply Hmono', Hnew.
    + by apply Hcov'.
Qed.

Lemma shareWith_only acc p :
  (∀ P, is_Some ((shareWith r self stream acc p).1 !! P) ->
        is_Some (acc.1 !! P) ∨ (P ≠ self ∧ Participant.id p = P)) ∧
  (∀ c P s, Call c P s ∈ log (shareWith r self stream acc p).2 ->
            Call c P s ∈ log acc.2 ∨
            (s = stream ∧ P ≠ self ∧ Participant.id p = P)).
Proof.
  unfold shareWith.
  destruct (String.eqb_spec (Participant.id p) self) as [E|E]; [by split; auto|].
  cbn [call fst snd]. rewrite sendIfOpen_addLog. split.
  - intros P HP. destruct (decide (P = Participant.id p)) as [->|Hne]; [by right|].
    rewrite lookup_insert_ne in HP by done. by left.
  - intros c P s. cbn [addLog log emit set_nextChan].
    intros [[Hin|Hin]%elem_of_app|Hin]%elem_of_app.
    + by left.
    + apply list_elem_of_singleton in Hin as [= -> -> ->]. by right.
    + apply elem_of_sendTo in Hin as (d & _ & _ & [=]).
Qed.

Lemma foldl_shareWith_only l acc :
  let res := foldl (shareWith r self stream) acc l in
  (∀ P, is_Some (res.1 !! P) ->
        is_Some (acc.1 !! P) ∨
        (P ≠ self ∧ ∃ p, p ∈ l ∧ Participant.id p = P)) ∧
  (∀ c P s, Call c P s ∈ log res.2 ->
            Call c P s ∈ log acc.2 ∨
            (s = stream ∧ P ≠ self ∧ ∃ p, p ∈ l ∧ Participant.id p = P)).
Proof.
  cbv zeta. revert acc. induction l as [|p l IH]; intros acc; cbn [foldl].
  - split; auto.
  - destruct (IH (shareWith r self stream acc p)) as [Hk Hc].
    destruct (shareWith_only acc p) as [Hk1 Hc1]. split.
    + intros P [HP|(Hne & q & Hq & Hid)]%Hk.
      * apply Hk1 in HP as [HP|[Hne Hid]]; [by left|].
        right. split; [done|]. exists p. split; [by left|done].
      * right. split; [done|]. exists q. split; [by right|done].
    + intros c P s [HP|(-> & Hne & q & Hq & Hid)]%Hc.
      * apply Hc1 in HP as [HP|(-> & Hne & Hid)]; [by left|].
        right. split; [done|]. split; [done|]. exists p. split; [by left|done].
      * right. split; [done|]. split; [done|]. exists q. split; [by right|done].
Qed.
End ShareLoop.

(** Whatever the outcome, [startScreenShare] leaves the registry alone
    and closes nothing. *)
Lemma startScreenShare_keepsChannels r capture w :
  keepsChannels w (startScreenShare r capture w).
Proof.
  unfold startScreenShare.
  destruct (peerRef w) as [self|]; [|apply keepsChannels_refl].
  destruct capture as [stream|]; [|by apply keepsChannels_quiet].
  set (w1 := sendDataToAll _ w). set (w2 := sendDataToAll _ w1).
  set (w3 := setIsScreenSharing true (setScreenStream (Some stream) w2)).
  assert (keepsChannels w w3) as H3.
  { eapply keepsChannels_trans; [apply keepsChannels_sendDataToAll|].
    eapply keepsChannels_trans; [apply keepsChannels_sendDataToAll|].
    by apply keepsChannels_quiet. }
  destruct (foldl_shareWith r self stream (nextChan w3) (Render.participants r)
              (∅, w3)) as (H4 & _); [done | by intros P c ?|].
  destruct (foldl _ (∅, w3) _) as [screenConns w4]. simpl in H4.
  assert (keepsChannels w (set_screenConnections (Some screenConns) w4)) as H5.
  { eapply keepsChannels_trans; [exact H3|].
    eapply keepsChannels_trans; [exact H4|]. by apply keepsChannels_quiet. }
  destruct (Render.transitionsEnabled r); [|done].
  eapply keepsChannels_trans; [exact H5|].
  apply keepsChannels_foldl. intros w' x.
  apply keepsChannels_setParticipantTransition.
Qed.

Lemma screenConnections_foldl_transition {A} (f : A -> string) (l : list A) w :
  screenConnections
    (foldl (fun w p => setParticipantTransition (f p) reconnecting w) w l)
  = screenConnections w.
Proof. revert w. induction l as [|x l IH]; intros w; simpl; [done|]. by rewrite IH. Qed.

Lemma foldl_transition_log {A} (f : A -> string) (l : list A) w :
  log (foldl (fun w p => setParticipantTransition (f p) reconnecting w) w l)
  = log w.
Proof. revert w. induction l as [|x l IH]; intros w; simpl; [done|]. by rewrite IH. Qed.

(** C1 (amended). Let the peer be registered and the screen capture
    succeed. After [startScreenShare] the connection registry is the one
    from before, entry for entry, so every peer keeps the media-channel
    object it had, and no [close] was called on any channel. For every
    participant of the list the render captured, other than the own id,
    a channel carrying the screen stream was opened to it and is kept,
    under the peer id, in the separate [screenConnections] object; that
    channel is one the transport had not handed out before, hence none
    of the registry's. Those are the only screen channels: every key of
    [screenConnections] is a captured participant other than the own
    id, and every call placed goes to one of them, with the screen
    stream. *)
Theorem startScreenShare_keeps_primary_channels
    (r : Render.t) (stream : Stream) (w : World) (self : string) :
  peerRef w = Some self ->
  let w' := startScreenShare r (Some stream) w in
  connectionsRef w' = connectionsRef w ∧
  (∀ c, Close c ∈ log w' -> Close c ∈ log w) ∧
  ∃ screenConns,
    screenConnections w' = Some screenConns ∧
    (∀ p, p ∈ Render.participants r -> Participant.id p ≠ self ->
          ∃ c, screenConns !! Participant.id p = Some c ∧
               (nextChan w ≤ c)%nat ∧
               Call c (Participant.id p) stream ∈ log w') ∧
    (∀ P, is_Some (screenConns !! P) ->
          P ≠ self ∧ ∃ p, p ∈ Render.participants r ∧ Participant.id p = P) ∧
    (∀ c P s, Call c P s ∈ log w' ->
              Call c P s ∈ log w ∨
              (s = stream ∧ P ≠ self ∧
               ∃ p, p ∈ Render.participants r ∧ Participant.id p = P)).
Proof.
  intros Hp w'. subst w'.
  pose proof (startScreenShare_keepsChannels r (Some stream) w) as Hk.
  split; [by destruct Hk|].
  split; [by intros c; apply keepsChannels_close_log|].
  clear Hk. unfold startScreenShare. rewrite Hp.
  set (w1 := sendDataToAll _ w). set (w2 := sendDataToAll _ w1).
  set (w3 := setIsScreenSharing true (setScreenStream (Some stream) w2)).
  assert (keepsChannels w w3) as H3.
  { eapply keepsChannels_trans; [apply keepsChannels_sendDataToAll|].
    eapply keepsChannels_trans; [apply keepsChannels_sendDataToAll|].
    by apply keepsChannels_quiet. }
  assert (∀ c P s, Call c P s ∈ log w3 -> Call c P s ∈ log w) as Hsends.
  { intros c P s. subst w3 w2 w1. rewrite !sendDataToAll_addLog.
    cbn [log setIsScreenSharing setScreenStream addLog].
    intros [[Hin|Hin]%elem_of_app|Hin]%elem_of_app; [done| |];
      apply elem_of_broadcastOf in Hin as (_ & ? & ? & ? & _ & _ & _ & [=]). }
  destruct (foldl_shareWith r self stream (nextChan w3) (Render.participants r)
              (∅, w3)) as (H4 & Hcalls & _ & Hcov); [done | by intros P c ?|].
  destruct (foldl_shareWith_only r self stream (Render.participants r) (∅, w3))
    as (Hkeys & Honly).
  destruct (foldl _ (∅, w3) _) as [screenConns w4].
  unfold screenCallsFrom in Hcalls. cbn [fst snd] in *.
  exists screenConns.
  assert (∀ p, p ∈ Render.participants r -> Participant.id p ≠ self ->
               ∃ c, screenConns !! Participant.id p = Some c ∧
                    (nextChan w ≤ c)%nat ∧
                    Call c (Participant.id p) stream ∈ log w4) as Hall.
  { intros p Hin Hne. destruct (Hcov p Hin Hne) as [c Hc]. exists c.
    destruct (Hcalls _ _ Hc) as (? & _ & ?). split; [done|]. split; [|done].
    destruct H3 as (_ & _ & _ & _ & ?). lia. }
  assert (∀ P, is_Some (screenConns !! P) ->
               P ≠ self ∧ ∃ p, p ∈ Render.participants r ∧ Participant.id p = P)
    as Hkeys'.
  { intros P [HP|HP]%Hkeys; [|done].
    rewrite lookup_empty in HP. by destruct HP. }
  assert (∀ c P s, Call c P s ∈ log w4 ->
                   Call c P s ∈ log w ∨
                   (s = stream ∧ P ≠ self ∧
                    ∃ p, p ∈ Render.participants r ∧ Participant.id p = P))
    as Honly'.
  { intros c P s [Hin|Hin]%Honly; [left; by apply Hsends | by right]. }
  destruct (Render.transitionsEnabled r).
  - rewrite screenConnections_foldl_transition, foldl_transition_log.
    by cbn [screenConnections log set_screenConnections].
  - by cbn [screenConnections log set_screenConnections].
Qed.

Lemma startScreenShare_keeps_primary_channels_witness :
  let r := joinerRender [creatorP; guestP] in
  let w' := startScreenShare r (Some 8) joinerWorld in
  connectionsRef w' = connectionsRef joinerWorld ∧
  (∀ c, Close c ∈ log w' -> Close c ∈ log joinerWorld) ∧
  ∃ screenConns,
    screenConnections w' = Some screenConns ∧
    (∀ p, p ∈ Render.participants r -> Participant.id p ≠ "room-42" ->
          ∃ c, screenConns !! Participant.id p = Some c ∧
               (nextChan joinerWorld ≤ c)%nat ∧
               Call c (Participant.id p) 8 ∈ log w') ∧
    (∀ P, is_Some (screenConns !! P) ->
          P ≠ "room-42" ∧ ∃ p, p ∈ Render.participants r ∧ Participant.id p = P) ∧
    (∀ c P s, Call c P s ∈ log w' ->
              Call c P s ∈ log joinerWorld ∨
              (s = 8 ∧ P ≠ "room-42" ∧
               ∃ p, p ∈ Render.participants r ∧ Participant.id p = P)).
Proof.
  apply (startScreenShare_keeps_primary_channels
           (joinerRender [creatorP; guestP]) 8 joinerWorld "room-42").
  reflexivity.
Defined.

(** C1 as stated fails: the screen channels go to the captured
    participants, not to the peers of the registry. After the switch to
    star mode the joiner still holds its primary media channel to the
    creator (channel 3, never closed), but the creator has no record in
    the participant list. [startScreenShare], created by the render of
    that state, places one call, to [room-17]: no screen channel is
    opened to the creator and [screenConnections] has no key for it. *)
Lemma startScreenShare_unlisted_peer_counterexample :
  let r := starRender (participants afterStarSwitch) in
  let w' := startScreenShare r (Some 8) afterStarSwitch in
  mediaOf afterStarSwitch "room-creator" = Some 3 ∧
  Close 3 ∉ log afterStarSwitch ∧
  Render.participants r = [guestP] ∧
  mediaOf w' "room-creator" = Some 3 ∧
  (∃ screenConns, screenConnections w' = Some screenConns ∧
                  screenConns !! "room-creator" = None) ∧
  ¬ (∃ c s, Call c "room-creator" s ∈ log w').
Proof.
  intros r w'.
  assert (log afterStarSwitch = [Close 1; Close 2]) as Hlog0 by (by vm_compute).
  assert (∃ m1 m2, log w' = [Close 1; Close 2; Send 4 m1; Send 4 m2;
                             Call 10 "room-17" 8])
    as (m1 & m2 & Hlog).
  { do 2 eexists. vm_compute. reflexivity. }
  split; [by vm_compute|].
  split.
  { rewrite Hlog0. intros H.
    repeat (apply elem_of_cons in H as [H|H]; [discriminate H|]).
    by apply elem_of_nil in H. }
  split; [by vm_compute|].
  split; [by vm_compute|].
  split.
  { eexists. split; [vm_compute; reflexivity|]. by vm_compute. }
  rewrite Hlog. intros (c & s & H).
  repeat (apply elem_of_cons in H as [H|H]; [discriminate H|]).
  by apply elem_of_nil in H.
Qed.

(** The late-joiner path is another matter: when a data channel opens
    while the local node shares, the 500 ms timer of [onDataOpen] calls
    the new peer with the screen stream and stores that call as the
    [mediaConnection] of the peer's registry entry. *)
Lemma shareScreenWithNewParticipant_stores_screen_call r peer dataConn w s self :
  Render.screenStream r = Some s -> peerRef w = Some self ->
  mediaOf (shareScreenWithNewParticipant r peer dataConn w) peer
  = Some (nextChan w).
Proof.
  intros Hs Hp. unfold shareScreenWithNewParticipant. rewrite Hs, Hp.
  unfold mediaOf. simpl. by rewrite lookup_insert_eq.
Qed.

(** ** C3: stopping a screen share *)

Lemma repairs_refl w : repairs w w.
Proof.
  repeat split; try done. exists []. rewrite app_nil_r. split; [done|].
  intros c. apply not_elem_of_nil.
Qed.

Lemma repairs_trans w1 w2 w3 : repairs w1 w2 -> repairs w2 w3 -> repairs w1 w3.
Proof.
  intros (Ho1 & Hp1 & (es1 & Hl1 & Hc1) & Hd1 & Hn1)
         (Ho2 & Hp2 & (es2 & Hl2 & Hc2) & Hd2 & Hn2).
  split; [congruence|]. split; [congruence|]. split; [|split; [|lia]].
  - exists (es1 ++ es2)%list. split.
    + by rewrite Hl2, Hl1, app_assoc.
    + intros c [?|?]%elem_of_app; [by apply (Hc1 c) | by apply (Hc2 c)].
  - intros Q. by rewrite Hd2, Hd1.
Qed.

Lemma keepsChannels_repairs w w' : keepsChannels w w' -> repairs w w'.
Proof.
  intros (Hr & Ho & Hp & Hl & Hn). repeat split; try done.
  intros Q. unfold dataOf. by rewrite Hr.
Qed.

Lemma repairs_close_log w w' c : repairs w w' -> Close c ∈ log w' -> Close c ∈ log w.
Proof.
  intros (_ & _ & (es & Hl & Hc) & _). rewrite Hl.
  intros [?|?]%elem_of_app; [done | by destruct (Hc c)].
Qed.

Lemma repairs_log_mono w w' e : repairs w w' -> e ∈ log w -> e ∈ log w'.
Proof.
  intros (_ & _ & (es & Hl & _) & _) He. rewrite Hl. apply elem_of_app. by left.
Qed.

Lemma dataOf_saveMedia peerId m w Q :
  dataOf (saveMedia peerId m w) Q = dataOf w Q.
Proof.
  unfold dataOf at 1, saveMedia. simpl.
  destruct (decide (Q = peerId)) as [->|Hne].
  - by rewrite lookup_insert_eq.
  - by rewrite lookup_insert_ne.
Qed.

Lemma repairs_saveMedia peerId m w : repairs w (saveMedia peerId m w).
Proof.
  repeat split; try done.
  - exists []. rewrite app_nil_r. split; [done|]. intros c. apply not_elem_of_nil.
  - intros Q. apply dataOf_saveMedia.
Qed.

Lemma establishPeerConnection_repairs r P w :
  repairs w (establishPeerConnection r P w).
Proof.
  unfold establishPeerConnection.
  destruct (peerRef w) as [self|]; [|apply repairs_refl].
  destruct (Render.localStream r) as [ls|]; [|apply repairs_refl].
  destruct (String.eqb P self); [apply repairs_refl|].
  destruct (bool_decide (is_Some (mediaOf w P))); [apply repairs_refl|].
  set (w1 := if bool_decide (is_Some (dataOf w P)) then w else (connect P w).2).
  assert (repairs w w1) as H1.
  { subst w1. destruct (bool_decide _); [apply repairs_refl|].
    apply keepsChannels_repairs, keepsChannels_connect. }
  destruct (bool_decide (is_Some (mediaOf w1 P))); [done|].
  unfold call. cbv beta iota zeta.
  eapply repairs_trans; [exact H1|].
  eapply repairs_trans;
    [apply keepsChannels_repairs, (keepsChannels_call P ls w1)|].
  eapply repairs_trans; [apply repairs_saveMedia|].
  apply keepsChannels_repairs. by apply keepsChannels_quiet.
Qed.

(** Past its guards and with no media channel in the registry,
    [establishPeerConnection] places a call on a new channel. *)
Lemma establishPeerConnection_calls r P w self ls :
  peerRef w = Some self -> Render.localStream r = Some ls -> P ≠ self ->
  mediaOf w P = None ->
  ∃ c, (nextChan w ≤ c)%nat ∧ Call c P ls ∈ log (establishPeerConnection r P w).
Proof.
  intros Hp Hs Hne%String.eqb_neq Hm. unfold establishPeerConnection.
  rewrite Hp, Hs, Hne, Hm.
  rewrite (bool_decide_eq_false_2 (is_Some None)) by (by intros [? [=]]).
  destruct (bool_decide (is_Some (dataOf w P))).
  - rewrite Hm, (bool_decide_eq_false_2 (is_Some None)) by (by intros [? [=]]).
    exists (nextChan w). split; [done|]. simpl.
    apply elem_of_app. right. apply list_elem_of_here.
  - assert (mediaOf (connect P w).2 P = None) as -> by done.
    rewrite (bool_decide_eq_false_2 (is_Some None)) by (by intros [? [=]]).
    exists (S (nextChan w)). split; [lia|]. simpl.
    apply elem_of_app. right. apply list_elem_of_here.
Qed.

(** What [establishPeerConnection r P] asks of the transport, if anything:
    channels to [P], which is not the own id. *)
Lemma establishPeerConnection_log r P w :
  ∃ es, log (establishPeerConnection r P w) = (log w ++ es)%list ∧
        ∀ e, e ∈ es ->
             peerRef w ≠ Some P ∧
             ∃ c, e = Connect c P
                  ∨ ∃ ls, Render.localStream r = Some ls ∧ e = Call c P ls.
Proof.
  unfold establishPeerConnection.
  destruct (peerRef w) as [self|] eqn:Hp;
    [|exists []; rewrite app_nil_r; split; [done | by intros e ?%elem_of_nil]].
  destruct (Render.localStream r) as [ls|] eqn:Hs;
    [|exists []; rewrite app_nil_r; split; [done | by intros e ?%elem_of_nil]].
  destruct (String.eqb_spec P self) as [->|Hne];
    [exists []; rewrite app_nil_r; split; [done | by intros e ?%elem_of_nil]|].
  destruct (bool_decide (is_Some (mediaOf w P)));
    [exists []; rewrite app_nil_r; split; [done | by intros e ?%elem_of_nil]|].
  assert (Some self ≠ Some P) as Hne' by congruence.
  destruct (bool_decide (is_Some (dataOf w P))).
  - destruct (bool_decide _);
      [exists []; rewrite app_nil_r; split; [done | by intros e ?%elem_of_nil]|].
    exists [Call (nextChan w) P ls]. split; [done|].
    intros e Hin. apply list_elem_of_singleton in Hin as ->.
    split; [done|]. eexists. right. by exists ls.
  - destruct (bool_decide _).
    + exists [Connect (nextChan w) P]. split; [done|].
      intros e Hin. apply list_elem_of_singleton in Hin as ->.
      split; [done|]. eexists. by left.
    + exists [Connect (nextChan w) P; Call (S (nextChan w)) P ls].
      split; [cbn; by rewrite <- app_assoc|].
      intros e [->|Hin]%elem_of_cons;
        [|apply list_elem_of_singleton in Hin as ->]; (split; [done|]);
        eexists; [by left | right; by exists ls].
Qed.

Section RepairLoop.
Variables (r : Render.t) (self : string) (ls : Stream).
Hypothesis Hls : Render.localStream r = Some ls.

Lemma repairPeer_repairs w x : repairs w (repairPeer r self w x).
Proof.
  unfold repairPeer. destruct (String.eqb x self); [apply repairs_refl|].
  destruct (mediaOf w x).
  - apply keepsChannels_repairs, keepsChannels_sendIfOpen.
  - apply establishPeerConnection_repairs.
Qed.

Lemma repairPeer_other w x Q :
  Q ≠ x -> connectionsRef (repairPeer r self w x) !! Q = connectionsRef w !! Q.
Proof.
  intros Hne. unfold repairPeer. destruct (String.eqb x self); [done|].
  destruct (mediaOf w x).
  - by rewrite sendIfOpen_addLog.
  - by apply establishPeerConnection_other.
Qed.

Lemma repairPeer_repaired w P :
  peerRef w = Some self -> P ≠ self -> repaired r self ls w (repairPeer r self w P) P.
Proof.
  intros Hp Hne. unfold repaired, repairPeer.
  apply String.eqb_neq in Hne as Hne'. rewrite Hne'.
  destruct (mediaOf w P) as [m|] eqn:Hm.
  - intros d Hd Hopen. rewrite sendIfOpen_addLog, Hd. simpl.
    rewrite bool_decide_eq_true_2 by done.
    apply elem_of_app. right. apply list_elem_of_here.
  - by apply (establishPeerConnection_calls r P w self ls).
Qed.

Lemma foldl_repairPeer_repairs l w : repairs w (foldl (repairPeer r self) w l).
Proof.
  revert w. induction l as [|x l IH]; intros w; simpl.
  - apply repairs_refl.
  - eapply repairs_trans; [apply repairPeer_repairs | apply IH].
Qed.

Lemma foldl_repairPeer_repaired l w P :
  P ∈ l -> P ≠ self -> peerRef w = Some self ->
  repaired r self ls w (foldl (repairPeer r self) w l) P.
Proof.
  revert w. induction l as [|x l IH]; intros w Hin Hne Hp; simpl.
  - by apply elem_of_nil in Hin.
  - pose proof (repairPeer_repairs w x) as Hx.
    pose proof (foldl_repairPeer_repairs l (repairPeer r self w x)) as Hl.
    destruct (decide (x = P)) as [->|Hxp].
    + pose proof (repairPeer_repaired w P Hp Hne) as Hrep.
      unfold repaired in *. destruct (mediaOf w P).
      * intros d Hd Ho. eapply repairs_log_mono; [exact Hl|]. by apply Hrep.
      * destruct Hrep as (c & ? & ?). exists c. split; [done|].
        by eapply repairs_log_mono.
    + apply elem_of_cons in Hin as [->|Hin]; [done|].
      destruct Hx as (Ho & Hp' & _ & Hd & Hn).
      assert (peerRef (repairPeer r self w x) = Some self) as Hp''
        by (by rewrite Hp').
      specialize (IH _ Hin Hne Hp''). unfold repaired in *.
      assert (mediaOf (repairPeer r self w x) P = mediaOf w P) as Hm.
      { unfold mediaOf. by rewrite repairPeer_other. }
      rewrite Hm, Hd, Ho in IH. destruct (mediaOf w P); [done|].
      destruct IH as (c & ? & ?). exists c. split; [lia | done].
Qed.

(** The ids of the loop cover every participant of the captured list
    and every registry key but the own id. *)
Lemma elem_of_participantIds w P :
  P ∈ map Participant.id (Render.participants r)
  ∨ (is_Some (connectionsRef w !! P) ∧ P ≠ self) ->
  P ∈ participantIds r self w.
Proof.
  intros H. unfold participantIds. apply elem_of_app.
  destruct (decide (P ∈ map Participant.id (Render.participants r)))
    as [Hin|Hnin]; [by left|].
  destruct H as [?|[[conn Hc] Hne]]; [done|]. right.
  apply list_elem_of_filter. split; [done|].
  apply list_elem_of_fmap. exists (P, conn).
  split; [done | by apply elem_of_map_to_list].
Qed.

(** The repair loop as a whole. *)
Lemma establishAllCameraConnections_repairs w :
  peerRef w = Some self ->
  let w' := establishAllCameraConnections r self w in
  repairs w w' ∧
  (∀ P d, dataOf w P = Some d -> d ∈ openData w ->
          Send d (cameraStreamRestored r self) ∈ log w') ∧
  (∀ P, P ∈ map Participant.id (Render.participants r)
        ∨ is_Some (connectionsRef w !! P) ->
        P ≠ self -> repaired r self ls w w' P).
Proof.
  intros Hp w'. subst w'. unfold establishAllCameraConnections. rewrite Hls.
  set (w1 := foldl (repairPeer r self) w (participantIds r self w)).
  pose proof (foldl_repairPeer_repairs (participantIds r self w) w) as H1.
  fold w1 in H1.
  pose proof (keepsChannels_sendDataToAll (cameraStreamRestored r self) w1) as H2.
  split; [|split].
  - eapply repairs_trans; [exact H1 | by apply keepsChannels_repairs].
  - intros P d Hd Ho. rewrite sendDataToAll_addLog. simpl.
    apply elem_of_app. right. apply elem_of_broadcastOf.
    destruct H1 as (Ho1 & Hp1 & _ & Hd1 & _).
    split; [rewrite Hp1, Hp; by eexists|].
    specialize (Hd1 P). rewrite Hd in Hd1. unfold dataOf in Hd1.
    destruct (connectionsRef w1 !! P) as [conn|] eqn:Hc; [|done].
    exists P, conn, d. by rewrite Ho1.
  - intros P HP Hne.
    assert (P ∈ participantIds r self w) as Hin.
    { apply elem_of_participantIds. destruct HP; [by left | by right]. }
    pose proof (foldl_repairPeer_repaired _ w P Hin Hne Hp) as Hrep.
    fold w1 in Hrep. unfold repaired in *. destruct (mediaOf w P).
    + intros d Hd Ho. eapply keepsChannels_log_mono; [exact H2|]. by apply Hrep.
    + destruct Hrep as (c & ? & ?). exists c. split; [done|].
      by eapply keepsChannels_log_mono.
Qed.

(** A peer that has a media channel is never called by the loop, and
    whatever the loop sends goes out on an open data channel. *)
Lemma repairPeer_idle w x P :
  is_Some (mediaOf w P) ->
  is_Some (mediaOf (repairPeer r self w x) P) ∧
  ∃ es, log (repairPeer r self w x) = (log w ++ es)%list ∧
        ∀ e, e ∈ es ->
             (∀ c s, e ≠ Call c P s) ∧ (∀ d m, e = Send d m -> d ∈ openData w).
Proof.
  intros HP. unfold repairPeer.
  destruct (String.eqb x self).
  { split; [done|]. exists []. rewrite app_nil_r. split; [done|].
    by intros e ?%elem_of_nil. }
  destruct (mediaOf w x) as [m|] eqn:Hm.
  - rewrite sendIfOpen_addLog. split; [done|]. eexists. split; [done|].
    intros e (d & Hd & Ho & ->)%elem_of_sendTo. split; [done|].
    by intros ? ? [= <- _].
  - assert (P ≠ x) as Hne by (intros ->; rewrite Hm in HP; by destruct HP).
    split.
    + unfold mediaOf. rewrite establishPeerConnection_other by done. exact HP.
    + destruct (establishPeerConnection_log r x w) as (es & Hl & Hes).
      exists es. split; [done|]. intros e He.
      destruct (Hes e He) as (_ & c & [->|(ls' & _ & ->)]).
      * split; [done | by intros ? ? [=]].
      * split; [|by intros ? ? [=]]. intros c' s [= _ ? _]. done.
Qed.

Lemma foldl_repairPeer_idle l w P :
  is_Some (mediaOf w P) ->
  ∃ es, log (foldl (repairPeer r self) w l) = (log w ++ es)%list ∧
        ∀ e, e ∈ es ->
             (∀ c s, e ≠ Call c P s) ∧ (∀ d m, e = Send d m -> d ∈ openData w).
Proof.
  revert w. induction l as [|x l IH]; intros w HP; cbn [foldl].
  - exists []. rewrite app_nil_r. split; [done|]. by intros e ?%elem_of_nil.
  - destruct (repairPeer_idle w x P HP) as (HP' & es1 & Hl1 & H1).
    destruct (IH _ HP') as (es2 & Hl2 & H2).
    destruct (repairPeer_repairs w x) as (Ho & _).
    exists (es1 ++ es2)%list. split; [by rewrite Hl2, Hl1, <- app_assoc|].
    intros e [He|He]%elem_of_app; [by apply H1|].
    destruct (H2 e He) as [Hc Hs]. split; [done|].
    intros d m Hd. rewrite <- Ho. by eapply Hs.
Qed.

Lemma establishAllCameraConnections_idle w P :
  is_Some (mediaOf w P) -> isOpen w (dataOf w P) = false ->
  let w' := establishAllCameraConnections r self w in
  (∀ c s, Call c P s ∈ log w' -> Call c P s ∈ log w) ∧
  (∀ d m, dataOf w P = Some d -> Send d m ∈ log w' -> Send d m ∈ log w).
Proof.
  intros HP Hclosed w'. subst w'. unfold establishAllCameraConnections.
  rewrite Hls. rewrite sendDataToAll_addLog.
  destruct (foldl_repairPeer_idle (participantIds r self w) w P HP)
    as (es & Hl & Hes).
  pose proof (foldl_repairPeer_repairs (participantIds r self w) w)
    as (Ho & _).
  set (w1 := foldl _ w _) in *. clearbody w1.
  cbn [addLog log]. rewrite Hl. split.
  - intros c s [[Hin|Hin]%elem_of_app|Hin]%elem_of_app; [done| |].
    + destruct (Hes _ Hin) as [Hc _]. by destruct (Hc c s).
    + apply elem_of_broadcastOf in Hin as (_ & ? & ? & ? & _ & _ & _ & [=]).
  - intros d m Hd. rewrite Hd in Hclosed. cbn [isOpen] in Hclosed.
    apply bool_decide_eq_false in Hclosed.
    intros [[Hin|Hin]%elem_of_app|Hin]%elem_of_app; [done| |].
    + destruct (Hes _ Hin) as [_ Hs]. destruct Hclosed. by eapply Hs.
    + apply elem_of_broadcastOf in Hin as (_ & ? & ? & d' & _ & _ & Hopen & [= <- _]).
      rewrite Ho in Hopen. done.
Qed.
End RepairLoop.

(** Closing the channels of a snapshot list. *)
Lemma foldl_close {A} (cOf : A -> Chan) (l : list A) w :
  let w' := foldl (fun w e => close (cOf e) w) w l in
  connectionsRef w' = connectionsRef w ∧ timers w' = timers w ∧
  peerRef w' = peerRef w ∧
  log w' = (log w ++ map (fun e => Close (cOf e)) l)%list.
Proof.
  cbv zeta. revert w. induction l as [|x l IH]; intros w; simpl.
  - by rewrite app_nil_r.
  - destruct (IH (close (cOf x) w)) as (-> & -> & -> & ->). simpl.
    by rewrite <- app_assoc.
Qed.

(** Marking participants as reconnecting touches the participant list
    and adds timers, nothing else. *)
Lemma foldl_transition_ui {A} (skip : A -> bool) (f : A -> string) (l : list A) w :
  let w' := foldl (fun w p => if skip p then w
                              else setParticipantTransition (f p) reconnecting w)
                  w l in
  connectionsRef w' = connectionsRef w ∧ log w' = log w ∧
  ∀ t, t ∈ timers w -> t ∈ timers w'.
Proof.
  cbv zeta. revert w. induction l as [|x l IH]; intros w; cbn [foldl]; [done|].
  destruct (IH (if skip x then w
                else setParticipantTransition (f x) reconnecting w))
    as (-> & -> & Ht).
  destruct (skip x); [done|]. split; [done|]. split; [done|].
  intros t Hin. apply Ht. simpl. apply elem_of_app. by left.
Qed.

(** What [stopScreenShare] does at once: a status broadcast, [close] on
    the screen channels and on nothing else, the registry untouched, the
    repair loop scheduled. *)
Lemma stopScreenShare_now r w self s :
  peerRef w = Some self -> Render.screenStream r = Some s ->
  let w' := stopScreenShare r w in
  connectionsRef w' = connectionsRef w ∧
  (∀ c, Close c ∈ log w' ->
        Close c ∈ log w ∨
        ∃ sc P, screenConnections w = Some sc ∧ sc !! P = Some c) ∧
  (∀ sc P c, screenConnections w = Some sc -> sc !! P = Some c ->
             Close c ∈ log w') ∧
  (300%N, EstablishAllCameraConnections self) ∈ timers w'.
Proof.
  intros Hp Hs w'. subst w'. unfold stopScreenShare. rewrite Hp, Hs.
  set (w1 := sendDataToAll _ w).
  set (w2 := setIsScreenSharing false (setScreenStream None w1)).
  pose proof (keepsChannels_sendDataToAll
                (DataMessage.mk "screen-sharing-status" (Some self) None None
                   (Some false) None None None None (Some (Render.now r))) w)
    as H1. fold w1 in H1.
  assert (screenConnections w2 = screenConnections w) as Hsc.
  { subst w2 w1. by rewrite sendDataToAll_addLog. }
  set (w3 := match screenConnections w2 with
             | Some screenConns =>
                 set_screenConnections (Some ∅)
                   (foldl (fun w e => close e.2 w) w2 (map_to_list screenConns))
             | None => w2
             end).
  assert (connectionsRef w3 = connectionsRef w ∧ timers w3 = timers w ∧
          log w3 = (log w1 ++ match screenConnections w with
                              | Some sc => map (fun e => Close e.2) (map_to_list sc)
                              | None => []
                              end)%list) as (Hr3 & Ht3 & Hl3).
  { subst w3. rewrite Hsc. destruct (screenConnections w) as [sc|].
    - destruct (foldl_close (fun e : string * Chan => e.2) (map_to_list sc) w2)
        as (Hr & Ht & _ & Hl). simpl. rewrite Hr, Ht, Hl.
      destruct H1 as (Hr1 & _). split; [done|]. split; [|done].
      subst w2 w1. by rewrite sendDataToAll_addLog.
    - rewrite app_nil_r. destruct H1 as (Hr1 & _). split; [done|].
      split; [|done]. subst w2 w1. by rewrite sendDataToAll_addLog. }
  set (w4 := setTimeout 300%N (EstablishAllCameraConnections self) w3).
  assert (∃ w5, (if Render.transitionsEnabled r then
                   foldl (fun w p =>
                            if String.eqb (Participant.id p) self then w
                            else setParticipantTransition (Participant.id p)
                                   reconnecting w)
                         w4 (Render.participants r)
                 else w4) = w5 ∧
                connectionsRef w5 = connectionsRef w4 ∧ log w5 = log w4 ∧
                ∀ t, t ∈ timers w4 -> t ∈ timers w5) as (w5 & -> & Hr5 & Hl5 & Ht5).
  { eexists. split; [reflexivity|]. destruct (Render.transitionsEnabled r); [|done].
    apply (foldl_transition_ui
             (fun p => String.eqb (Participant.id p) self) Participant.id). }
  rewrite Hr5, Hl5. subst w4. simpl. rewrite Hr3, Hl3.
  split; [done|]. split; [|split].
  - intros c [Hc|Hc]%elem_of_app.
    + left. by eapply keepsChannels_close_log.
    + right. destruct (screenConnections w) as [sc|]; [|by apply elem_of_nil in Hc].
      apply list_elem_of_fmap in Hc as ([P c'] & [= ->] & Hin).
      apply elem_of_map_to_list in Hin. by exists sc, P.
  - intros sc P c -> Hc. apply elem_of_app. right.
    apply list_elem_of_fmap. exists (P, c).
    split; [done | by apply elem_of_map_to_list].
  - apply Ht5. simpl. apply elem_of_app. right. apply list_elem_of_here.
Qed.

(** C3 (amended). Let [stopScreenShare] be the one of a render that
    captured a screen stream (the value its guard tests) and the local
    stream, and let it run on a registered peer. It leaves the registry
    alone, calls [close] on every screen channel kept in
    [screenConnections] and on no other channel, and schedules the
    repair loop. When the loop runs, it closes nothing; for every known
    peer id other than the own one (a participant of the captured list
    or a registry key) it places a call on a new channel if the registry
    has no media channel for that peer, and sends
    [reconnect-after-screen-share] if it has one and the peer's control
    channel is open; at the end [camera-stream-restored] goes out on
    every open control channel of the registry. A peer that has a media
    channel and no open control channel gets nothing: no call is placed
    to it and nothing is sent on its control channel. *)
Theorem stopScreenShare_broadcasts_and_repairs
    (r : Render.t) (w : World) (self : string) (s ls : Stream) :
  peerRef w = Some self ->
  Render.screenStream r = Some s ->
  Render.localStream r = Some ls ->
  let w1 := stopScreenShare r w in
  (connectionsRef w1 = connectionsRef w ∧
   (∀ c, Close c ∈ log w1 ->
         Close c ∈ log w ∨
         ∃ sc P, screenConnections w = Some sc ∧ sc !! P = Some c) ∧
   (∀ sc P c, screenConnections w = Some sc -> sc !! P = Some c ->
              Close c ∈ log w1) ∧
   (300%N, EstablishAllCameraConnections self) ∈ timers w1) ∧
  ∀ w2, peerRef w2 = Some self ->
    let w3 := fire r (EstablishAllCameraConnections self) w2 in
    (∀ c, Close c ∈ log w3 -> Close c ∈ log w2) ∧
    (∀ P d, dataOf w2 P = Some d -> d ∈ openData w2 ->
            Send d (cameraStreamRestored r self) ∈ log w3) ∧
    (∀ P, P ∈ map Participant.id (Render.participants r)
          ∨ is_Some (connectionsRef w2 !! P) ->
          P ≠ self ->
          match mediaOf w2 P with
          | None => ∃ c, (nextChan w2 ≤ c)%nat ∧ Call c P ls ∈ log w3
          | Some _ =>
              ∀ d, dataOf w2 P = Some d -> d ∈ openData w2 ->
                   Send d (reconnectAfterScreenShare r self) ∈ log w3
          end) ∧
    (∀ P, is_Some (mediaOf w2 P) -> isOpen w2 (dataOf w2 P) = false ->
          (∀ c s, Call c P s ∈ log w3 -> Call c P s ∈ log w2) ∧
          (∀ d m, dataOf w2 P = Some d -> Send d m ∈ log w3 ->
                  Send d m ∈ log w2)).
Proof.
  intros Hp Hs Hls w1. split.
  - exact (stopScreenShare_now r w self s Hp Hs).
  - intros w2 Hp2 w3. subst w3. cbn [fire].
    destruct (establishAllCameraConnections_repairs r self ls Hls w2 Hp2)
      as (Hrep & Hcast & Hall).
    split; [by intros c; apply repairs_close_log|]. split; [done|].
    split; [intros P HP Hne; apply (Hall P HP Hne)|].
    intros P HP Hclosed.
    exact (establishAllCameraConnections_idle r self ls Hls w2 P HP Hclosed).
Qed.

Lemma stopScreenShare_broadcasts_and_repairs_witness :
  let r := sharingRender in
  let w1 := stopScreenShare r sharingWorld in
  (connectionsRef w1 = connectionsRef sharingWorld ∧
   (∀ c, Close c ∈ log w1 ->
         Close c ∈ log sharingWorld ∨
         ∃ sc P, screenConnections sharingWorld = Some sc ∧ sc !! P = Some c) ∧
   (∀ sc P c, screenConnections sharingWorld = Some sc -> sc !! P = Some c ->
              Close c ∈ log w1) ∧
   (300%N, EstablishAllCameraConnections "room-42") ∈ timers w1) ∧
  ∀ w2, peerRef w2 = Some "room-42" ->
    let w3 := fire r (EstablishAllCameraConnections "room-42") w2 in
    (∀ c, Close c ∈ log w3 -> Close c ∈ log w2) ∧
    (∀ P d, dataOf w2 P = Some d -> d ∈ openData w2 ->
            Send d (cameraStreamRestored r "room-42") ∈ log w3) ∧
    (∀ P, P ∈ map Participant.id (Render.participants r)
          ∨ is_Some (connectionsRef w2 !! P) ->
          P ≠ "room-42" ->
          match mediaOf w2 P with
          | None => ∃ c, (nextChan w2 ≤ c)%nat ∧ Call c P 1 ∈ log w3
          | Some _ =>
              ∀ d, dataOf w2 P = Some d -> d ∈ openData w2 ->
                   Send d (reconnectAfterScreenShare r "room-42") ∈ log w3
          end) ∧
    (∀ P, is_Some (mediaOf w2 P) -> isOpen w2 (dataOf w2 P) = false ->
          (∀ c s, Call c P s ∈ log w3 -> Call c P s ∈ log w2) ∧
          (∀ d m, dataOf w2 P = Some d -> Send d m ∈ log w3 ->
                  Send d m ∈ log w2)).
Proof.
  apply (stopScreenShare_broadcasts_and_repairs sharingRender sharingWorld
           "room-42" 8 1); reflexivity.
Defined.

(** C3 as stated fails. [room-17] is a participant and has a registry
    entry with a media channel, but its control channel (channel 2) is
    not open: after [stopScreenShare] and the run of the repair loop,
    no call was placed to [room-17] and nothing was sent on its control
    channel. *)
Lemma stopScreenShare_repair_counterexample :
  let w1 := stopScreenShare sharingRender sharingWorld in
  let w3 := runTimer sharingRender
              (300%N, EstablishAllCameraConnections "room-42") w1 in
  guestP ∈ Render.participants sharingRender ∧
  connectionsRef w1 !! "room-17" = Some (mkConn (Some 1) (Some 2)) ∧
  ¬ (∃ c s, Call c "room-17" s ∈ log w3) ∧
  ¬ (∃ m, Send 2 m ∈ log w3).
Proof.
  intros w1 w3.
  assert (∃ m1 m2 m3, log w3 = [Send 4 m1; Close 21; Close 20; Send 4 m2; Send 4 m3])
    as (m1 & m2 & m3 & Hlog).
  { do 3 eexists. vm_compute. reflexivity. }
  split; [apply list_elem_of_further, list_elem_of_here|].
  split; [by vm_compute|].
  rewrite Hlog. split.
  - intros (c & s & H).
    repeat (apply elem_of_cons in H as [H|H]; [discriminate H|]).
    by apply elem_of_nil in H.
  - intros (m & H).
    repeat (apply elem_of_cons in H as [H|H]; [discriminate H|]).
    by apply elem_of_nil in H.
Qed.

(** ** C6: joining a room whose creator never answers *)

Lemma joinStep_view r jw e :
  creatorSilent r jw.2 ->
  joinView (joinStep r jw e) = viewStep (joinView jw) e ∧
  creatorSilent r (joinStep r jw e).2.
Proof.
  destruct jw as [[count armed made] w]. unfold creatorSilent, joinView.
  cbn [fst snd]. intros Hs. destruct e; simpl.
  - destruct armed; [|done]. case_bool_decide; [|done]. rewrite Hs. simpl.
    split; [|done]. by rewrite length_app, Nat.add_1_r.
  - case_bool_decide; done.
Qed.

Lemma joinRun_view r es jw :
  creatorSilent r jw.2 ->
  joinView (foldl (joinStep r) jw es) = foldl viewStep (joinView jw) es ∧
  creatorSilent r (foldl (joinStep r) jw es).2.
Proof.
  revert jw. induction es as [|e es IH]; intros jw Hs; cbn [foldl]; [done|].
  destruct (joinStep_view r jw e Hs) as [Hv Hs']. rewrite <- Hv. by apply IH.
Qed.

Lemma connectToCreator_view r w :
  creatorSilent r w ->
  joinView (connectToCreator r w) = (0, true, 1, error w) ∧
  creatorSilent r (connectToCreator r w).2.
Proof. done. Qed.

(** Ticks on a cleared interval change nothing. *)
Lemma viewStep_ticks_cleared n count made err :
  foldl viewStep (count, false, made, err) (replicate n Tick)
  = (count, false, made, err).
Proof. induction n as [|n IH]; simpl; [done | exact IH]. Qed.

(** Ticks with no error in between keep making attempts. *)
Lemma viewStep_ticks_silent n made err :
  foldl viewStep (0, true, made, err) (replicate n Tick)
  = (0, true, n + made, err).
Proof.
  revert made. induction n as [|n IH]; intros made; simpl; [done|].
  rewrite IH. do 3 f_equal. lia.
Qed.

(** C6, the code on a creator that never answers. If every attempt
    reports an error before the next 3 s tick, the loop stops after 5
    attempts (the first and 4 retries): the interval is cleared, the
    error slot reads "Retrying connection (5/5)..." and stays so through
    any number of further ticks; the terminal message is never set. If
    no attempt reports an error, every tick makes a new attempt, without
    bound, and the error slot is never written. *)
Theorem join_retry_never_reports_unreachable_host
    (r : Render.t) (w : World) (n : nat) :
  creatorSilent r w ->
  joinView (joinRun r w (failingJoin ++ replicate n Tick))
  = (5, false, 5, Some "Room host not found. Retrying connection (5/5)...") ∧
  joinView (joinRun r w (replicate n Tick)) = (0, true, S n, error w).
Proof.
  intros Hs. unfold joinRun.
  destruct (connectToCreator_view r w Hs) as [Hv Hs'].
  split.
  - destruct (joinRun_view r (failingJoin ++ replicate n Tick) _ Hs') as [-> _].
    rewrite Hv, foldl_app.
    change (foldl viewStep (0, true, 1, error w) failingJoin)
      with (5, false, 5, Some (retryMessage 5)).
    by rewrite viewStep_ticks_cleared.
  - destruct (joinRun_view r (replicate n Tick) _ Hs') as [-> _].
    rewrite Hv, viewStep_ticks_silent. do 3 f_equal. lia.
Qed.

Lemma join_retry_never_reports_unreachable_host_witness :
  joinView (joinRun (joinerRender []) freshJoinerWorld
              (failingJoin ++ replicate 3 Tick))
  = (5, false, 5, Some "Room host not found. Retrying connection (5/5)...") ∧
  joinView (joinRun (joinerRender []) freshJoinerWorld (replicate 3 Tick))
  = (0, true, 4, error freshJoinerWorld).
Proof.
  apply (join_retry_never_reports_unreachable_host (joinerRender [])
           freshJoinerWorld 3).
  reflexivity.
Defined.

(** ** Peer list broadcast and forced reconnection *)

(** [wcbn]: unfold the field updates of a world, and nothing else. *)
Tactic Notation "wcbn" :=
  cbn [peerRef screenConnections connectionsRef lastSeenRef participants error
       screenStream isScreenSharing networkTopology nextChan openData timers log
       set_screenConnections set_connectionsRef set_lastSeenRef setParticipants
       setError setScreenStream setIsScreenSharing setNetworkTopology
       set_nextChan set_openData set_timers emit addLog send close closeOpt
       setTimeout setInterval clearTimeout saveMedia saveData deleteConn
       mediaConnection dataConnection mbind option_bind fst snd].
Tactic Notation "wcbn" "in" hyp(H) :=
  cbn [peerRef screenConnections connectionsRef lastSeenRef participants error
       screenStream isScreenSharing networkTopology nextChan openData timers log
       set_screenConnections set_connectionsRef set_lastSeenRef setParticipants
       setError setScreenStream setIsScreenSharing setNetworkTopology
       set_nextChan set_openData set_timers emit addLog send close closeOpt
       setTimeout setInterval clearTimeout saveMedia saveData deleteConn
       mediaConnection dataConnection mbind option_bind fst snd] in H.

Lemma broadcastPeerList_addLog r w :
  broadcastPeerList r w
  = addLog (match peerRef w with
            | Some self =>
                if Render.isCreator r then broadcastOf w (peerListMsg r self)
                else []
            | None => []
            end) w.
Proof.
  unfold broadcastPeerList. destruct (peerRef w) as [self|] eqn:Hp;
    [|by rewrite addLog_nil].
  destruct (Render.isCreator r); [|by rewrite addLog_nil]. cbv zeta.
  rewrite <- sendDataToAll_addLog. unfold sendDataToAll. by rewrite Hp.
Qed.

Lemma keepsChannels_broadcastPeerList r w : keepsChannels w (broadcastPeerList r w).
Proof.
  rewrite broadcastPeerList_addLog. apply keepsChannels_addLog. intros c Hin.
  destruct (peerRef w); [|by apply elem_of_nil in Hin].
  destruct (Render.isCreator r); [|by apply elem_of_nil in Hin].
  apply elem_of_broadcastOf in Hin. naive_solver.
Qed.

(** X1. [broadcastPeerList] changes nothing but the transport log, to
    which it appends [send] calls. A call is in the appended part exactly
    when the caller is the creator, its peer is registered, and the call
    sends, on the data channel of a registry entry that is open, the
    [peer-list] message made of the own id followed by the ids of the
    captured participant list. A joiner sends nothing. *)
Theorem broadcastPeerList_creator_only (r : Render.t) (w : World) :
  ∃ sent : list Effect,
    broadcastPeerList r w = addLog sent w ∧
    ∀ e, e ∈ sent ↔
         Render.isCreator r = true ∧
         ∃ self peerId conn d,
           peerRef w = Some self ∧
           connectionsRef w !! peerId = Some conn ∧
           dataConnection conn = Some d ∧ d ∈ openData w ∧
           e = Send d (peerListMsg r self).
Proof.
  eexists. split; [apply broadcastPeerList_addLog|]. intros e.
  destruct (peerRef w) as [self|] eqn:Hp.
  - destruct (Render.isCreator r) eqn:Hc.
    + rewrite elem_of_broadcastOf, Hp. split.
      * intros (_ & peerId & conn & d & ? & ? & ? & ?).
        split; [done|]. by exists self, peerId, conn, d.
      * intros (_ & self' & peerId & conn & d & ? & ? & ? & ? & ?).
        simplify_eq. split; [by eexists|]. by exists peerId, conn, d.
    + rewrite elem_of_nil. naive_solver.
  - rewrite elem_of_nil. naive_solver.
Qed.

(** X2. Whatever the role and the state, [reconnectAll] leaves the
    registry, the set of open data channels and the registered peer as
    they are and calls [close] on nothing; the participant list and the
    error slot are untouched as well. When it starts a join loop, the
    3 s retry interval of that loop is armed. *)
Theorem reconnectAll_keeps_channels (r : Render.t) (w : World) :
  keepsChannels w (reconnectAll r w).2 ∧
  participants (reconnectAll r w).2 = participants w ∧
  error (reconnectAll r w).2 = error w ∧
  match (reconnectAll r w).1 with
  | Some j => retryInterval j = true
  | None => True
  end.
Proof.
  unfold reconnectAll.
  destruct (peerRef w) as [self|] eqn:Hp, (Render.localStream r) as [ls|];
    try (split; [apply keepsChannels_refl | done]).
  destruct (Render.isCreator r).
  - cbn [fst snd]. split; [apply keepsChannels_broadcastPeerList|].
    rewrite broadcastPeerList_addLog. done.
  - destruct (negb _) eqn:Ho.
    + unfold connectToCreator, attemptCreatorConnection. cbn.
      split; [|done]. apply (keepsChannels_connect (creatorIdOf r) w).
    + cbn [fst snd]. destruct (dataOf w (creatorIdOf r)) as [d|];
        [|split; [apply keepsChannels_refl | done]].
      split; [|done]. unfold send. rewrite emit_addLog.
      apply keepsChannels_addLog. intros c Hin.
      apply list_elem_of_singleton in Hin. discriminate.
Qed.

(** X3. On a registered joiner that has its local stream, [reconnectAll]
    makes exactly one call into the transport. If the control channel to
    the creator is open, it is a [request-peer-list] message on that
    channel and no join loop is started; otherwise it is a [connect] to
    the creator, made by a new join loop whose retry counter is 0 and
    whose interval is armed. *)
Theorem reconnectAll_joiner_one_call (r : Render.t) (w : World)
    (self : string) (ls : Stream) :
  peerRef w = Some self ->
  Render.localStream r = Some ls ->
  Render.isCreator r = false ->
  match dataOf w (creatorIdOf r) with
  | Some d =>
      if bool_decide (d ∈ openData w) then
        reconnectAll r w
        = (None,
           addLog [Send d (DataMessage.bare "request-peer-list" (Render.now r))] w)
      else
        (reconnectAll r w).1 = Some (mkJoin 0 true [nextChan w]) ∧
        log (reconnectAll r w).2
        = (log w ++ [Connect (nextChan w) (creatorIdOf r)])%list
  | None =>
      (reconnectAll r w).1 = Some (mkJoin 0 true [nextChan w]) ∧
      log (reconnectAll r w).2
      = (log w ++ [Connect (nextChan w) (creatorIdOf r)])%list
  end.
Proof.
  intros Hp Hls Hc. unfold reconnectAll. rewrite Hp, Hls, Hc.
  destruct (dataOf w (creatorIdOf r)) as [d|]; cbn [isOpen].
  - case_bool_decide; cbn [negb]; [reflexivity|]. by split.
  - by split.
Qed.

Lemma reconnectAll_joiner_one_call_witness :
  reconnectAll (joinerRender []) joinerWorld
  = (None, addLog [Send 4 (DataMessage.bare "request-peer-list" 7)] joinerWorld)
  ∧ (reconnectAll (joinerRender []) freshJoinerWorld).1
    = Some (mkJoin 0 true [10]).
Proof.
  split.
  - apply (reconnectAll_joiner_one_call (joinerRender []) joinerWorld "room-42" 1);
      reflexivity.
  - apply (reconnectAll_joiner_one_call (joinerRender []) freshJoinerWorld
             "room-42" 1); reflexivity.
Defined.

(** ** The display name *)

(** X4. [setUsername n] on a registered peer [A] returns [n] as the new
    local name and sends a [username] message naming [A] and [n] on every
    open control channel of the registry. Whoever runs that message
    through its message handler renames its records of [A] to [n] and
    changes the participant list in no other way. *)
Theorem setUsername_reaches_receiver (r rr : Render.t) (ws wr : World)
    (A n peerId peer : string) (conn : Conn) (d c : Chan) :
  peerRef ws = Some A -> A ≠ "" -> n ≠ "" ->
  connectionsRef ws !! peerId = Some conn ->
  dataConnection conn = Some d -> d ∈ openData ws ->
  (setUsername r n ws).1 = n ∧
  Send d (usernameMsg r (Some A) n) ∈ log (setUsername r n ws).2 ∧
  participants (onData rr c peer (usernameMsg r (Some A) n) wr)
  = renameParticipant A n (participants wr).
Proof.
  intros Hp HA Hn Hk Hd Ho. split; [reflexivity|]. split.
  - unfold setUsername. cbn [snd]. rewrite sendDataToAll_addLog, Hp.
    cbn [addLog log]. apply elem_of_app. right.
    apply elem_of_broadcastOf. split; [by eexists|].
    by exists peerId, conn, d.
  - rewrite onData_username by reflexivity.
    by apply participants_on_username.
Qed.

Lemma setUsername_reaches_receiver_witness :
  (setUsername (joinerRender []) "Bob" joinerWorld).1 = "Bob" ∧
  Send 2 (usernameMsg (joinerRender []) (Some "room-42") "Bob")
    ∈ log (setUsername (joinerRender []) "Bob" joinerWorld).2 ∧
  participants
    (onData (joinerRender []) 9 "room-42"
       (usernameMsg (joinerRender []) (Some "room-42") "Bob") creatorLikeWorld)
  = renameParticipant "room-42" "Bob" (participants creatorLikeWorld).
Proof.
  apply (setUsername_reaches_receiver (joinerRender []) (joinerRender [])
           joinerWorld creatorLikeWorld "room-42" "Bob" "room-17" "room-42"
           (mkConn (Some 1) (Some 2)) 2 9);
    [reflexivity | discriminate | discriminate | reflexivity | reflexivity
    | vm_compute; reflexivity].
Defined.

(** X5. A [username] message whose name is empty, or whose peer id is
    absent or empty, renames nobody: the participant list of the receiver
    is the one from before. Such a message is what [setUsername ""]
    broadcasts. *)
Theorem username_without_name_or_id_ignored (r rr : Render.t) (wr : World)
    (peerId : option string) (n peer : string) (c : Chan) :
  n = "" ∨ peerId = None ∨ peerId = Some "" ->
  participants (onData rr c peer (usernameMsg r peerId n) wr) = participants wr.
Proof.
  intros H. rewrite onData_username by reflexivity.
  unfold on_username.
  cbn [usernameMsg DataMessage.username DataMessage.peerId DataMessage.type].
  destruct peerId as [X|]; [|done].
  destruct H as [->|[?| [= ->]]]; [|done|].
  - by rewrite andb_false_r.
  - by rewrite andb_false_r.
Qed.

Lemma username_without_name_or_id_ignored_witness :
  participants
    (onData (joinerRender []) 2 "room-17"
       (usernameMsg (joinerRender []) (Some "room-17") "") joinerWorld)
  = participants joinerWorld.
Proof.
  apply (username_without_name_or_id_ignored (joinerRender []) (joinerRender [])
           joinerWorld (Some "room-17") "" "room-17" 2).
  left. reflexivity.
Defined.

(** ** Leaving the room *)

Lemma closeOpt_pair_effect (e : string * Conn) w :
  let w' := closeOpt (dataConnection e.2) (closeOpt (mediaConnection e.2) w) in
  connectionsRef w' = connectionsRef w ∧ participants w' = participants w ∧
  peerRef w' = peerRef w ∧ timers w' = timers w ∧
  log w' = (log w ++ closesOfEntry e)%list ∧
  (∀ c, c ∈ openData w' ↔
        c ∈ openData w ∧ mediaConnection e.2 ≠ Some c ∧ dataConnection e.2 ≠ Some c).
Proof.
  cbv zeta. unfold closesOfEntry.
  destruct (mediaConnection e.2) as [m|], (dataConnection e.2) as [d|]; simpl;
    rewrite ?app_nil_r, <- ?app_assoc; repeat split; try done;
    try set_solver.
Qed.

Lemma foldl_closeOpt_pair (l : list (string * Conn)) w :
  let w' := foldl (fun w e => closeOpt (dataConnection e.2)
                                (closeOpt (mediaConnection e.2) w)) w l in
  connectionsRef w' = connectionsRef w ∧ participants w' = participants w ∧
  peerRef w' = peerRef w ∧ timers w' = timers w ∧
  log w' = (log w ++ (l ≫= closesOfEntry))%list ∧
  (∀ c, c ∈ openData w' ↔
        c ∈ openData w ∧
        ∀ e, e ∈ l -> mediaConnection e.2 ≠ Some c ∧ dataConnection e.2 ≠ Some c).
Proof.
  cbv zeta. revert w. induction l as [|x l IH]; intros w; cbn [foldl].
  - rewrite app_nil_r. do 5 (split; [done|]). intros c. split.
    + intros Hc. split; [done|]. intros e He. by apply elem_of_nil in He.
    + by intros [? _].
  - destruct (IH (closeOpt (dataConnection x.2) (closeOpt (mediaConnection x.2) w)))
      as (-> & -> & -> & -> & -> & Ho).
    destruct (closeOpt_pair_effect x w) as (-> & -> & -> & -> & -> & Ho1).
    do 4 (split; [done|]). split; [by rewrite <- app_assoc|].
    intros c. rewrite Ho, Ho1. split.
    + intros [(Hc & Hm & Hd) Hall]. split; [done|]. intros e He.
      apply elem_of_cons in He as [->|Hin]; [done|]. by apply Hall.
    + intros [Hc Hall]. split.
      * split; [done|]. apply Hall. by left.
      * intros e He. apply Hall. by right.
Qed.

(** X6. [handleBeforeUnload] (and the cleanup of the effect, which runs
    the same loops) first sends the [peer-disconnect] notice, on the
    registry data channels that are open and on no other channel, and
    only then calls [close], on the media and the data channel of every
    registry entry and on nothing else: the transport log grows by the
    notices followed by the closes. *)
Theorem handleBeforeUnload_notices_then_closes (r : Render.t) (peerId : string)
    (w : World) :
  let w' := handleBeforeUnload r peerId w in
  ∃ notices closes : list Effect,
    log w' = (log w ++ notices ++ closes)%list ∧
    (∀ e, e ∈ notices ↔
          ∃ k conn d, connectionsRef w !! k = Some conn ∧
                      dataConnection conn = Some d ∧ d ∈ openData w ∧
                      e = Send d (peerDisconnectMsg r peerId)) ∧
    (∀ e, e ∈ closes ↔
          ∃ k conn c, connectionsRef w !! k = Some conn ∧
                      (mediaConnection conn = Some c ∨ dataConnection conn = Some c) ∧
                      e = Close c).
Proof.
  cbv zeta. unfold handleBeforeUnload. cbv zeta.
  rewrite (foldl_sendIfOpen (fun e => dataConnection e.2)
             (fun _ => peerDisconnectMsg r peerId)).
  set (notices := map_to_list (connectionsRef w) ≫= _).
  destruct (foldl_closeOpt_pair (map_to_list (connectionsRef (addLog notices w)))
              (addLog notices w)) as (_ & _ & _ & _ & -> & _).
  exists notices, (map_to_list (connectionsRef w) ≫= closesOfEntry).
  split; [cbn [addLog log]; by rewrite <- app_assoc|]. split.
  - intros e. subst notices. rewrite list_elem_of_bind. split.
    + intros ([k conn] & Hin & Hel). apply elem_of_sendTo in Hin as (d & ? & ? & ?).
      apply elem_of_map_to_list in Hel. by exists k, conn, d.
    + intros (k & conn & d & Hk & ? & ? & ?). exists (k, conn).
      split; [|by apply elem_of_map_to_list]. apply elem_of_sendTo. by exists d.
  - intros e. rewrite list_elem_of_bind. split.
    + intros ([k conn] & Hin & Hel). apply elem_of_map_to_list in Hel.
      unfold closesOfEntry in Hin. cbn [snd] in Hin.
      apply elem_of_app in Hin as [Hin|Hin].
      * destruct (mediaConnection conn) as [c|] eqn:E; [|by apply elem_of_nil in Hin].
        apply list_elem_of_singleton in Hin. exists k, conn, c. auto.
      * destruct (dataConnection conn) as [c|] eqn:E; [|by apply elem_of_nil in Hin].
        apply list_elem_of_singleton in Hin. exists k, conn, c. auto.
    + intros (k & conn & c & Hk & Hc & ->). exists (k, conn).
      split; [|by apply elem_of_map_to_list]. unfold closesOfEntry. cbn [snd].
      apply elem_of_app. destruct Hc as [-> | ->]; [left|right]; by left.
Qed.

(** X7. After [handleBeforeUnload] no data channel of the registry is
    open, so a later [sendDataToAll] of any message sends nothing and
    leaves the world as it is. *)
Theorem handleBeforeUnload_silences_registry (r : Render.t) (peerId : string)
    (w : World) (data : DataMessage.t) :
  let w' := handleBeforeUnload r peerId w in
  (∀ k conn d, connectionsRef w' !! k = Some conn ->
               dataConnection conn = Some d -> d ∉ openData w') ∧
  sendDataToAll data w' = w'.
Proof.
  cbv zeta.
  assert (∀ k conn d,
            connectionsRef (handleBeforeUnload r peerId w) !! k = Some conn ->
            dataConnection conn = Some d ->
            d ∉ openData (handleBeforeUnload r peerId w)) as Hclosed.
  { unfold handleBeforeUnload. cbv zeta.
    rewrite (foldl_sendIfOpen (fun e => dataConnection e.2)
               (fun _ => peerDisconnectMsg r peerId)).
    set (notices := map_to_list (connectionsRef w) ≫= _).
    destruct (foldl_closeOpt_pair (map_to_list (connectionsRef (addLog notices w)))
                (addLog notices w)) as (-> & _ & _ & _ & _ & Ho).
    intros k conn d Hk Hd Hin. apply Ho in Hin as [_ Hall].
    destruct (Hall (k, conn)) as [_ Hne]; [by apply elem_of_map_to_list|].
    by apply Hne. }
  split; [exact Hclosed|].
  rewrite sendDataToAll_addLog.
  replace (broadcastOf _ data) with (@nil Effect); [apply addLog_nil|].
  symmetry. apply elem_of_nil_inv. intros e He.
  apply elem_of_broadcastOf in He as (_ & k & conn & d & Hk & Hd & Ho & _).
  by apply (Hclosed k conn d).
Qed.

(** ** Local tracks *)

Lemma flipTracks_flipTracks k s : flipTracks k (flipTracks k s) = s.
Proof.
  unfold flipTracks. induction s as [|[kd en] s IH]; [done|].
  cbn [map]. rewrite IH. f_equal.
  destruct kd, k, en; reflexivity.
Qed.

Lemma flipTracks_other k k' s :
  k ≠ k' -> getTracksOf k' (flipTracks k s) = getTracksOf k' s.
Proof.
  intros Hne. unfold flipTracks, getTracksOf.
  induction s as [|[kd en] s IH]; [done|]. cbn [map].
  case_decide as E; cbn [Track.kind] in *.
  - rewrite !filter_cons_False; cbn; congruence.
  - rewrite !filter_cons. by rewrite IH.
Qed.

Lemma flipTracks_comm k k' s :
  flipTracks k (flipTracks k' s) = flipTracks k' (flipTracks k s).
Proof.
  unfold flipTracks. induction s as [|[kd en] s IH]; [done|].
  cbn [map]. rewrite IH. f_equal.
  destruct kd, k, k'; reflexivity.
Qed.

(** X8. Toggling the microphone twice, or the camera twice, restores
    every track of the local stream; the two toggles commute; and a
    toggle of one kind leaves the tracks of the other kind as they are. *)
Theorem toggle_twice_restores (localStream : option (list Track.t)) :
  toggleAudio (toggleAudio localStream) = localStream ∧
  toggleVideo (toggleVideo localStream) = localStream ∧
  toggleAudio (toggleVideo localStream) = toggleVideo (toggleAudio localStream) ∧
  (getTracksOf Track.video <$> toggleAudio localStream)
  = (getTracksOf Track.video <$> localStream) ∧
  (getTracksOf Track.audio <$> toggleVideo localStream)
  = (getTracksOf Track.audio <$> localStream).
Proof.
  unfold toggleAudio, toggleVideo. destruct localStream as [s|]; simpl; [|done].
  rewrite !flipTracks_flipTracks, (flipTracks_comm Track.audio Track.video).
  by rewrite !flipTracks_other.
Qed.

(** ** Recording layout *)

Lemma gridOf_capacity (n : nat) :
  (n ≤ (gridOf n).1 * (gridOf n).2)%nat ∧ (0 < (gridOf n).2)%nat ∧
  (0 < (gridOf n).1 ≤ 4)%nat.
Proof.
  unfold gridOf.
  destruct (Nat.leb_spec n 1); [cbn; lia|].
  destruct (Nat.leb_spec n 4); [cbn; lia|].
  destruct (Nat.leb_spec n 9); [cbn; lia|].
  cbn [fst snd].
  pose proof (Nat.div_mod_eq (n + 3) 4) as Hd.
  pose proof (Nat.mod_upper_bound (n + 3) 4 ltac:(lia)) as Hm.
  lia.
Qed.

(** X9. The grid [layoutStreams] picks has room for every stream: the
    stream at any position below the number of streams is given a cell,
    so the guard that skips positions beyond the grid never fires; the
    cell lies inside the grid, which has at most 4 rows. *)
Theorem gridOf_holds_every_stream (n index : nat) :
  (index < n)%nat ->
  ∃ row col,
    cellOf n index = Some (row, col) ∧
    (row < (gridOf n).1)%nat ∧ (col < (gridOf n).2)%nat ∧
    ((gridOf n).1 ≤ 4)%nat.
Proof.
  intros Hlt. destruct (gridOf_capacity n) as (Hcap & Hcols & Hrows).
  unfold cellOf. destruct (gridOf n) as [rows cols]. cbn [fst snd] in *.
  destruct (Nat.leb_spec (rows * cols) index) as [Hle|Hgt]; [lia|].
  eexists _, _. split; [reflexivity|].
  split; [apply Nat.Div0.div_lt_upper_bound; lia|].
  split; [apply Nat.mod_upper_bound; lia | lia].
Qed.

Lemma gridOf_holds_every_stream_witness :
  ∃ row col,
    cellOf 11 10 = Some (row, col) ∧
    (row < (gridOf 11).1)%nat ∧ (col < (gridOf 11).2)%nat ∧
    ((gridOf 11).1 ≤ 4)%nat.
Proof. apply (gridOf_holds_every_stream 11 10). lia. Defined.

(** X10. Two streams at different positions are never drawn in the same
    cell of the recording grid. *)
Theorem cellOf_distinct (n i j : nat) :
  (i < n)%nat -> (j < n)%nat -> i ≠ j -> cellOf n i ≠ cellOf n j.
Proof.
  intros Hi Hj Hne. destruct (gridOf_capacity n) as (Hcap & Hcols & Hrows).
  unfold cellOf. destruct (gridOf n) as [rows cols]. cbn [fst snd] in *.
  destruct (Nat.leb_spec (rows * cols) i); [lia|].
  destruct (Nat.leb_spec (rows * cols) j); [lia|].
  intros [= Hq Hr]. apply Hne.
  rewrite (Nat.div_mod_eq i cols), (Nat.div_mod_eq j cols). congruence.
Qed.

Lemma cellOf_distinct_witness :
  (2 < 11)%nat ∧ (10 < 11)%nat ∧ cellOf 11 2 ≠ cellOf 11 10.
Proof.
  split; [lia|]. split; [lia|]. apply (cellOf_distinct 11 2 10); lia.
Defined.

Lemma length_app_string (a b : string) :
  String.length (a +:+ b) = (String.length a + String.length b)%nat.
Proof.
  induction a as [|c a IH]; [done|].
  change (String c a +:+ b) with (String c (a +:+ b)). cbn [String.length].
  by rewrite IH.
Qed.

Lemma padStart2_length_small (n : nat) :
  (n < 100)%nat -> String.length (padStart2 (pretty n)) = 2%nat.
Proof.
  intros Hn.
  assert (forallb (fun n => Nat.eqb (String.length (padStart2 (pretty n))) 2)
            (seq 0 100) = true) as Hall by (vm_compute; reflexivity).
  rewrite forallb_forall in Hall. apply Nat.eqb_eq, Hall, in_seq. lia.
Qed.

(** X11. For a recording shorter than 100 minutes the elapsed time is
    shown in five characters, two for the minutes and two for the
    seconds around a colon. *)
Theorem formattedTime_shape (recordingTime : nat) :
  (recordingTime < 100 * 60)%nat ->
  String.length (formattedTime recordingTime) = 5%nat ∧
  String.get 2 (formattedTime recordingTime) = Some (Ascii.ascii_of_nat 58).
Proof.
  intros Hlt. unfold formattedTime.
  assert (recordingTime / 60 < 100)%nat as Hm.
  { pose proof (Nat.div_mod_eq recordingTime 60). lia. }
  assert (recordingTime mod 60 < 100)%nat as Hs.
  { pose proof (Nat.mod_upper_bound recordingTime 60). lia. }
  pose proof (padStart2_length_small _ Hm) as Lm.
  pose proof (padStart2_length_small _ Hs) as Ls.
  split.
  - rewrite !length_app_string, Lm, Ls. reflexivity.
  - set (rest := ":" +:+ padStart2 (pretty (recordingTime mod 60)%nat)).
    pose proof (String.append_correct2
                  (padStart2 (pretty (recordingTime / 60)%nat)) rest 0) as H.
    rewrite Lm in H. cbn [Nat.add] in H. rewrite <- H. reflexivity.
Qed.

Lemma formattedTime_shape_witness :
  formattedTime 125 = "02:05" ∧
  String.length (formattedTime 125) = 5%nat ∧
  String.get 2 (formattedTime 125) = Some (Ascii.ascii_of_nat 58).
Proof.
  split; [vm_compute; reflexivity|]. apply (formattedTime_shape 125). lia.
Defined.

(** ** The participant list *)

Lemma noNewcomer_refl w : noNewcomer w w.
Proof. unfold noNewcomer. reflexivity. Qed.

Lemma noNewcomer_trans w1 w2 w3 :
  noNewcomer w1 w2 -> noNewcomer w2 w3 -> noNewcomer w1 w3.
Proof. unfold noNewcomer. intros H1 H2. by etrans. Qed.

Lemma noNewcomer_same w w' : participants w' = participants w -> noNewcomer w w'.
Proof. unfold noNewcomer. by intros ->. Qed.

Lemma noNewcomer_map (f : Participant.t -> Participant.t) w :
  (∀ p, Participant.id (f p) = Participant.id p) ->
  noNewcomer w (setParticipants (map f) w).
Proof.
  intros Hf. unfold noNewcomer. cbn [setParticipants participants].
  rewrite map_map. erewrite map_ext; [reflexivity|]. intros p. apply Hf.
Qed.

Lemma noNewcomer_without peerId w :
  noNewcomer w (setParticipants (withoutParticipant peerId) w).
Proof.
  unfold noNewcomer, withoutParticipant. cbn [setParticipants participants].
  induction (participants w) as [|p l IH]; [done|].
  rewrite filter_cons. case_decide; cbn [map].
  - by apply sublist_skip.
  - by apply sublist_cons.
Qed.

Lemma noNewcomer_foldl {A} (f : World -> A -> World) (l : list A) w :
  (∀ w x, noNewcomer w (f w x)) -> noNewcomer w (foldl f w l).
Proof.
  intros Hf. revert w. induction l as [|x l IH]; intros w; cbn [foldl].
  - apply noNewcomer_refl.
  - eapply noNewcomer_trans; [apply Hf | apply IH].
Qed.

Lemma noNewcomer_sendIfOpen c m w : noNewcomer w (sendIfOpen c m w).
Proof. apply noNewcomer_same. by rewrite sendIfOpen_addLog. Qed.

Lemma noNewcomer_closeOpt c w : noNewcomer w (closeOpt c w).
Proof. apply noNewcomer_same. by destruct c. Qed.

Lemma noNewcomer_establishPeerConnection r P w :
  noNewcomer w (establishPeerConnection r P w).
Proof. apply noNewcomer_same, participants_establishPeerConnection. Qed.

Lemma noNewcomer_setParticipantTransition P s w :
  noNewcomer w (setParticipantTransition P s w).
Proof.
  unfold setParticipantTransition. cbv zeta.
  eapply noNewcomer_trans.
  - apply (noNewcomer_map
             (fun p => if String.eqb (Participant.id p) P
                       then Participant.with_transitionState s p else p)).
    intros p. by destruct (String.eqb _ _).
  - destruct s; by apply noNewcomer_same.
Qed.

Lemma noNewcomer_handlePeerDisconnection r P w :
  noNewcomer w (handlePeerDisconnection r P w).
Proof.
  unfold handlePeerDisconnection. cbv zeta.
  set (w1 := if Render.transitionsEnabled r then _ else _).
  assert (noNewcomer w w1) as H1.
  { subst w1. destruct (Render.transitionsEnabled r).
    - eapply noNewcomer_trans; [apply noNewcomer_setParticipantTransition|].
      by apply noNewcomer_same.
    - apply noNewcomer_without. }
  destruct (connectionsRef w1 !! P); [|done].
  eapply noNewcomer_trans; [exact H1 | by apply noNewcomer_same].
Qed.

Lemma noNewcomer_disconnectNonCreator P w :
  noNewcomer w (disconnectNonCreator P w).
Proof.
  unfold disconnectNonCreator. cbv zeta.
  eapply noNewcomer_trans; [apply (noNewcomer_closeOpt (mediaOf w P))|].
  eapply noNewcomer_trans; [apply (noNewcomer_closeOpt (dataOf (closeOpt (mediaOf w P) w) P))|].
  eapply noNewcomer_trans; [|apply noNewcomer_without].
  by apply noNewcomer_same.
Qed.

Lemma noNewcomer_handlePeerList r peers w :
  noNewcomer w (handlePeerList r peers w).
Proof.
  unfold handlePeerList.
  destruct (peerRef w) as [self|]; [|apply noNewcomer_refl].
  destruct (Render.localStream r); [|apply noNewcomer_refl]. cbv zeta.
  set (w1 := foldl _ w peers).
  assert (noNewcomer w w1) as H1.
  { subst w1. apply noNewcomer_foldl. intros w0 x.
    repeat case_match; try apply noNewcomer_refl;
      apply noNewcomer_establishPeerConnection. }
  destruct (match Render.networkTopology r with star => _ | mesh => _ end);
    [|exact H1].
  eapply noNewcomer_trans; [exact H1|].
  apply noNewcomer_foldl. intros w0 x. apply noNewcomer_disconnectNonCreator.
Qed.

Section RouterNoNewcomer.
Variables (r : Render.t) (dataConn : Chan) (peer : string).
Variables (data : DataMessage.t).

Lemma markSharing_id b p : Participant.id (markSharing data b p) = Participant.id p.
Proof. unfold markSharing. by case_match. Qed.

Lemma noNewcomer_on_screen_sharing_status w :
  noNewcomer w (on_screen_sharing_status data w).
Proof.
  unfold on_screen_sharing_status. case_match; [|apply noNewcomer_refl].
  destruct (negb _); apply (noNewcomer_map (markSharing data _)), markSharing_id.
Qed.

Lemma noNewcomer_on_screen_sharing_stream w :
  noNewcomer w (on_screen_sharing_stream data w).
Proof.
  unfold on_screen_sharing_stream. case_match; [|apply noNewcomer_refl].
  apply (noNewcomer_map (markSharing data true)), markSharing_id.
Qed.

Lemma noNewcomer_on_stream_metadata w :
  noNewcomer w (on_stream_metadata data w).
Proof.
  unfold on_stream_metadata. case_match; [|apply noNewcomer_refl].
  apply noNewcomer_map. intros p. by case_match.
Qed.

Lemma noNewcomer_on_peer_list w : noNewcomer w (on_peer_list r data w).
Proof.
  unfold on_peer_list. repeat case_match; try apply noNewcomer_refl.
  apply noNewcomer_handlePeerList.
Qed.

Lemma noNewcomer_on_new_peer w : noNewcomer w (on_new_peer r data w).
Proof.
  unfold on_new_peer. repeat case_match; try apply noNewcomer_refl;
    apply noNewcomer_establishPeerConnection.
Qed.

Lemma noNewcomer_on_request_peer_list w :
  noNewcomer w (on_request_peer_list r dataConn data w).
Proof. unfold on_request_peer_list. case_match; by apply noNewcomer_same. Qed.

Lemma noNewcomer_on_peer_disconnect w :
  noNewcomer w (on_peer_disconnect r data w).
Proof.
  unfold on_peer_disconnect. case_match; [|apply noNewcomer_refl].
  apply noNewcomer_handlePeerDisconnection.
Qed.

Lemma noNewcomer_refresh (k : string) (m : DataMessage.t) w :
  noNewcomer w
    (let connection := connectionsRef w !! k in
     let w1 :=
       match connection ≫= mediaConnection with
       | Some m => saveMedia k None (close m w)
       | None => w
       end in
     if isOpen w1 (connection ≫= dataConnection)
     then sendIfOpen (connection ≫= dataConnection) m w1
     else establishPeerConnection r k w1).
Proof.
  cbv zeta. set (w1 := match _ with Some _ => _ | None => w end).
  assert (noNewcomer w w1) as H1.
  { subst w1. case_match; [by apply noNewcomer_same | apply noNewcomer_refl]. }
  eapply noNewcomer_trans; [exact H1|].
  case_match; [apply noNewcomer_sendIfOpen | apply noNewcomer_establishPeerConnection].
Qed.

Lemma noNewcomer_on_screen_share_retry_needed w :
  noNewcomer w (on_screen_share_retry_needed r data w).
Proof.
  unfold on_screen_share_retry_needed. case_match; [|apply noNewcomer_refl].
  apply noNewcomer_refresh.
Qed.

Lemma noNewcomer_on_screen_share_started w :
  noNewcomer w (on_screen_share_started r data w).1.
Proof.
  unfold on_screen_share_started. case_match; [|apply noNewcomer_refl].
  cbv zeta. set (w1 := if existsb _ (participants w) then _ else _).
  assert (noNewcomer w w1) as H1.
  { subst w1. case_match; [|by apply noNewcomer_same].
    apply noNewcomer_map. intros p. by case_match. }
  repeat case_match; cbn [fst];
    (eapply noNewcomer_trans; [exact H1 | by apply noNewcomer_same]).
Qed.

Lemma noNewcomer_on_request_screen_stream w :
  noNewcomer w (on_request_screen_stream r peer data w).
Proof.
  unfold on_request_screen_stream. repeat case_match; try apply noNewcomer_refl.
  cbv zeta. eapply noNewcomer_trans; [|apply noNewcomer_sendIfOpen].
  apply noNewcomer_same. unfold call in *. simplify_eq. cbn.
  by destruct (connectionsRef w !! peer ≫= mediaConnection).
Qed.

Lemma noNewcomer_on_request_full_reconnect w :
  noNewcomer w (on_request_full_reconnect r peer data w).
Proof.
  unfold on_request_full_reconnect. repeat case_match; try apply noNewcomer_refl.
  cbv zeta.
  match goal with
  | |- noNewcomer ?a (setTimeout _ _ (closeOpt ?c ?a)) =>
      eapply noNewcomer_trans; [apply (noNewcomer_closeOpt c a)|];
      by apply noNewcomer_same
  end.
Qed.

Lemma noNewcomer_on_camera_stream_restored w :
  noNewcomer w (on_camera_stream_restored r data w).
Proof.
  unfold on_camera_stream_restored. case_match; [|apply noNewcomer_refl].
  cbv zeta. set (w1 := setParticipants _ w).
  assert (noNewcomer w w1) as H1.
  { subst w1. apply noNewcomer_map. intros p. by case_match. }
  eapply noNewcomer_trans; [exact H1|].
  case_match; [|apply noNewcomer_establishPeerConnection].
  set (w2 := match _ with Some _ => _ | None => w1 end).
  assert (noNewcomer w1 w2) as H2.
  { subst w2. case_match; [by apply noNewcomer_same | apply noNewcomer_refl]. }
  eapply noNewcomer_trans; [exact H2|].
  set (w3 := setParticipants _ w2).
  assert (noNewcomer w2 w3) as H3.
  { subst w3. apply noNewcomer_map. intros p. by case_match. }
  eapply noNewcomer_trans; [exact H3|].
  eapply noNewcomer_trans; [apply noNewcomer_sendIfOpen|].
  by apply noNewcomer_same.
Qed.

Lemma noNewcomer_on_request_stream_update w :
  noNewcomer w (on_request_stream_update r peer data w).
Proof.
  unfold on_request_stream_update. repeat case_match; try apply noNewcomer_refl;
    cbv zeta;
    (eapply noNewcomer_trans;
       [apply (noNewcomer_closeOpt (connectionsRef w !! peer ≫= mediaConnection))|]);
    by apply noNewcomer_same.
Qed.

Lemma noNewcomer_on_reconnect_after_screen_share w :
  noNewcomer w (on_reconnect_after_screen_share r data w).
Proof.
  unfold on_reconnect_after_screen_share.
  repeat case_match; try apply noNewcomer_refl; by apply noNewcomer_same.
Qed.

Lemma noNewcomer_rename X u w :
  noNewcomer w (setParticipants (renameParticipant X u) w).
Proof.
  unfold renameParticipant.
  apply (noNewcomer_map
           (fun p => if String.eqb (Participant.id p) X
                     then Participant.with_username u p else p)).
  intros p. by case_match.
Qed.

Lemma noNewcomer_on_username w : noNewcomer w (on_username r data w).
Proof.
  unfold on_username. repeat case_match; try apply noNewcomer_refl; cbv zeta.
  - eapply noNewcomer_trans; [apply noNewcomer_rename|].
    apply noNewcomer_foldl. intros w0 x. case_match;
      [apply noNewcomer_sendIfOpen | apply noNewcomer_refl].
  - apply noNewcomer_rename.
Qed.

Lemma noNewcomer_on_forward w : noNewcomer w (on_forward r data w).
Proof. apply noNewcomer_same, participants_on_forward. Qed.

Lemma noNewcomer_on_request_username w :
  noNewcomer w (on_request_username r dataConn data w).
Proof.
  unfold on_request_username. repeat case_match; try apply noNewcomer_refl.
  by apply noNewcomer_same.
Qed.

End RouterNoNewcomer.

(** X12. The handler of control messages never adds a participant: after
    it has run on any message, the ids of the participant list, in
    order, are among the ids from before, in order. Records are added
    by the stream handlers of calls only. *)
Theorem onData_adds_no_participant (r : Render.t) (dataConn : Chan)
    (peer : string) (data : DataMessage.t) (w : World) :
  sublist (map Participant.id (participants (onData r dataConn peer data w)))
          (map Participant.id (participants w)).
Proof.
  change (noNewcomer w (onData r dataConn peer data w)).
  unfold onData. cbv zeta.
  set (w8 := on_screen_share_retry_needed r data _).
  assert (noNewcomer w w8) as H8.
  { subst w8.
    eapply noNewcomer_trans; [apply noNewcomer_on_screen_sharing_status|].
    eapply noNewcomer_trans; [apply noNewcomer_on_screen_sharing_stream|].
    eapply noNewcomer_trans; [apply noNewcomer_on_stream_metadata|].
    eapply noNewcomer_trans; [apply noNewcomer_on_peer_list|].
    eapply noNewcomer_trans; [apply noNewcomer_on_new_peer|].
    eapply noNewcomer_trans; [apply noNewcomer_on_request_peer_list|].
    eapply noNewcomer_trans; [apply noNewcomer_on_peer_disconnect|].
    apply noNewcomer_on_screen_share_retry_needed. }
  pose proof (noNewcomer_on_screen_share_started r data w8) as H9.
  destruct (on_screen_share_started r data w8) as [w9 returned].
  cbn [fst] in H9.
  assert (noNewcomer w w9) as H by (by eapply noNewcomer_trans).
  destruct returned; [exact H|].
  eapply noNewcomer_trans; [exact H|].
  eapply noNewcomer_trans; [apply noNewcomer_on_request_screen_stream|].
  eapply noNewcomer_trans; [apply noNewcomer_on_request_full_reconnect|].
  eapply noNewcomer_trans; [apply noNewcomer_on_camera_stream_restored|].
  eapply noNewcomer_trans; [apply noNewcomer_on_request_stream_update|].
  eapply noNewcomer_trans; [apply noNewcomer_on_reconnect_after_screen_share|].
  eapply noNewcomer_trans; [apply noNewcomer_on_username|].
  eapply noNewcomer_trans; [apply noNewcomer_on_forward|].
  apply noNewcomer_on_request_username.
Qed.

Lemma existsb_id_false (X : string) (l : list Participant.t) :
  existsb (fun p => String.eqb (Participant.id p) X) l = false ->
  X ∉ map Participant.id l.
Proof.
  induction l as [|p l IH]; cbn [existsb map]; [intros _; apply not_elem_of_nil|].
  intros [Hp Hl]%orb_false_elim. apply String.eqb_neq in Hp.
  apply not_elem_of_cons. split; [congruence | by apply IH].
Qed.

Lemma NoDup_ids_snoc (l : list Participant.t) (p : Participant.t) :
  existsb (fun q => String.eqb (Participant.id q) (Participant.id p)) l = false ->
  NoDup (map Participant.id l) -> NoDup (map Participant.id (l ++ [p])).
Proof.
  intros Hex Hnd. rewrite map_app. apply NoDup_app. split; [done|]. split.
  - intros x Hx Hin. apply list_elem_of_singleton in Hin as ->.
    by apply existsb_id_false in Hex.
  - apply NoDup_singleton.
Qed.

Lemma ids_map_same (f : Participant.t -> Participant.t) (l : list Participant.t) :
  (∀ p, Participant.id (f p) = Participant.id p) ->
  map Participant.id (map f l) = map Participant.id l.
Proof. intros Hf. rewrite map_map. apply map_ext. intros p. apply Hf. Qed.

(** X13. Each stream handler of a call ([handleRemoteStream], the
    handler of an incoming call, the one of the call placed on
    [reconnect-after-screen-share], and the one of the call to the
    creator) keeps the ids of the participant list distinct: a record is
    appended only when no record has the id, and an update keeps the ids
    in place. *)
Theorem stream_handlers_keep_ids_distinct (r : Render.t) (w : World)
    (peerId : string) (c : Chan) (metadataUsername : option string)
    (remoteStream : Stream) :
  NoDup (map Participant.id (participants w)) ->
  NoDup (map Participant.id
           (participants (handleRemoteStream r peerId c remoteStream w))) ∧
  NoDup (map Participant.id
           (participants (onCallStream r peerId metadataUsername remoteStream w))) ∧
  NoDup (map Participant.id
           (participants (onReconnectStream r peerId remoteStream w))) ∧
  NoDup (map Participant.id (participants (onCreatorStream r remoteStream w))).
Proof.
  intros Hnd. repeat split.
  - unfold handleRemoteStream. cbn [setParticipants participants clearTimeout set_timers].
    destruct (existsb _ (participants w)) eqn:E; [done|].
    by apply NoDup_ids_snoc.
  - unfold onCallStream. cbv zeta. cbn [set_lastSeenRef participants].
    destruct (existsb _ (participants w)) eqn:E.
    + cbn [setParticipants participants]. rewrite ids_map_same; [done|].
      intros p. by case_match.
    + set (w2 := match Render.networkTopology r with mesh => _ | star => _ end).
      assert (participants w2 = participants w) as Hw2.
      { subst w2. repeat case_match; try done.
        by rewrite participants_establishPeerConnection. }
      cbn [setParticipants participants]. rewrite Hw2.
      by apply NoDup_ids_snoc.
  - unfold onReconnectStream. cbn [setParticipants participants].
    destruct (existsb _ (participants w)) eqn:E; [|by apply NoDup_ids_snoc].
    match goal with
    | |- NoDup (map _ (?upd (participants w))) =>
        assert (∀ l, map Participant.id (upd l) = map Participant.id l) as Hupd
    end.
    { induction l as [|p l IH]; [done|]. case_match; cbn [map]; [done|].
      by rewrite IH. }
    by rewrite Hupd.
  - unfold onCreatorStream. cbn [setParticipants participants].
    destruct (existsb _ (participants w)) eqn:E; [done|].
    by apply NoDup_ids_snoc.
Qed.

Lemma stream_handlers_keep_ids_distinct_witness :
  NoDup (map Participant.id
           (participants (handleRemoteStream (joinerRender []) "room-17" 1 9
                            joinerWorld))) ∧
  NoDup (map Participant.id
           (participants (onCallStream (joinerRender []) "room-17" None 9
                            joinerWorld))) ∧
  NoDup (map Participant.id
           (participants (onReconnectStream (joinerRender []) "room-17" 9
                            joinerWorld))) ∧
  NoDup (map Participant.id
           (participants (onCreatorStream (joinerRender []) 9 joinerWorld))).
Proof.
  apply (stream_handlers_keep_ids_distinct (joinerRender []) joinerWorld
           "room-17" 1 None 9).
  cbn. repeat (apply NoDup_cons; split; [set_solver|]). apply NoDup_nil_2.
Defined.

(** ** Topology *)

Lemma foldl_setTopology_step_creator_only l w :
  (∀ e, e ∈ l -> includes e.1 "-creator" = true) ->
  foldl setTopology_step w l = w.
Proof.
  revert w. induction l as [|e l IH]; intros w Hall; cbn [foldl]; [done|].
  unfold setTopology_step at 2. rewrite (Hall e) by (by left).
  apply IH. intros e' He'. apply Hall. by right.
Qed.

Lemma foldl_setTopology_step_topology l w :
  networkTopology (foldl setTopology_step w l) = networkTopology w.
Proof.
  revert w. induction l as [|e l IH]; intros w; cbn [foldl]; [done|].
  rewrite IH. unfold setTopology_step. case_match; [done|].
  by destruct (mediaConnection e.2), (dataConnection e.2).
Qed.

(** X14. Switching to star twice is switching once: the second
    [setTopology star] finds creator entries only and changes nothing.
    On the creator the switch only records the topology; on a joiner the
    registry it leaves holds exactly the entries of before whose key
    contains [-creator]. *)
Theorem setTopology_star_twice (r : Render.t) (w : World) :
  setTopology r star (setTopology r star w) = setTopology r star w ∧
  if Render.isCreator r
  then setTopology r star w = setNetworkTopology star w
  else
    ∀ k, connectionsRef (setTopology r star w) !! k
         = if includes k "-creator" then connectionsRef w !! k else None.
Proof.
  destruct (Render.isCreator r) eqn:Hc.
  - unfold setTopology. rewrite Hc. by split.
  - pose proof (setTopology_star_registry r w Hc) as [Hreg _].
    split; [|exact Hreg].
    set (w1 := setTopology r star w) in *.
    assert (networkTopology w1 = star) as Ht.
    { subst w1. unfold setTopology. rewrite Hc.
      by rewrite foldl_setTopology_step_topology. }
    unfold setTopology at 1. rewrite Hc.
    assert (setNetworkTopology star w1 = w1) as ->.
    { destruct w1. cbn in Ht. by rewrite Ht. }
    apply foldl_setTopology_step_creator_only.
    intros [k conn] Hin%elem_of_map_to_list. cbn [fst].
    rewrite Hreg in Hin. by destruct (includes k "-creator").
Qed.



Section MeshList.
Variables (r : Render.t) (self : string) (ls : Stream).
Hypothesis Hls : Render.localStream r = Some ls.

Local Notation listStep := (listStep r self).

Lemma listStep_repairs w x : repairs w (listStep w x).
Proof.
  unfold listStep. repeat case_match; try apply repairs_refl.
  apply establishPeerConnection_repairs.
Qed.

Lemma listStep_other w x Q :
  Q ≠ x -> connectionsRef (listStep w x) !! Q = connectionsRef w !! Q.
Proof.
  intros Hne. unfold listStep. repeat case_match; try done.
  by apply establishPeerConnection_other.
Qed.

Lemma listStep_participants w x : participants (listStep w x) = participants w.
Proof.
  unfold listStep. repeat case_match; try done.
  apply participants_establishPeerConnection.
Qed.

Lemma listStep_log w x e :
  e ∈ log (listStep w x) ->
  e ∈ log w ∨ (x ≠ self ∧ ∃ c, e = Connect c x ∨ e = Call c x ls).
Proof.
  unfold listStep. destruct (String.eqb_spec x self) as [->|Hne]; [by left|].
  repeat case_match; try (by left).
  destruct (establishPeerConnection_log r x w) as (es & -> & Hes).
  intros [?|Hin]%elem_of_app; [by left|]. right. split; [done|].
  destruct (Hes e Hin) as (_ & c & [->|(ls' & Hls' & ->)]); exists c; [by left|].
  right. congruence.
Qed.

Lemma foldl_listStep_repairs l w : repairs w (foldl listStep w l).
Proof.
  revert w. induction l as [|x l IH]; intros w; cbn [foldl].
  - apply repairs_refl.
  - eapply repairs_trans; [apply listStep_repairs | apply IH].
Qed.

Lemma foldl_listStep_participants l w :
  participants (foldl listStep w l) = participants w.
Proof.
  revert w. induction l as [|x l IH]; intros w; cbn [foldl]; [done|].
  by rewrite IH, listStep_participants.
Qed.

Lemma foldl_listStep_log l w e :
  e ∈ log (foldl listStep w l) ->
  e ∈ log w ∨ ∃ x c, x ∈ l ∧ x ≠ self ∧ (e = Connect c x ∨ e = Call c x ls).
Proof.
  revert w. induction l as [|x l IH]; intros w; cbn [foldl]; [by left|].
  intros [Hin|(y & c & Hy & ? & ?)]%IH.
  - apply listStep_log in Hin as [?|(? & c & ?)]; [by left|].
    right. exists x, c. split; [by left | done].
  - right. exists y, c. split; [by right | done].
Qed.

Lemma foldl_listStep_calls l w P :
  P ∈ l -> P ≠ self -> peerRef w = Some self -> mediaOf w P = None ->
  ∃ c, (nextChan w ≤ c)%nat ∧ Call c P ls ∈ log (foldl listStep w l).
Proof.
  revert w. induction l as [|x l IH]; intros w Hin Hne Hp Hm; cbn [foldl].
  - by apply elem_of_nil in Hin.
  - pose proof (listStep_repairs w x) as Hx.
    pose proof (foldl_listStep_repairs l (listStep w x)) as Hl.
    destruct (decide (x = P)) as [->|Hxp].
    + assert (listStep w P = establishPeerConnection r P w) as HP.
      { unfold listStep. apply String.eqb_neq in Hne as ->.
        rewrite Hm. cbn [andb].
        rewrite (bool_decide_eq_false_2 (is_Some None)) by (by intros [? [=]]).
        by rewrite andb_false_r. }
      destruct (establishPeerConnection_calls r P w self ls Hp Hls Hne Hm)
        as (c & ? & Hc).
      exists c. split; [done|]. eapply repairs_log_mono; [exact Hl|].
      by rewrite HP.
    + apply elem_of_cons in Hin as [->|Hin]; [done|].
      destruct Hx as (_ & Hp' & _ & _ & Hn).
      destruct (IH (listStep w x) Hin Hne) as (c & ? & ?).
      * by rewrite Hp'.
      * unfold mediaOf. rewrite listStep_other by done. exact Hm.
      * exists c. split; [lia | done].
Qed.

End MeshList.

(** X16. In mesh mode, or on the creator, [handlePeerList] on a
    registered peer that has its local stream closes nothing, keeps the
    control channel of every registry entry and the participant list,
    and places a call with the local stream to every listed peer, other
    than the own id, for which the registry has no media channel. What it
    asks of the transport are [connect] and [call] to listed peers other
    than the own id, nothing else. *)
Theorem handlePeerList_unrestricted_connects_missing (r : Render.t)
    (peers : list string) (w : World) (self : string) (ls : Stream) :
  peerRef w = Some self -> Render.localStream r = Some ls ->
  Render.networkTopology r = mesh ∨ Render.isCreator r = true ->
  let w' := handlePeerList r peers w in
  repairs w w' ∧
  participants w' = participants w ∧
  (∀ P, P ∈ peers -> P ≠ self -> mediaOf w P = None ->
        ∃ c, (nextChan w ≤ c)%nat ∧ Call c P ls ∈ log w') ∧
  (∀ e, e ∈ log w' ->
        e ∈ log w ∨
        ∃ P c, P ∈ peers ∧ P ≠ self ∧ (e = Connect c P ∨ e = Call c P ls)).
Proof.
  intros Hp Hs Htop. cbv zeta. unfold handlePeerList. rewrite Hp, Hs. cbv zeta.
  assert (match Render.networkTopology r with
          | star => negb (Render.isCreator r)
          | mesh => false
          end = false) as ->.
  { destruct Htop as [-> | ->]; [done | by destruct (Render.networkTopology r)]. }
  split; [apply (foldl_listStep_repairs r self)|].
  split; [apply (foldl_listStep_participants r self)|].
  split.
  - intros P Hin Hne Hm. by apply (foldl_listStep_calls r self ls).
  - intros e He. by apply (foldl_listStep_log r self ls Hs) in He.
Qed.

Lemma handlePeerList_unrestricted_connects_missing_witness :
  let w' := handlePeerList (joinerRender []) ["room-creator"; "room-42"; "room-99"]
              joinerWorld in
  repairs joinerWorld w' ∧
  participants w' = participants joinerWorld ∧
  (∀ P, P ∈ ["room-creator"; "room-42"; "room-99"] -> P ≠ "room-42" ->
        mediaOf joinerWorld P = None ->
        ∃ c, (nextChan joinerWorld ≤ c)%nat ∧ Call c P 1 ∈ log w') ∧
  (∀ e, e ∈ log w' ->
        e ∈ log joinerWorld ∨
        ∃ P c, P ∈ ["room-creator"; "room-42"; "room-99"] ∧ P ≠ "room-42"
               ∧ (e = Connect c P ∨ e = Call c P 1)).
Proof.
  apply (handlePeerList_unrestricted_connects_missing (joinerRender [])
           ["room-creator"; "room-42"; "room-99"] joinerWorld "room-42" 1);
    [reflexivity | reflexivity | left; reflexivity].
Defined.

(** ** The lifecycle of a connection *)

(** [establishPeerConnection] for a peer with no media channel yet: what
    it leaves in the world. *)
Lemma establishPeerConnection_fresh r P w self ls :
  peerRef w = Some self -> Render.localStream r = Some ls ->
  P ≠ self -> mediaOf w P = None ->
  let c := (nextChan w + length (controlChannelFor w P))%nat in
  let w1 := establishPeerConnection r P w in
  connectionsRef w1 = <[P := mkConn (Some c) (dataOf w P)]> (connectionsRef w) ∧
  timers w1 = (timers w ++ [(15000%N, ConnectionTimeout P c)])%list ∧
  nextChan w1 = S c ∧
  peerRef w1 = peerRef w ∧
  log w1 = (log w ++ controlChannelFor w P ++ [Call c P ls])%list.
Proof.
  intros Hp Hs Hne%String.eqb_neq Hm. cbv zeta.
  unfold establishPeerConnection, controlChannelFor.
  rewrite Hp, Hs, Hne, Hm.
  rewrite (bool_decide_eq_false_2 (is_Some None)) by (by intros [? [=]]).
  destruct (dataOf w P) as [d|] eqn:Hd.
  - rewrite (bool_decide_eq_true_2 (is_Some (Some d))) by eauto.
    rewrite Hm, (bool_decide_eq_false_2 (is_Some None)) by (by intros [? [=]]).
    change (length []) with 0%nat. rewrite Nat.add_0_r.
    unfold call. cbv beta iota zeta. unfold saveMedia. wcbn.
    change (dataOf _ P) with (dataOf w P). by rewrite Hd.
  - rewrite (bool_decide_eq_false_2 (is_Some None)) by (by intros [? [=]]).
    assert (mediaOf (connect P w).2 P = None) as -> by exact Hm.
    rewrite (bool_decide_eq_false_2 (is_Some None)) by (by intros [? [=]]).
    change (length [Connect (nextChan w) P]) with 1%nat. rewrite Nat.add_1_r.
    unfold call, connect. cbv beta iota zeta. unfold saveMedia. wcbn.
    change (dataOf _ P) with (dataOf w P). rewrite Hd, <- app_assoc. done.
Qed.

(** The timeout of a call that is still the registered one, in closed
    form. *)
Lemma connectionTimeout_fires r P c w self ls :
  peerRef w = Some self -> Render.localStream r = Some ls ->
  mediaOf w P = Some c ->
  connectionTimeout r P c w
  = saveMedia P (Some (nextChan w))
      (emit (Call (nextChan w) P ls) (set_nextChan (S (nextChan w)) (close c w))).
Proof.
  intros Hp Hs Hm. unfold connectionTimeout.
  rewrite bool_decide_eq_true_2 by done. cbv zeta.
  change (peerRef (close c w)) with (peerRef w). by rewrite Hp, Hs.
Qed.

(** X17. Let [establishPeerConnection] place a call [c] to a peer [P]
    that had no media channel. The call is registered and its 15 s
    timeout is pending. The timeout is cancelled when the stream of the
    call arrives and when the call closes. If it fires instead, the call
    is closed and a second call is placed and registered in its stead,
    the control channel of the entry being kept; no timeout is armed for
    the second call. *)
Theorem connection_timeout_lifecycle (r : Render.t) (P : string) (w : World)
    (self : string) (ls remoteStream : Stream) :
  peerRef w = Some self -> Render.localStream r = Some ls ->
  P ≠ self -> mediaOf w P = None ->
  let w1 := establishPeerConnection r P w in
  let c := (nextChan w + length (controlChannelFor w P))%nat in
  let t := (15000%N, ConnectionTimeout P c) in
  let w2 := runTimer r t w1 in
  mediaOf w1 P = Some c ∧
  t ∈ timers w1 ∧
  t ∉ timers (handleRemoteStream r P c remoteStream w1) ∧
  t ∉ timers (onCallClose r P c w1) ∧
  log w2 = (log w1 ++ [Close c; Call (S c) P ls])%list ∧
  mediaOf w2 P = Some (S c) ∧
  dataOf w2 P = dataOf w P ∧
  (∀ t', t' ∈ timers w2 -> t' ∈ timers w).
Proof.
  intros Hp Hs Hne Hm. cbv zeta.
  destruct (establishPeerConnection_fresh r P w self ls Hp Hs Hne Hm)
    as (HrB & HtB & HnB & HpB & HlB).
  set (c := (nextChan w + length (controlChannelFor w P))%nat) in *.
  set (t := (15000%N, ConnectionTimeout P c)) in *.
  set (wB := establishPeerConnection r P w) in *.
  rewrite Hp in HpB.
  assert (mediaOf wB P = Some c) as HmB.
  { unfold mediaOf. by rewrite HrB, lookup_insert_eq. }
  assert (dataOf wB P = dataOf w P) as HdB.
  { unfold dataOf at 1. by rewrite HrB, lookup_insert_eq. }
  clearbody wB.
  split; [exact HmB|].
  split; [rewrite HtB; apply elem_of_app; right; by left|].
  split.
  { unfold handleRemoteStream. wcbn. intros [Hneq _]%list_elem_of_filter. done. }
  split.
  { unfold onCallClose, handlePeerDisconnection, setParticipantTransition,
      deleteConn.
    destruct (Render.transitionsEnabled r); wcbn; rewrite HrB, lookup_insert_eq; wcbn.
    - intros [Hin|Hin]%elem_of_app.
      + by apply list_elem_of_filter in Hin as [? _].
      + apply list_elem_of_singleton in Hin. discriminate.
    - intros [Hneq _]%list_elem_of_filter. done. }
  unfold runTimer, t. cbn [fst snd fire].
  set (wC := clearTimeout 15000%N (ConnectionTimeout P c) wB).
  assert (mediaOf wC P = Some c) as HmC by exact HmB.
  assert (dataOf wC P = dataOf w P) as HdC by exact HdB.
  assert (nextChan wC = S c) as HnC by exact HnB.
  assert (peerRef wC = Some self) as HpC by exact HpB.
  assert (log wC = log wB) as HlC by reflexivity.
  assert (∀ t', t' ∈ timers wC -> t' ∈ timers w) as HtC.
  { subst wC. wcbn. rewrite HtB. intros t' [Hne' Hin]%list_elem_of_filter.
    apply elem_of_app in Hin as [?|Hin]; [done|].
    apply list_elem_of_singleton in Hin. exfalso. exact (Hne' Hin). }
  clearbody wC.
  rewrite (connectionTimeout_fires r P c wC self ls HpC Hs HmC). rewrite HnC.
  split; [wcbn; by rewrite HlC, <- app_assoc|].
  split; [apply mediaOf_saveMedia|].
  split; [rewrite dataOf_saveMedia; exact HdC|].
  exact HtC.
Qed.

Lemma connection_timeout_lifecycle_witness :
  let r := joinerRender [] in
  let w1 := establishPeerConnection r "room-99" joinerWorld in
  let c := (nextChan joinerWorld
            + length (controlChannelFor joinerWorld "room-99"))%nat in
  let t := (15000%N, ConnectionTimeout "room-99" c) in
  let w2 := runTimer r t w1 in
  mediaOf w1 "room-99" = Some c ∧
  t ∈ timers w1 ∧
  t ∉ timers (handleRemoteStream r "room-99" c 9 w1) ∧
  t ∉ timers (onCallClose r "room-99" c w1) ∧
  log w2 = (log w1 ++ [Close c; Call (S c) "room-99" 1])%list ∧
  mediaOf w2 "room-99" = Some (S c) ∧
  dataOf w2 "room-99" = dataOf joinerWorld "room-99" ∧
  (∀ t', t' ∈ timers w2 -> t' ∈ timers joinerWorld).
Proof.
  apply (connection_timeout_lifecycle (joinerRender []) "room-99" joinerWorld
           "room-42" 1 9);
    [reflexivity | reflexivity | discriminate | reflexivity].
Defined.

(** ** A control channel opens *)

Lemma foldl_cond_sendIfOpen {A} (P : A -> bool) (cOf : A -> option Chan)
    (m : DataMessage.t) (l : list A) (w : World) :
  foldl (fun w x => if P x then sendIfOpen (cOf x) m w else w) w l
  = addLog (l ≫= (fun x => if P x then sendTo w (cOf x) m else [])) w.
Proof.
  revert w. induction l as [|x l IH]; intros w; cbn [foldl mbind list_bind].
  - by rewrite addLog_nil.
  - rewrite IH. destruct (P x).
    + rewrite sendIfOpen_addLog, addLog_addLog. reflexivity.
    + by rewrite app_nil_l.
Qed.



(** ** Messages the router answers, and messages it ignores *)

(** X19. A [request-username] message on a registered peer is answered
    on the channel it came on, whatever the state of that channel, with
    one [username] message carrying the own id and the local name; the
    request is not among the types the router keeps to itself, so it is
    handed to the application callback first, when there is one. Nothing
    else changes. *)
Theorem request_username_is_answered (r : Render.t) (dataConn : Chan)
    (peer : string) (data : DataMessage.t) (w : World) (self : string) :
  DataMessage.type data = "request-username" ->
  peerRef w = Some self ->
  onData r dataConn peer data w
  = addLog ((if Render.onDataReceived r then [Forward data] else [])
            ++ [Send dataConn (usernameMsg r (Some self) (Render.localUsername r))])
      w.
Proof.
  intros Hty Hp. route Hty.
  unfold on_forward. cbv zeta.
  rewrite (bool_decide_eq_false_2 (DataMessage.type data ∈ internalTypes))
    by (rewrite Hty; unfold internalTypes; set_solver).
  rewrite andb_true_r.
  unfold on_request_username. cbv zeta.
  destruct (Render.onDataReceived r); cbn [peerRef emit]; rewrite Hp, Hty;
    rewrite String.eqb_refl; unfold send, emit, addLog, usernameMsg; cbn;
    by rewrite <- ?app_assoc.
Qed.

Lemma request_username_is_answered_witness :
  onData (joinerRender []) 2 "room-17" usernameRequest joinerWorld
  = addLog [Forward usernameRequest;
            Send 2 (usernameMsg (joinerRender []) (Some "room-42") "me")]
      joinerWorld.
Proof.
  apply (request_username_is_answered (joinerRender []) 2 "room-17"
           usernameRequest joinerWorld "room-42"); reflexivity.
Defined.




(** X21. The [return] inside the [screen-share-started] block skips
    nothing: for a message of that type the whole handler does what the
    block does, whether the block returned early or not, because no
    later block acts on the type and the type is not forwarded to the
    application. *)
Theorem screen_share_started_return_skips_nothing (r : Render.t)
    (dataConn : Chan) (peer : string) (data : DataMessage.t) (w : World) :
  DataMessage.type data = "screen-share-started" ->
  onData r dataConn peer data w = (on_screen_share_started r data w).1.
Proof.
  intros Hty. route Hty. destruct (on_screen_share_started r data w) as [w9 b].
  cbn [fst]. destruct b; [done|]. cbv beta iota.
  rewrite ?skip_request_screen_stream, ?skip_request_full_reconnect,
    ?skip_camera_stream_restored, ?skip_request_stream_update,
    ?skip_reconnect_after_screen_share, ?skip_username
    by (rewrite Hty; discriminate).
  rewrite ?skip_request_username by (rewrite Hty; discriminate).
  apply on_forward_internal. rewrite Hty. unfold internalTypes. set_solver.
Qed.


Lemma screen_share_started_return_skips_nothing_witness :
  onData (joinerRender [creatorP; guestP]) 2 "room-17" startedMsg joinerWorld
  = (on_screen_share_started (joinerRender [creatorP; guestP]) startedMsg
       joinerWorld).1.
Proof.
  apply (screen_share_started_return_skips_nothing
           (joinerRender [creatorP; guestP]) 2 "room-17" startedMsg joinerWorld).
  reflexivity.
Defined.




Lemma onData_request_stream_update r dataConn peer data w :
  DataMessage.type data = "request-stream-update" ->
  onData r dataConn peer data w = on_request_stream_update r peer data w.
Proof.
  intros Hty. route Hty.
  rewrite on_forward_internal by (rewrite Hty; set_solver). done.
Qed.

Lemma createCallWithCamera_effect r P s ec w :
  is_Some (peerRef w) ->
  log (createCallWithCamera r P s ec w)
  = (log w ++ [Call (nextChan w) P s]
     ++ sendTo w (ec ≫= dataConnection)
          (DataMessage.bare "camera-stream-sent" (Render.now r)))%list ∧
  connectionsRef (createCallWithCamera r P s ec w)
  = <[P := mkConn (Some (nextChan w)) (dataOf w P)]> (connectionsRef w).
Proof.
  intros [self Hp]. unfold createCallWithCamera. rewrite Hp. unfold call.
  cbv beta iota zeta. rewrite sendIfOpen_addLog.
  set (w2 := saveMedia P (Some (nextChan w)) _).
  assert (log w2 = (log w ++ [Call (nextChan w) P s])%list ∧
          connectionsRef w2
          = <[P := mkConn (Some (nextChan w)) (dataOf w P)]> (connectionsRef w) ∧
          openData w2 = openData w) as (Hl & Hr & Ho) by done.
  clearbody w2. cbn [addLog log connectionsRef]. rewrite Hl, Hr, <- app_assoc.
  split; [|done]. do 2 f_equal. unfold sendTo. by rewrite Ho.
Qed.

(** X23. A [request-stream-update] message on a registered peer that has
    a local stream closes the media channel the registry has for the
    requester, does nothing else on the transport, and arms a timer
    (50 ms when the request is urgent, 100 ms otherwise) that remembers
    the registry entry of that moment. When the timer runs on a
    registered peer, one call is placed to the requester on a new
    channel. It carries the captured local stream if that stream is
    still live; otherwise the stream [getUserMedia] gives, which is also
    handed to [setLocalStream]; and the captured stream again if
    [getUserMedia] fails. The call becomes the media channel of the
    requester's entry, next to the data channel the entry has at that
    time, and [camera-stream-sent] goes out on the remembered data
    channel if it is open. *)
Theorem stream_update_request_replaces_media (r : Render.t) (dataConn : Chan)
    (peer : string) (data : DataMessage.t) (w : World) (self : string)
    (ls : Stream) :
  peerRef w = Some self -> Render.localStream r = Some ls ->
  DataMessage.type data = "request-stream-update" ->
  let w1 := onData r dataConn peer data w in
  let a := SendCamera peer (connectionsRef w !! peer) in
  let sent := if Render.streamLive r ls then ls
              else default ls (Render.userMedia r) in
  (if bool_decide (DataMessage.urgent data = Some true) then 50%N else 100%N, a)
    ∈ timers w1 ∧
  log w1 = (log w ++ option_list (Close <$> mediaOf w peer))%list ∧
  ∀ w', is_Some (peerRef w') ->
        (sendCamera r peer (connectionsRef w !! peer) w').1
        = (if Render.streamLive r ls then None else Render.userMedia r) ∧
        log (fire r a w')
        = (log w' ++ [Call (nextChan w') peer sent]
           ++ sendTo w' (dataOf w peer)
                (DataMessage.bare "camera-stream-sent" (Render.now r)))%list ∧
        connectionsRef (fire r a w')
        = <[peer := mkConn (Some (nextChan w')) (dataOf w' peer)]>
            (connectionsRef w').
Proof.
  intros Hp Hs Hty. cbv zeta.
  rewrite onData_request_stream_update by done.
  unfold on_request_stream_update. rewrite Hs, Hp, Hty.
  rewrite String.eqb_refl. cbv zeta.
  set (ms := if bool_decide _ then 50%N else 100%N).
  set (ec := connectionsRef w !! peer).
  split; [|split].
  - cbn [setTimeout set_timers timers]. apply elem_of_app. right. by left.
  - unfold mediaOf. fold ec. destruct (ec ≫= mediaConnection); cbn;
      [done | by rewrite app_nil_r].
  - intros w' Hp'. cbn [fire]. unfold sendCamera, dataOf at 1. fold ec.
    rewrite Hs.
    destruct (Render.streamLive r ls); [|destruct (Render.userMedia r)];
      cbn [fst snd default]; (split; [done|]);
      by apply createCallWithCamera_effect.
Qed.

Lemma stream_update_request_replaces_media_witness :
  let r := staleCameraRender in
  let w1 := onData r 2 "room-17" streamUpdateRequest joinerWorld in
  let a := SendCamera "room-17" (connectionsRef joinerWorld !! "room-17") in
  let sent := if Render.streamLive r 1 then 1
              else default 1 (Render.userMedia r) in
  (if bool_decide (DataMessage.urgent streamUpdateRequest = Some true)
   then 50%N else 100%N, a) ∈ timers w1 ∧
  log w1
  = (log joinerWorld ++ option_list (Close <$> mediaOf joinerWorld "room-17"))%list ∧
  ∀ w', is_Some (peerRef w') ->
        (sendCamera r "room-17" (connectionsRef joinerWorld !! "room-17") w').1
        = (if Render.streamLive r 1 then None else Render.userMedia r) ∧
        log (fire r a w')
        = (log w' ++ [Call (nextChan w') "room-17" sent]
           ++ sendTo w' (dataOf joinerWorld "room-17")
                (DataMessage.bare "camera-stream-sent" (Render.now r)))%list ∧
        connectionsRef (fire r a w')
        = <["room-17" := mkConn (Some (nextChan w')) (dataOf w' "room-17")]>
            (connectionsRef w').
Proof.
  apply (stream_update_request_replaces_media staleCameraRender 2 "room-17"
           streamUpdateRequest joinerWorld "room-42" 1); reflexivity.
Defined.

(** X24. A [request-full-reconnect] message on a registered peer that has
    its local stream closes the media channel to the requester at once
    and arms a 100 ms timer that carries the data channel the entry had
    when the message came. When the timer runs, in whatever state the
    registry then is, the entry of the requester is overwritten with a
    new call, placed with the local stream, and that remembered data
    channel. *)
Theorem full_reconnect_restores_captured_control_channel (r : Render.t)
    (dataConn : Chan) (peer : string) (data : DataMessage.t) (w : World)
    (self : string) (ls : Stream) :
  peerRef w = Some self -> Render.localStream r = Some ls ->
  DataMessage.type data = "request-full-reconnect" ->
  let w1 := onData r dataConn peer data w in
  let a := FullReconnect peer (dataOf w peer) in
  (100%N, a) ∈ timers w1 ∧
  (∀ m, mediaOf w peer = Some m -> Close m ∈ log w1) ∧
  ∀ w', is_Some (peerRef w') ->
        connectionsRef (fire r a w') !! peer
        = Some (mkConn (Some (nextChan w')) (dataOf w peer)) ∧
        Call (nextChan w') peer ls ∈ log (fire r a w').
Proof.
  intros Hp Hs Hty. cbv zeta. route Hty.
  unfold on_request_full_reconnect. rewrite Hs, Hp, Hty, String.eqb_refl.
  cbv zeta. fold (dataOf w peer). fold (mediaOf w peer).
  set (w0 := closeOpt (mediaOf w peer) w).
  assert (∀ m, mediaOf w peer = Some m -> Close m ∈ log w0) as Hl0.
  { subst w0. destruct (mediaOf w peer) as [m|]; [|done].
    intros ? [= <-]. cbn. apply elem_of_app. right. by left. }
  clearbody w0.
  unfold on_forward. cbv zeta.
  split; [|split].
  - case_match; wcbn; apply elem_of_app; right; by left.
  - intros m Hm. case_match; wcbn; [|by apply Hl0].
    apply elem_of_app. left. by apply Hl0.
  - intros w' [self' Hp']. cbn [fire]. rewrite Hs, Hp'. unfold call.
    cbv beta iota zeta. wcbn. rewrite lookup_insert_eq. split; [done|].
    apply elem_of_app. right. by left.
Qed.

Lemma full_reconnect_restores_captured_control_channel_witness :
  let r := joinerRender [] in
  let w1 := onData r 2 "room-17" fullReconnectRequest joinerWorld in
  let a := FullReconnect "room-17" (dataOf joinerWorld "room-17") in
  (100%N, a) ∈ timers w1 ∧
  (∀ m, mediaOf joinerWorld "room-17" = Some m -> Close m ∈ log w1) ∧
  ∀ w', is_Some (peerRef w') ->
        connectionsRef (fire r a w') !! "room-17"
        = Some (mkConn (Some (nextChan w')) (dataOf joinerWorld "room-17")) ∧
        Call (nextChan w') "room-17" 1 ∈ log (fire r a w').
Proof.
  apply (full_reconnect_restores_captured_control_channel (joinerRender []) 2
           "room-17" fullReconnectRequest joinerWorld "room-42" 1); reflexivity.
Defined.

(** ** Joining, transitions and the end of a screen share *)

Lemma ticks_after_clear r j w n :
  retryInterval j = false ->
  foldl (joinStep r) (j, w) (replicate n Tick) = (j, w).
Proof.
  intros Hj. induction n as [|n IH]; [done|]. cbn [replicate foldl joinStep].
  unfold onRetryTick. by rewrite Hj.
Qed.

(** X25. Once the control channel to the creator has opened, the entry
    of the creator holds that channel and a new call, and the retry
    interval is cleared: further ticks change nothing. An error that an
    attempt's channel reports after that, while the retry counter is
    below the maximum, still writes the "Retrying connection" message
    with the next count into the error slot, although no further attempt
    is made. *)
Theorem join_error_after_open_reports_idle_retry (r : Render.t)
    (stream : Stream) (dataConn : Chan) (jw : Join * World) (n : nat) :
  (retryCount jw.1 < maxRetries)%nat ->
  let opened := onCreatorOpen r stream dataConn jw in
  let late := joinStep r opened ConnError in
  connectionsRef opened.2 !! creatorIdOf r
  = Some (mkConn (Some (nextChan jw.2)) (Some dataConn)) ∧
  foldl (joinStep r) opened (replicate n Tick) = opened ∧
  error late.2 = Some (retryMessage (S (retryCount jw.1))) ∧
  attempts late.1 = attempts jw.1 ∧
  foldl (joinStep r) late (replicate n Tick) = late.
Proof.
  intros Hlt. destruct jw as [[count armed made] w]. cbn [fst snd retryCount] in *.
  cbv zeta. unfold onCreatorOpen, call. cbn [fst snd retryCount attempts].
  split; [cbn; by rewrite lookup_insert_eq|].
  split; [by apply ticks_after_clear|].
  cbn [joinStep onCreatorError retryCount retryInterval attempts].
  rewrite bool_decide_eq_true_2 by done. cbn [fst snd].
  split; [done|]. split; [done|]. by apply ticks_after_clear.
Qed.


Lemma join_error_after_open_reports_idle_retry_witness :
  let r := joinerRender [] in
  let jw := connectToCreator r freshJoinerWorld in
  let opened := onCreatorOpen r 1 10 jw in
  let late := joinStep r opened ConnError in
  connectionsRef opened.2 !! creatorIdOf r
  = Some (mkConn (Some (nextChan jw.2)) (Some 10)) ∧
  foldl (joinStep r) opened (replicate 3 Tick) = opened ∧
  error late.2 = Some (retryMessage (S (retryCount jw.1))) ∧
  attempts late.1 = attempts jw.1 ∧
  foldl (joinStep r) late (replicate 3 Tick) = late.
Proof.
  apply (join_error_after_open_reports_idle_retry (joinerRender []) 1 10
           (connectToCreator (joinerRender []) freshJoinerWorld) 3).
  vm_compute. lia.
Defined.

(** X26. [setParticipantTransition] to [connecting] or [reconnecting]
    arms a 1 s timer whose run leaves the participant list as if the
    state had been set to [connected] directly. For the states
    [connected] and [disconnecting] no timer is armed, and a run of the
    timer's body leaves the list alone: a participant that is
    disconnecting is not moved back to connected. *)
Theorem transition_timer_settles (r : Render.t) (P : string)
    (s : TransitionState) (w : World) :
  let w1 := setParticipantTransition P s w in
  match s with
  | connecting | reconnecting =>
      timers w1 = (timers w ++ [(1000%N, AutoConnected P)])%list ∧
      participants (fire r (AutoConnected P) w1)
      = participants (setParticipantTransition P connected w)
  | connected | disconnecting =>
      timers w1 = timers w ∧
      participants (fire r (AutoConnected P) w1) = participants w1
  end.
Proof.
  cbv zeta. unfold setParticipantTransition. cbv zeta.
  destruct s; (split; [reflexivity|]);
    cbn [fire participants setParticipants setTimeout set_timers];
    rewrite map_map; apply map_ext; intros p;
    destruct (String.eqb (Participant.id p) P) eqn:E;
    cbn [Participant.id Participant.with_transitionState
         Participant.transitionState]; rewrite ?E;
    cbn [andb]; try reflexivity.
  all: try (rewrite bool_decide_eq_true_2 by auto; reflexivity).
  all: try (rewrite bool_decide_eq_false_2 by (intros [?|?]; discriminate);
            reflexivity).
  all: try (by case_bool_decide).
Qed.


(** The screen channels [startScreenShare] leaves in [screenConnections]. *)
Lemma startScreenShare_screen_calls r stream w self :
  peerRef w = Some self ->
  let w' := startScreenShare r (Some stream) w in
  ∃ screenConns,
    screenConnections w' = Some screenConns ∧
    (∀ P c, screenConns !! P = Some c ->
            (nextChan w ≤ c)%nat ∧ Call c P stream ∈ log w') ∧
    (∀ p, p ∈ Render.participants r -> Participant.id p ≠ self ->
          is_Some (screenConns !! Participant.id p)).
Proof.
  intros Hp w'. subst w'. unfold startScreenShare. rewrite Hp.
  set (w1 := sendDataToAll _ w). set (w2 := sendDataToAll _ w1).
  set (w3 := setIsScreenSharing true (setScreenStream (Some stream) w2)).
  assert (keepsChannels w w3) as H3.
  { eapply keepsChannels_trans; [apply keepsChannels_sendDataToAll|].
    eapply keepsChannels_trans; [apply keepsChannels_sendDataToAll|].
    by apply keepsChannels_quiet. }
  destruct (foldl_shareWith r self stream (nextChan w3) (Render.participants r)
              (∅, w3)) as (H4 & Hcalls & _ & Hcov); [done | by intros P c ?|].
  destruct (foldl _ (∅, w3) _) as [screenConns w4].
  unfold screenCallsFrom in Hcalls. cbn [fst snd] in *.
  exists screenConns.
  assert (∀ P c, screenConns !! P = Some c ->
                 (nextChan w ≤ c)%nat ∧ Call c P stream ∈ log w4) as Hall.
  { intros P c Hc. destruct (Hcalls _ _ Hc) as (? & _ & ?). split; [|done].
    destruct H3 as (_ & _ & _ & _ & ?). lia. }
  destruct (Render.transitionsEnabled r).
  - split; [by rewrite screenConnections_foldl_transition|]. split; [|exact Hcov].
    intros P c Hc. destruct (Hall P c Hc) as [? ?]. split; [done|].
    apply (keepsChannels_log_mono
             (set_screenConnections (Some screenConns) w4)); [|done].
    apply (keepsChannels_foldl
             (fun w p => setParticipantTransition (Participant.id p)
                           reconnecting w)).
    intros w0 x. apply keepsChannels_setParticipantTransition.
  - split; [done|]. split; [exact Hall | exact Hcov].
Qed.

Lemma stopScreenShare_log_mono r w e :
  e ∈ log w -> e ∈ log (stopScreenShare r w).
Proof.
  intros He. unfold stopScreenShare.
  destruct (peerRef w) as [self|]; [|done].
  destruct (Render.screenStream r); [|done].
  set (w1 := sendDataToAll _ w).
  set (w2 := setIsScreenSharing false (setScreenStream None w1)).
  assert (e ∈ log w2) as H2.
  { subst w2 w1. rewrite sendDataToAll_addLog. cbn. apply elem_of_app. by left. }
  set (w3 := match screenConnections w2 with
             | Some screenConns => _
             | None => w2
             end).
  assert (e ∈ log w3) as H3.
  { subst w3. destruct (screenConnections w2) as [sc|]; [|done].
    destruct (foldl_close (fun e : string * Chan => e.2) (map_to_list sc) w2)
      as (_ & _ & _ & Hl). cbn [set_screenConnections log]. rewrite Hl.
    apply elem_of_app. by left. }
  set (w4 := setTimeout 300%N _ w3).
  destruct (Render.transitionsEnabled r); [|exact H3].
  destruct (foldl_transition_ui
              (fun p => String.eqb (Participant.id p) self) Participant.id
              (Render.participants r) w4) as (_ & -> & _).
  exact H3.
Qed.

(** X27. Start a screen share on a registered peer and stop it again.
    The registry is the one from before the share. Every participant of
    the list captured at the start, other than the own id, was called
    with the screen stream on a channel handed out after the start, and
    that channel has been closed by the stop. No channel that existed
    before the share was closed along the way. *)
Theorem screen_share_round_trip (r r' : Render.t) (stream s' : Stream)
    (w : World) (self : string) :
  peerRef w = Some self -> Render.screenStream r' = Some s' ->
  let w1 := startScreenShare r (Some stream) w in
  let w2 := stopScreenShare r' w1 in
  connectionsRef w2 = connectionsRef w ∧
  (∀ p, p ∈ Render.participants r -> Participant.id p ≠ self ->
        ∃ c, (nextChan w ≤ c)%nat ∧
             Call c (Participant.id p) stream ∈ log w2 ∧ Close c ∈ log w2) ∧
  (∀ c, Close c ∈ log w2 -> Close c ∈ log w ∨ (nextChan w ≤ c)%nat).
Proof.
  intros Hp Hs. cbv zeta.
  pose proof (startScreenShare_keepsChannels r (Some stream) w) as Hk.
  destruct (startScreenShare_screen_calls r stream w self Hp)
    as (sc & Hsc & Hcalls & Hcov).
  set (w1 := startScreenShare r (Some stream) w) in *.
  assert (peerRef w1 = Some self) as Hp1.
  { destruct Hk as (_ & _ & -> & _). exact Hp. }
  destruct (stopScreenShare_now r' w1 self s' Hp1 Hs) as (Hr & Hcl & Hall & _).
  set (w2 := stopScreenShare r' w1) in *.
  assert (∀ e, e ∈ log w1 -> e ∈ log w2) as Hmono.
  { intros e He. by apply stopScreenShare_log_mono. }
  split; [rewrite Hr; by destruct Hk|]. split.
  - intros p Hin Hne. destruct (Hcov p Hin Hne) as [c Hc].
    destruct (Hcalls _ _ Hc) as [Hle Hcall]. exists c.
    split; [done|]. split; [by apply Hmono | by eapply Hall].
  - intros c [Hc|(sc' & P & Hsc' & Hc)]%Hcl.
    + left. by eapply keepsChannels_close_log.
    + right. rewrite Hsc in Hsc'. simplify_eq. by destruct (Hcalls _ _ Hc).
Qed.

Lemma screen_share_round_trip_witness :
  let w1 := startScreenShare (joinerRender [creatorP; guestP]) (Some 8)
              joinerWorld in
  let w2 := stopScreenShare sharingRender w1 in
  connectionsRef w2 = connectionsRef joinerWorld ∧
  (∀ p, p ∈ Render.participants (joinerRender [creatorP; guestP]) ->
        Participant.id p ≠ "room-42" ->
        ∃ c, (nextChan joinerWorld ≤ c)%nat ∧
             Call c (Participant.id p) 8 ∈ log w2 ∧ Close c ∈ log w2) ∧
  (∀ c, Close c ∈ log w2 -> Close c ∈ log joinerWorld ∨ (nextChan joinerWorld ≤ c)%nat).
Proof.
  apply (screen_share_round_trip (joinerRender [creatorP; guestP]) sharingRender
           8 8 joinerWorld "room-42"); reflexivity.
Defined.

(** ** Incoming calls and the return of a camera *)

Lemma establishPeerConnection_registered r P w :
  is_Some (mediaOf w P) -> establishPeerConnection r P w = w.
Proof.
  intros Hm. unfold establishPeerConnection.
  destruct (peerRef w); [|done]. destruct (Render.localStream r); [|done].
  destruct (String.eqb P s); [done|].
  by rewrite bool_decide_eq_true_2.
Qed.

Lemma existsb_id_true (X : string) (l : list Participant.t) :
  existsb (fun p => String.eqb (Participant.id p) X) l = true ->
  X ∈ map Participant.id l.
Proof.
  induction l as [|p l IH]; cbn [existsb map]; [done|].
  intros [Hp|Hl]%orb_true_iff.
  - apply String.eqb_eq in Hp as <-. by left.
  - right. by apply IH.
Qed.

(** X28. An incoming call is recorded as the media channel of the
    caller's entry at once, the data channel of the entry being kept.
    When the stream of the call then arrives, the caller has a
    participant record, and neither step opens a channel, sends a
    message or closes anything: the call back that the stream handler
    asks for in mesh mode finds the media channel already registered and
    places no call. (Answering the call is not part of the transport
    log.) *)
Theorem incoming_call_is_not_called_back (r r' : Render.t) (c : Chan)
    (from : string) (metadataUsername : option string) (remoteStream : Stream)
    (w : World) :
  let w1 := onCall r c from w in
  let w2 := onCallStream r' from metadataUsername remoteStream w1 in
  mediaOf w1 from = Some c ∧
  dataOf w1 from = dataOf w from ∧
  log w1 = log w ∧
  log w2 = log w ∧
  connectionsRef w2 = connectionsRef w1 ∧
  timers w2 = timers w1 ∧
  from ∈ map Participant.id (participants w2).
Proof.
  cbv zeta.
  set (w1 := onCall r c from w).
  assert (mediaOf w1 from = Some c) as Hm by apply mediaOf_saveMedia.
  assert (dataOf w1 from = dataOf w from) as Hd.
  { subst w1. unfold onCall. rewrite dataOf_saveMedia.
    unfold setParticipantTransition. by destruct (if existsb _ _ then _ else _). }
  assert (log w1 = log w) as Hl.
  { subst w1. unfold onCall, setParticipantTransition.
    by destruct (if existsb _ _ then _ else _). }
  clearbody w1. split; [done|]. split; [done|]. split; [done|].
  unfold onCallStream. cbv zeta.
  set (w1' := set_lastSeenRef _ w1).
  assert (mediaOf w1' from = Some c) as Hm' by exact Hm.
  assert (log w1' = log w ∧ connectionsRef w1' = connectionsRef w1 ∧
          timers w1' = timers w1) as (Hl' & Hr' & Ht') by done.
  set (w2 := match Render.networkTopology r' with mesh => _ | star => _ end).
  assert (w2 = w1') as Hw2.
  { subst w2. destruct (Render.networkTopology r'); [|done].
    case_match; [|done]. apply establishPeerConnection_registered. by eexists. }
  rewrite Hw2. clearbody w1'.
  destruct (existsb _ (participants w1')) eqn:E;
    cbn [participants setParticipants log connectionsRef timers];
    (split; [done|]); (split; [done|]); (split; [done|]).
  - rewrite ids_map_same by (intros p; by case_match).
    by apply existsb_id_true.
  - rewrite map_app. apply elem_of_app. right. by left.
Qed.

Lemma onData_camera_stream_restored r dataConn peer data w :
  DataMessage.type data = "camera-stream-restored" ->
  onData r dataConn peer data w = on_camera_stream_restored r data w.
Proof.
  intros Hty. route Hty.
  rewrite on_forward_internal by (rewrite Hty; unfold internalTypes; set_solver).
  done.
Qed.

(** X29. A [camera-stream-restored] message naming [P] reaches a
    registered peer whose control channel to [P] is open. The receiver
    closes the media channel it has to [P], if any, and leaves the entry
    of [P] with the control channel and no media channel; every record
    of [P] in its participant list is in the loading state (empty
    stream, not sharing) and the records of other peers are the ones
    from before; it sends one [request-stream-update] on the control
    channel and arms the retry interval with counter 0. *)
Theorem camera_restored_asks_for_fresh_stream (r : Render.t) (dataConn : Chan)
    (peer : string) (data : DataMessage.t) (w : World) (P : string)
    (conn : Conn) (d : Chan) :
  DataMessage.type data = "camera-stream-restored" ->
  DataMessage.peerId data = Some P ->
  is_Some (peerRef w) ->
  connectionsRef w !! P = Some conn ->
  dataConnection conn = Some d -> d ∈ openData w ->
  mediaConnection conn ≠ Some d ->
  let w1 := onData r dataConn peer data w in
  connectionsRef w1 = <[P := mkConn None (Some d)]> (connectionsRef w) ∧
  log w1 = (log w ++ option_list (Close <$> mediaConnection conn)
            ++ [Send d (requestStreamUpdate r)])%list ∧
  (∀ p, p ∈ participants w1 -> Participant.id p = P ->
        Participant.stream p = emptyStream ∧
        Participant.isScreenSharing p = Some false) ∧
  (∀ p, Participant.id p ≠ P -> p ∈ participants w1 ↔ p ∈ participants w) ∧
  (2000%N, RetryStreamUpdate (Some P) 0) ∈ timers w1.
Proof.
  intros Hty HP Hp Hk Hd Ho Hne. cbv zeta.
  rewrite onData_camera_stream_restored by done.
  unfold on_camera_stream_restored. rewrite Hty, String.eqb_refl, HP.
  rewrite bool_decide_eq_true_2 by done. cbn [andb]. cbv zeta.
  change (keyOf (Some P)) with P.
  set (w1 := setParticipants _ w).
  assert (connectionsRef w1 = connectionsRef w) as Hr1 by reflexivity.
  rewrite Hr1, Hk. cbn [mbind option_bind]. rewrite Hd.
  assert (isOpen w1 (Some d) = true) as -> by (cbn; by rewrite bool_decide_eq_true_2).
  set (w2 := match mediaConnection conn with Some m => _ | None => w1 end).
  assert (connectionsRef w2 = <[P := mkConn None (Some d)]> (connectionsRef w) ∧
          log w2 = (log w ++ option_list (Close <$> mediaConnection conn))%list ∧
          participants w2 = participants w1 ∧ timers w2 = timers w ∧
          d ∈ openData w2) as (Hr2 & Hl2 & Hq2 & Ht2 & Ho2).
  { subst w2. destruct (mediaConnection conn) as [m|] eqn:Em.
    - cbn. split; [done|]. repeat split; try done.
      apply elem_of_difference. split; [done|]. set_solver.
    - cbn. rewrite app_nil_r. split; [|done].
      symmetry. apply insert_id. rewrite Hk. destruct conn; cbn in *. congruence. }
  clearbody w2.
  rewrite sendIfOpen_addLog. cbn [sendTo setParticipants openData].
  rewrite bool_decide_eq_true_2 by done.
  cbn [setInterval setTimeout set_timers addLog setParticipants connectionsRef
       log participants timers].
  rewrite Hr2, Hl2, Hq2, Ht2, <- app_assoc.
  split; [done|]. split; [done|].
  assert (map (fun p => if eqs (Participant.id p) (Some P)
                        then Participant.with_isScreenSharing false
                               (Participant.with_stream emptyStream p)
                        else p) (participants w1)
          = map (awaitCamera P) (participants w)) as ->.
  { subst w1. cbn [participants setParticipants]. rewrite map_map.
    apply map_ext. intros p. unfold awaitCamera. cbn [eqs].
    destruct (String.eqb (Participant.id p) P) eqn:E; cbn; rewrite ?E; done. }
  assert (∀ q, Participant.id (awaitCamera P q) = Participant.id q) as Hid.
  { intros q. unfold awaitCamera. by destruct (String.eqb _ P). }
  split; [|split].
  - intros p Hin Hp'. apply list_elem_of_fmap in Hin as (q & -> & _).
    rewrite Hid in Hp'. unfold awaitCamera.
    apply String.eqb_eq in Hp' as ->. done.
  - intros p Hnp. rewrite list_elem_of_fmap. split.
    + intros (q & -> & Hq). rewrite Hid in Hnp. unfold awaitCamera.
      apply String.eqb_neq in Hnp as ->. done.
    + intros Hin. exists p. split; [|done]. unfold awaitCamera.
      apply String.eqb_neq in Hnp as ->. done.
  - apply elem_of_app. right. by left.
Qed.

Lemma camera_restored_asks_for_fresh_stream_witness :
  let r := joinerRender [] in
  let w1 := onData r 2 "room-17" (cameraStreamRestored r "room-17") joinerWorld in
  connectionsRef w1
  = <["room-17" := mkConn None (Some 2)]> (connectionsRef joinerWorld) ∧
  log w1 = (log joinerWorld
            ++ option_list (Close <$> mediaConnection (mkConn (Some 1) (Some 2)))
            ++ [Send 2 (requestStreamUpdate r)])%list ∧
  (∀ p, p ∈ participants w1 -> Participant.id p = "room-17" ->
        Participant.stream p = emptyStream ∧
        Participant.isScreenSharing p = Some false) ∧
  (∀ p, Participant.id p ≠ "room-17" ->
        p ∈ participants w1 ↔ p ∈ participants joinerWorld) ∧
  (2000%N, RetryStreamUpdate (Some "room-17") 0) ∈ timers w1.
Proof.
  apply (camera_restored_asks_for_fresh_stream (joinerRender []) 2 "room-17"
           (cameraStreamRestored (joinerRender []) "room-17") joinerWorld
           "room-17" (mkConn (Some 1) (Some 2)) 2);
    [reflexivity | reflexivity | by eexists | reflexivity | reflexivity
    | vm_compute; reflexivity | discriminate].
Defined.

Lemma retryTicks_bounded r P n : ∀ k w,
  ∃ sent : list Effect,
    log (retryTicks r P k n w) = (log w ++ sent)%list ∧
    (length sent ≤ 3 - k)%nat ∧
    Forall (fun e => ∃ d, e = Send d (requestStreamUpdate r)) sent ∧
    connectionsRef (retryTicks r P k n w) = connectionsRef w ∧
    participants (retryTicks r P k n w) = participants w.
Proof.
  induction n as [|n IH]; intros k w; cbn [retryTicks].
  - exists []. rewrite app_nil_r. repeat split; [cbn; lia | constructor].
  - case_bool_decide as Hin;
      [|exists []; rewrite app_nil_r; repeat split; [cbn; lia | constructor]].
    unfold runTimer. cbn [fst snd fire].
    set (w0 := clearTimeout 2000%N (RetryStreamUpdate P k) w).
    destruct (negb _ && bool_decide (k < 3)%nat) eqn:E.
    + apply andb_true_iff in E as [_ Hk]. apply bool_decide_eq_true in Hk.
      rewrite sendIfOpen_addLog.
      set (w1 := setInterval _ _ _).
      destruct (IH (S k) w1) as (sent & Hl & Hlen & Hall & Hr & Hp).
      exists (sendTo w0 (dataOf w0 (keyOf P)) (requestStreamUpdate r) ++ sent)%list.
      rewrite Hl, Hr, Hp. split; [subst w1; cbn; by rewrite <- app_assoc|].
      split.
      * rewrite length_app.
        assert (length (sendTo w0 (dataOf w0 (keyOf P)) (requestStreamUpdate r)) ≤ 1)%nat.
        { unfold sendTo. repeat case_match; cbn; lia. }
        lia.
      * split; [|done]. apply Forall_app. split; [|done].
        apply Forall_forall. intros e He. apply elem_of_sendTo in He.
        destruct He as (d & _ & _ & ->). by exists d.
    + destruct (IH (S k) w0) as (sent & Hl & Hlen & Hall & Hr & Hp).
      exists sent. rewrite Hl, Hr, Hp. split; [done|].
      split; [lia|]. by split.
Qed.

(** X30. However often the retry interval of the
    [camera-stream-restored] block ticks, it sends at most three
    [request-stream-update] messages and makes no other call into the
    transport; the registry and the participant list are untouched. *)
Theorem stream_update_retries_bounded (r : Render.t)
    (restoredPeerId : option string) (n : nat) (w : World) :
  let w' := retryTicks r restoredPeerId 0 n w in
  ∃ sent : list Effect,
    log w' = (log w ++ sent)%list ∧
    (length sent ≤ 3)%nat ∧
    Forall (fun e => ∃ d, e = Send d (requestStreamUpdate r)) sent ∧
    connectionsRef w' = connectionsRef w ∧
    participants w' = participants w.
Proof.
  cbv zeta. destruct (retryTicks_bounded r restoredPeerId n 0 w)
    as (sent & ? & ? & ? & ? & ?).
  exists sent. split; [done|]. split; [lia|]. by split.
Qed.
